(** * screenlaunch: process-tree teardown of a detached screen session

    A shallow embedding of [screenlaunch.py].  The program talks to the
    operating system through five channels: the process listing
    ([ps -eo "%P %p"]), the session listing ([screen -ls]), [os.kill],
    [time.sleep] and [os.system].  They are the fields of an [OS] record, so
    every theorem below holds for every behaviour of the machine the script
    runs on.  The Python functions are written in a small monad that threads
    the state of that machine, records what the program did as a trace of
    events, carries Python exceptions, and runs the one unbounded loop
    ([wait_killed]) on fuel.  Python floats are binary64 numbers and are
    modelled by Rocq's primitive floats. *)

From Stdlib Require Import ZArith List Ascii Floats.
From stdpp Require Import gmap strings.

Set Warnings "-inexact-float".

Local Open Scope Z_scope.
Local Open Scope string_scope.
Local Open Scope list_scope.

(** ** Signals *)

(** The members of Python's [signal.Signals] enumeration the script names. *)
Inductive Signals := Signals_SIGINT | Signals_SIGTERM | Signals_SIGKILL.

(** [Signal = namedtuple('Signal', ['name', 'signal'])] *)
Record Signal := mkSignal { name : string; signal : Signals }.

Definition SIGINT : Signal := {| name := "-INT"; signal := Signals_SIGINT |}.
Definition SIGTERM : Signal := {| name := "-TERM"; signal := Signals_SIGTERM |}.
Definition SIGKILL : Signal := {| name := "-KILL"; signal := Signals_SIGKILL |}.

(** ** Exceptions *)

(** The exceptions the script can meet: its own ([IndexError] of [xs[0]],
    [KeyError] of [d[k]]) and those of the library calls it makes. *)
Inductive exn :=
| IndexError | KeyError
| ProcessLookupError | PermissionError | OverflowError | OSError
| ValueError | EOFError.

#[global] Instance exn_eq_dec : EqDecision exn.
Proof. solve_decision. Defined.

#[global] Instance Signals_eq_dec : EqDecision Signals.
Proof. solve_decision. Defined.

(** A call returns a value or raises an exception. *)
Inductive outcome (A : Type) :=
| Ret (a : A)
| Raise (e : exn).
Arguments Ret {A} a.
Arguments Raise {A} e.

(** ** The operating system *)

(** What the script can observe of, and do to, the machine.  A query may
    change the state as well: the process table is not under the script's
    control and two successive snapshots need not agree.
    - [ps_eo]: the (parent, child) pairs that the pattern of
      [get_running_gid_pid] finds in the output of [ps -eo "%P %p"];
    - [screen_ls]: the name-to-pid dictionary that [get_screen_sessions]
      builds from the output of [screen -ls] (pids already read as integers);
    - [os_kill]: [os.kill(pid, sig)], which delivers the signal and returns,
      or raises: [ProcessLookupError] when there is no such process,
      [PermissionError] when the caller may not signal it, [OverflowError]
      for a number that is no process id;
    - [time_sleep]: [time.sleep(secs)], which returns after that time, or
      raises: [ValueError] for a negative number or NaN, [OverflowError] or
      [OSError] for a number the clock cannot hold;
    - [os_system]: a shell command and its exit status.
    The script is taken to outlive its own calls: a signal that ends the
    script itself (one sent to its own process or process group) is not a
    behaviour of this record. *)
Record OS := mkOS {
  world : Type;
  ps_eo : world -> list (Z * Z) * world;
  screen_ls : world -> gmap string Z * world;
  os_kill : Z -> Signals -> world -> outcome unit * world;
  time_sleep : float -> world -> outcome unit * world;
  os_system : string -> world -> Z * world
}.

(** What the script does, in the order it does it: [EvKill] and [EvSleep]
    are the calls of [os.kill] and [time.sleep], whether they returned or
    raised. *)
Inductive event :=
| EvPs (pairs : list (Z * Z))
| EvScreenLs (sessions : gmap string Z)
| EvPrint (label : string) (pid : Z)
| EvKill (pid : Z) (sig : Signals)
| EvSleep (secs : float)
| EvSystem (cmd : string).

(** ** Reading traces *)

Definition kill_of (e : event) : option (Z * Signals) :=
  match e with EvKill p s => Some (p, s) | _ => None end.

Definition poll_of (e : event) : option (list (Z * Z)) :=
  match e with EvPs t => Some t | _ => None end.

Definition sleep_of (e : event) : option float :=
  match e with EvSleep d => Some d | _ => None end.

Definition system_of (e : event) : option string :=
  match e with EvSystem c => Some c | _ => None end.

(** The signals a trace sends, the snapshots it reads, its sleeps and its
    shell commands, each in order. *)
Definition kills (tr : list event) : list (Z * Signals) := omap kill_of tr.
Definition polls (tr : list event) : list (list (Z * Z)) := omap poll_of tr.
Definition sleeps (tr : list event) : list float := omap sleep_of tr.
Definition commands (tr : list event) : list string := omap system_of tr.

(** [pid in [child for parent, child in pairs]] *)
Definition listed (pid : Z) (pairs : list (Z * Z)) : bool :=
  bool_decide (pid ∈ pairs.*2).

(** [[child for parent, child in pairs if parent == pid]]; [pid] may be
    Python's [None], which equals no parent. *)
Definition children (pid : option Z) (pairs : list (Z * Z)) : list Z :=
  (filter (λ pc : Z * Z, Some pc.1 = pid) pairs).*2.

(** [pid in [int(x) for x in sessions.values()]] *)
Definition hosts (pid : option Z) (sessions : gmap string Z) : bool :=
  bool_decide (pid ∈ Some <$> (map_to_list sessions).*2).

(** The exception that leaves [terminate_attempt], which catches
    [ProcessLookupError] and nothing else: none when [os.kill] returned or
    found no process, otherwise the one [os.kill] raised. *)
Definition escapes (o : outcome unit) : option exn :=
  match o with
  | Ret _ => None
  | Raise e => if bool_decide (e = ProcessLookupError) then None else Some e
  end.

Section Program.

Context {os : OS}.

(** ** The monad *)

Record run (A : Type) := Run {
  value : outcome A;
  final : world os;
  trace : list event
}.
Arguments Run {A} value final trace.
Arguments value {A} r.
Arguments final {A} r.
Arguments trace {A} r.

(** [None]: the fuel ran out before the computation ended. *)
Definition M (A : Type) : Type := world os -> option (run A).

Definition ret {A} (a : A) : M A := fun w => Some (Run (Ret a) w []).

Definition raise {A} (e : exn) : M A := fun w => Some (Run (Raise e) w []).

Definition bind {A B} (m : M A) (k : A -> M B) : M B := fun w =>
  match m w with
  | None => None
  | Some (Run (Raise e) w1 t1) => Some (Run (Raise e) w1 t1)
  | Some (Run (Ret a) w1 t1) =>
      match k a w1 with
      | None => None
      | Some (Run v w2 t2) => Some (Run v w2 (t1 ++ t2))
      end
  end.

(** [try: body  except e: handler] *)
Definition try_except {A} (body : M A) (e : exn) (handler : M A) : M A := fun w =>
  match body w with
  | None => None
  | Some (Run (Ret a) w1 t1) => Some (Run (Ret a) w1 t1)
  | Some (Run (Raise e') w1 t1) =>
      if bool_decide (e' = e) then
        match handler w1 with
        | None => None
        | Some (Run v w2 t2) => Some (Run v w2 (t1 ++ t2))
        end
      else Some (Run (Raise e') w1 t1)
  end.

Definition out_of_fuel {A} : M A := fun _ => None.

Notation "'do' x <- c1 ; c2" := (bind c1 (fun x => c2))
  (at level 10, x name, c1 at level 100, c2 at level 200).

(** [for x in xs: body], where the body may leave the enclosing function:
    [Some v] is [return v], [None] falls through to the next round. *)
Fixpoint for_in {A R} (xs : list A) (body : A -> M (option R)) : M (option R) :=
  match xs with
  | [] => ret None
  | x :: xs' =>
      do r <- body x;
      match r with
      | Some v => ret (Some v)
      | None => for_in xs' body
      end
  end.

(** [xs[0]] *)
Definition item0 {A} (xs : list A) : M A :=
  match xs with
  | [] => raise IndexError
  | x :: _ => ret x
  end.

(** [d[k]] *)
Definition getitem {V} (d : gmap string V) (k : string) : M V :=
  match d !! k with
  | Some v => ret v
  | None => raise KeyError
  end.

(** ** System calls *)

(** [subprocess.getoutput('ps -eo "%P %p"')], read through the pattern. *)
Definition getoutput_ps : M (list (Z * Z)) := fun w =>
  let (pairs, w') := ps_eo os w in Some (Run (Ret pairs) w' [EvPs pairs]).

(** [subprocess.getoutput('screen -ls')], read through the pattern. *)
Definition getoutput_screen_ls : M (gmap string Z) := fun w =>
  let (sessions, w') := screen_ls os w in
  Some (Run (Ret sessions) w' [EvScreenLs sessions]).

(** [os.kill(pid, sig)] *)
Definition kill (pid : Z) (sig : Signals) : M unit := fun w =>
  let (result, w') := os_kill os pid sig w in
  Some (Run result w' [EvKill pid sig]).

(** [time.sleep(secs)] *)
Definition sleep (secs : float) : M unit := fun w =>
  let (result, w') := time_sleep os secs w in
  Some (Run result w' [EvSleep secs]).

Definition system (cmd : string) : M Z := fun w =>
  let (status, w') := os_system os cmd w in
  Some (Run (Ret status) w' [EvSystem cmd]).

Definition print_kill (label : string) (pid : Z) : M unit := fun w =>
  Some (Run (Ret tt) w [EvPrint label pid]).

(** ** The script *)

(** The entries of [MODULES]; [cleanup] is the optional key. *)
Record descriptor := mkDescriptor {
  virtual_env : option string;
  command : string;
  cleanup : option (Z -> M (list Z))
}.

Definition get_screen_sessions : M (gmap string Z) := getoutput_screen_ls.

Definition check_screen_pid (pid : option Z) : M bool :=
  do sessions <- get_screen_sessions;
  ret (hosts pid sessions).

Definition terminate_attempt (pid : Z) (killsignal : Signal) : M unit :=
  do _ <- print_kill (name killsignal) pid;
  try_except (kill pid (signal killsignal)) ProcessLookupError (ret tt).

Definition get_running_gid_pid : M (list (Z * Z)) := getoutput_ps.

Definition check_running_pid (pid : Z) : M bool :=
  do pairs <- get_running_gid_pid;
  ret (listed pid pairs).

(** The defaults of [wait_killed(pid, maxwait=3., step=0.1)]. *)
Definition maxwait_default : float := 3%float.
Definition step_default : float := 0.1%float.

(** [while remain > 0.: ...], one unit of fuel for each test of the guard. *)
Fixpoint wait_killed_loop (fuel : nat) (pid : Z) (remain step : float) : M bool :=
  match fuel with
  | O => out_of_fuel
  | S fuel' =>
      if PrimFloat.ltb 0 remain then
        do running <- check_running_pid pid;
        if negb running then ret true
        else
          let remain' := PrimFloat.sub remain step in
          do _ <- sleep step;
          wait_killed_loop fuel' pid remain' step
      else ret false
  end.

Definition wait_killed (fuel : nat) (pid : Z) (maxwait step : float) : M bool :=
  wait_killed_loop fuel pid maxwait step.

Definition get_child_pid (pid : option Z) : M (list Z) :=
  do pairs <- get_running_gid_pid;
  ret (children pid pairs).

Definition terminate_loop (fuel : nat) (pid : Z) : M bool :=
  do r <- for_in (seq 0 3) (fun ntry =>
            do _ <- terminate_attempt pid SIGTERM;
            do gone <- wait_killed fuel pid 2%float step_default;
            if gone then ret (Some true) else ret None);
  match r with
  | Some v => ret v
  | None =>
      (* kill harder *)
      do _ <- terminate_attempt pid SIGKILL;
      do gone <- wait_killed fuel pid 0.5%float step_default;
      if gone then ret true else ret false
  end.

Definition get_pid (module_name : string) : M (option Z) :=
  do screen_sessions <- get_screen_sessions;
  match screen_sessions !! module_name with
  | Some pid => ret (Some pid)
  | None => ret None
  end.

(** ['screen -S {module_name} -X quit'.format(module_name=module_name)] *)
Definition quit_command (module_name : string) : string :=
  "screen -S " +:+ module_name +:+ " -X quit".

Definition terminate (modules : gmap string descriptor) (fuel : nat)
    (module_name : string) : M bool :=
  do pid <- get_pid module_name;
  do found <- try_except
                (do c <- get_child_pid pid;
                 do bash_pid <- item0 c;
                 do c' <- get_child_pid (Some bash_pid);
                 do main_pid <- item0 c';
                 ret (Some (bash_pid, main_pid)))
                IndexError
                (ret None);
  match found with
  | None => ret false
  | Some (bash_pid, main_pid) =>
      do module <- getitem modules module_name;
      do cleanup_pids <- default (fun _ => ret []) (cleanup module) main_pid;
      (* kill main *)
      do killed <- terminate_loop fuel main_pid;
      if negb killed then ret false else
      (* cleanup *)
      do r <- for_in cleanup_pids (fun cleanup_pid =>
                do killed <- terminate_loop fuel cleanup_pid;
                if negb killed then ret (Some false) else ret None);
      match r with
      | Some v => ret v
      | None =>
          (* kill bash *)
          do killed <- terminate_loop fuel bash_pid;
          if negb killed then ret false else
          (* terminate screen session *)
          do _ <- system (quit_command module_name);
          do active <- check_screen_pid pid;
          ret (negb active)
      end
  end.

(** The table of the script.  Only [airflow_webserver] has a clean-up hook:
    [lambda x: get_child_pid(x)[:1]]. *)
Definition MODULES : gmap string descriptor :=
  list_to_map [
    ("airflow_scheduler",
      {| virtual_env := Some "ds"; command := "airflow scheduler"; cleanup := None |});
    ("airflow_webserver",
      {| virtual_env := Some "ds"; command := "airflow webserver";
         cleanup := Some (fun x => do c <- get_child_pid (Some x); ret (take 1 c)) |});
    ("jupyter",
      {| virtual_env := Some "ds"; command := "jupyter notebook"; cleanup := None |});
    ("mongo",
      {| virtual_env := None; command := "mongo_start.sh"; cleanup := None |});
    ("webservices",
      {| virtual_env := Some "ds";
         command := "uwsgi -C666 -s /tmp/uwsgi.sock -w lof_webserver:app";
         cleanup := None |})
  ].

End Program.

Arguments run os A : clear implicits.
Arguments M os A : clear implicits.
Arguments descriptor os : clear implicits.
Arguments Run {os A} value final trace.
Arguments value {os A} r.
Arguments final {os A} r.
Arguments trace {os A} r.

Notation "'do' x <- c1 ; c2" := (bind c1 (fun x => c2))
  (at level 10, x name, c1 at level 100, c2 at level 200).

Arguments wait_killed : simpl never.
Arguments terminate_loop : simpl never.

(** * What the script is meant to do

    The relations below say, in terms of the machine alone, what a wait, a
    termination ladder and a sequence of ladders are.  The theorems relate
    them to the functions of the script. *)

Section Specification.

Context {os : OS}.

(** The run [r], with the events [tr] put before its own. *)
Definition after {A} (tr : list event) (r : option (run os A)) : option (run os A) :=
  match r with
  | None => None
  | Some (Run v w t) => Some (Run v w (tr ++ t))
  end.

(** How often the guard [remain > 0.] of [wait_killed] holds when the
    process never goes away; [None] when [fuel] tests do not exhaust the
    budget. *)
Fixpoint rounds (fuel : nat) (remain step : float) : option nat :=
  match fuel with
  | O => None
  | S fuel' =>
      if PrimFloat.ltb 0 remain
      then S <$> rounds fuel' (PrimFloat.sub remain step) step
      else Some O
  end.

(** The trace sleeps at most [n] times, [step] seconds each time. *)
Definition within (n : nat) (step : float) (tr : list event) : Prop :=
  (length (sleeps tr) ≤ n)%nat ∧ Forall (λ d, d = step) (sleeps tr).

(** Waiting for [pid] on a budget of [remain] seconds, from one state of the
    machine to another: with the budget spent, the answer is no and nothing is
    looked at; otherwise a fresh snapshot is read, and the wait ends with yes
    if [pid] is no process of it; if it is one, [time.sleep(step)] is called,
    and the wait goes on, on a budget smaller by [step], when that returns,
    and ends with the exception when that raises one. *)
Inductive waits (pid : Z) (step : float) :
    float → world os → outcome bool → world os → list event → Prop :=
| waits_spent remain w :
    PrimFloat.ltb 0 remain = false →
    waits pid step remain w (Ret false) w []
| waits_gone remain w :
    PrimFloat.ltb 0 remain = true →
    pid ∉ (ps_eo os w).1.*2 →
    waits pid step remain w (Ret true) (ps_eo os w).2 [EvPs (ps_eo os w).1]
| waits_again remain w v w' tr :
    PrimFloat.ltb 0 remain = true →
    pid ∈ (ps_eo os w).1.*2 →
    (time_sleep os step (ps_eo os w).2).1 = Ret tt →
    waits pid step (PrimFloat.sub remain step)
          (time_sleep os step (ps_eo os w).2).2 v w' tr →
    waits pid step remain w v w' (EvPs (ps_eo os w).1 :: EvSleep step :: tr)
| waits_raises remain w e :
    PrimFloat.ltb 0 remain = true →
    pid ∈ (ps_eo os w).1.*2 →
    (time_sleep os step (ps_eo os w).2).1 = Raise e →
    waits pid step remain w (Raise e) (time_sleep os step (ps_eo os w).2).2
          [EvPs (ps_eo os w).1; EvSleep step].

(** The termination ladder with [n] graceful rounds to go.  A round sends
    SIGTERM and waits on a budget of 2.0 seconds, which are at most 20 sleeps
    of 0.1 seconds; the ladder ends with yes at the first round whose wait
    says yes; after the last round it sends SIGKILL once, waits on a budget
    of 0.5 seconds, which are at most 6 sleeps of 0.1 seconds, and ends with
    the answer of that wait.  An exception that [os.kill] raises, other than
    [ProcessLookupError], or that a wait ends with, ends the ladder. *)
Inductive ladder (pid : Z) :
    nat → world os → outcome bool → world os → list event → Prop :=
| ladder_forceful w v w' tr :
    escapes (os_kill os pid Signals_SIGKILL w).1 = None →
    waits pid 0.1 0.5 (os_kill os pid Signals_SIGKILL w).2 v w' tr →
    within 6 0.1 tr →
    ladder pid 0 w v w' (EvPrint "-KILL" pid :: EvKill pid Signals_SIGKILL :: tr)
| ladder_forceful_raises w e :
    escapes (os_kill os pid Signals_SIGKILL w).1 = Some e →
    ladder pid 0 w (Raise e) (os_kill os pid Signals_SIGKILL w).2
           [EvPrint "-KILL" pid; EvKill pid Signals_SIGKILL]
| ladder_graceful_ends n w v w' tr :
    escapes (os_kill os pid Signals_SIGTERM w).1 = None →
    waits pid 0.1 2 (os_kill os pid Signals_SIGTERM w).2 v w' tr →
    within 20 0.1 tr →
    v ≠ Ret false →
    ladder pid (S n) w v w' (EvPrint "-TERM" pid :: EvKill pid Signals_SIGTERM :: tr)
| ladder_graceful_again n w w1 tr v w' tr' :
    escapes (os_kill os pid Signals_SIGTERM w).1 = None →
    waits pid 0.1 2 (os_kill os pid Signals_SIGTERM w).2 (Ret false) w1 tr →
    within 20 0.1 tr →
    ladder pid n w1 v w' tr' →
    ladder pid (S n) w v w'
           (EvPrint "-TERM" pid :: EvKill pid Signals_SIGTERM :: tr ++ tr')
| ladder_graceful_raises n w e :
    escapes (os_kill os pid Signals_SIGTERM w).1 = Some e →
    ladder pid (S n) w (Raise e) (os_kill os pid Signals_SIGTERM w).2
           [EvPrint "-TERM" pid; EvKill pid Signals_SIGTERM].

(** Ladders of the script, one process after the other in the order of the
    list: the next one starts in the state the last one ended in, and only
    if that one returned true; one that raises ends the sequence. *)
Inductive sequence (fuel : nat) :
    list Z → world os → outcome bool → world os → list event → Prop :=
| sequence_done w : sequence fuel [] w (Ret true) w []
| sequence_stop p ps w w' tr :
    terminate_loop fuel p w = Some (Run (Ret false) w' tr) →
    sequence fuel (p :: ps) w (Ret false) w' tr
| sequence_raises p ps w e w' tr :
    terminate_loop fuel p w = Some (Run (Raise e) w' tr) →
    sequence fuel (p :: ps) w (Raise e) w' tr
| sequence_next p ps w w1 tr v w' tr' :
    terminate_loop fuel p w = Some (Run (Ret true) w1 tr) →
    sequence fuel ps w1 v w' tr' →
    sequence fuel (p :: ps) w v w' (tr ++ tr').

(** The last thing the trace did was to read a snapshot in which [pid] is
    no process. *)
Definition confirmed_gone (pid : Z) (tr : list event) : Prop :=
  match last tr with
  | Some (EvPs t) => pid ∉ t.*2
  | _ => False
  end.

(** What a trace did after its last SIGKILL (all of it when it sent none):
    for a ladder, the forceful wait. *)
Definition forceful_part (tr : list event) : list event :=
  fold_left (λ acc e, match e with
                      | EvKill _ Signals_SIGKILL => []
                      | _ => acc ++ [e]
                      end) tr [].

(** [e] comes from the library: [os.kill] raised it, and it is not the
    [ProcessLookupError] that [terminate_attempt] catches, or a
    [time.sleep] of the polling interval raised it. *)
Definition library_raises (e : exn) : Prop :=
  (∃ p s w, escapes (os_kill os p s w).1 = Some e) ∨
  (∃ w, (time_sleep os step_default w).1 = Raise e).

(** The run ended with a value, or with an exception of the library. *)
Definition passes_on {A} (v : outcome A) : Prop :=
  match v with
  | Ret _ => True
  | Raise e => library_raises e
  end.

(** [targets] visits the processes of the list from left to right: it may
    stay on one, and it never goes back. *)
Inductive in_order : list Z → list Z → Prop :=
| in_order_nil ps : in_order [] ps
| in_order_stay p ps ts : in_order ts (p :: ps) → in_order (p :: ts) (p :: ps)
| in_order_move p ps ts : in_order ts ps → in_order ts (p :: ps).

(** A property of the machine that the means of a ladder on one of the
    processes [targets] do not undo: listing processes and sessions, a sleep
    of the polling interval, and SIGTERM or SIGKILL to such a process. *)
Definition frame (targets : Z → Prop) (P : world os → Prop) : Prop :=
  ∀ w, P w →
    P (ps_eo os w).2 ∧ P (screen_ls os w).2 ∧ P (time_sleep os step_default w).2 ∧
    ∀ p s, targets p → s ≠ Signals_SIGINT → P (os_kill os p s w).2.

(** A computation that acts on the machine by listing processes and
    sessions only. *)
Definition looks_only {A} (m : M os A) : Prop :=
  ∀ P : world os → Prop,
    (∀ w, P w → P (ps_eo os w).2 ∧ P (screen_ls os w).2) →
    ∀ w r, m w = Some r → P w → P (final r).

(** The session [module_name] is in the listing. *)
Definition has_session (module_name : string) (w : world os) : Prop :=
  is_Some ((screen_ls os w).1 !! module_name).

(** The clean-up hook [terminate] calls:
    [MODULES[module_name].get('cleanup', lambda x: [])]. *)
Definition hook_of (module : descriptor os) : Z → M os (list Z) :=
  default (fun _ => ret []) (cleanup module).

(** The search at the start of [terminate] finds the session under [pid],
    the shell [bash_pid] as first child of [pid] and the service [main_pid]
    as first child of the shell. *)
Definition resolves (module_name : string) (w : world os)
    (pid bash_pid main_pid : Z) : Prop :=
  let w1 := (screen_ls os w).2 in
  let w2 := (ps_eo os w1).2 in
  (screen_ls os w).1 !! module_name = Some pid ∧
  head (children (Some pid) (ps_eo os w1).1) = Some bash_pid ∧
  head (children (Some bash_pid) (ps_eo os w2).1) = Some main_pid.

(** The state the search leaves the machine in, and what it did: one
    session listing and two process listings. *)
Definition searched (w : world os) : world os :=
  (ps_eo os (ps_eo os (screen_ls os w).2).2).2.

Definition search_trace (w : world os) : list event :=
  let w1 := (screen_ls os w).2 in
  let w2 := (ps_eo os w1).2 in
  [EvScreenLs (screen_ls os w).1; EvPs (ps_eo os w1).1; EvPs (ps_eo os w2).1].

End Specification.

(** * The launcher

    [main] and [fail], the part of the script around [terminate]: it asks the
    user before it replaces a session and starts the new one.  Besides the
    machine it talks to the terminal: what it prints, what it writes to the
    error stream, and what the user answers. *)

Section Launcher.

Context {os : OS}.

(** The characters that a string literal cannot hold: the double quote, the
    backslash and the line feed. *)
Definition dquote : string := String "034"%char "".
Definition backslash : string := String "092"%char "".
Definition newline : string := String "010"%char "".

(** [input(prompt)]: the line the user types, or the exception it raises
    ([EOFError] at the end of the input); the machine moves on in the
    meantime. *)
Record TTY := mkTTY {
  tty_input : string → world os → outcome string * world os
}.

(** What [main] does: the events of the functions it calls, and its own
    output and input.  [IoInput] is a call of [input] that returned,
    [IoInputRaises] one that raised.  [IoUsage] is the line of [fail()],
    which prints the keys of the table. *)
Inductive io :=
| IoOs (e : event)
| IoStdout (text : string)
| IoStderr (text : string)
| IoInput (prompt answer : string)
| IoInputRaises (prompt : string) (e : exn)
| IoUsage (keys : gset string).

Record main_run := MainRun {
  main_value : outcome unit;
  main_final : world os;
  main_trace : list io
}.

(** [str.lower()] on the letters A to Z; every other byte stays (no
    character outside ASCII lowers to a letter of [y], [e] or [s]). *)
Definition lower_char (c : ascii) : ascii :=
  let n := nat_of_ascii c in
  if (65 <=? n)%nat && (n <=? 90)%nat then ascii_of_nat (n + 32) else c.

Fixpoint lower (s : string) : string :=
  match s with
  | EmptyString => EmptyString
  | String c s' => String (lower_char c) (lower s')
  end.

(** [input('terminate? (Y/n): ').lower() in ('', 'y', 'yes')] *)
Definition confirms (answer : string) : bool :=
  bool_decide (lower answer ∈ [""; "y"; "yes"]).

(** The command line [main] builds in [call]. *)
Definition launch_command (module_name : string) (module : descriptor os) : string :=
  let call := "screen -S " +:+ module_name +:+ " -dm bash --norc -c " +:+ dquote in
  let call :=
    match virtual_env module with
    | Some env => call +:+ "source activate " +:+ env +:+ ";"
    | None => call
    end in
  let call := call +:+ command module +:+ ";" in
  call +:+ "read -p " +:+ backslash +:+ dquote +:+ "Press any key to continue... " +:+
           backslash +:+ dquote +:+ " -n1 -s" +:+ dquote.

(** [print(call); os.system(call)], after the events [pre]. *)
Definition launch (module_name : string) (module : descriptor os)
    (pre : list io) (w : world os) : option main_run :=
  let call := launch_command module_name module in
  match system call w with
  | None => None
  | Some (Run (Raise e) w' t) =>
      Some (MainRun (Raise e) w' (pre ++ [IoStdout call] ++ (IoOs <$> t)))
  | Some (Run (Ret _) w' t) =>
      Some (MainRun (Ret tt) w' (pre ++ [IoStdout call] ++ (IoOs <$> t)))
  end.

(** [fail()] *)
Definition fail (modules : gmap string (descriptor os)) (w : world os) : option main_run :=
  Some (MainRun (Ret tt) w [IoUsage (dom modules)]).

(** The prompt of [main], and the lines it writes to the error stream. *)
Definition prompt : string := "terminate? (Y/n): ".

Definition active_notice (module_name : string) : string :=
  "screen session " +:+ dquote +:+ module_name +:+ dquote +:+ " is already active." +:+
  newline.

Definition failed_notice : string := "terminating failed!" +:+ newline.

Definition main (tty : TTY) (modules : gmap string (descriptor os)) (fuel : nat)
    (module_name : string) (w : world os) : option main_run :=
  match modules !! module_name with
  | None => fail modules w
  | Some module =>
      match get_pid module_name w with
      | None => None
      | Some (Run (Raise e) w1 t1) => Some (MainRun (Raise e) w1 (IoOs <$> t1))
      | Some (Run (Ret None) w1 t1) => launch module_name module (IoOs <$> t1) w1
      | Some (Run (Ret (Some pid)) w1 t1) =>
          let notice := (IoOs <$> t1) ++ [IoStderr (active_notice module_name)] in
          match tty_input tty prompt w1 with
          | (Raise e, w2) => Some (MainRun (Raise e) w2 (notice ++ [IoInputRaises prompt e]))
          | (Ret answer, w2) =>
              let pre := notice ++ [IoInput prompt answer] in
              if confirms answer then
                match terminate modules fuel module_name w2 with
                | None => None
                | Some (Run (Raise e) w3 t3) =>
                    Some (MainRun (Raise e) w3 (pre ++ (IoOs <$> t3)))
                | Some (Run (Ret killed) w3 t3) =>
                    if negb killed then
                      Some (MainRun (Ret tt) w3
                              (pre ++ (IoOs <$> t3) ++ [IoStderr failed_notice]))
                    else launch module_name module (pre ++ (IoOs <$> t3)) w3
                end
              else Some (MainRun (Ret tt) w2 pre)
          end
      end
  end.

(** The machine events of a launcher trace, and the shell commands among
    them. *)
Definition os_events (tr : list io) : list event :=
  omap (λ e, match e with IoOs e => Some e | _ => None end) tr.

End Launcher.

Arguments TTY os : clear implicits.
Arguments main_run os : clear implicits.

(** * Reading the listings

    [get_running_gid_pid] and [get_screen_sessions] read the text of
    [ps -eo "%P %p"] and of [screen -ls] with the patterns
    [\s*(\d+)\s+(\d+)] and [\s+(\d+)\.(\w+)\s+].  The text is a list of
    characters with code points below 256, one [ascii] each; a pattern is a
    sequence of character classes, each taken once, or as often as possible
    ([*], [+]) and then less often when the rest of the pattern does not match
    (backtracking), as [re] does. *)
Module Parse.

Inductive quantifier := One | Star | Plus.

Record item := mkItem {
  class : ascii → bool;
  quant : quantifier;
  captured : bool
}.

Definition code (c : ascii) : nat := nat_of_ascii c.

(** [\d], [\s] and [\w] as [re] reads them in a pattern that is a [str],
    on the code points below 256.  Digits: 0 to 9.  White space: tab, line
    feed, vertical tab, form feed, carriage return, the four separators 28
    to 31, the blank, the next-line character 133 and the no-break space
    160.  Word characters: the digits, the underscore, and what
    [str.isalnum] accepts, which are the letters A to Z and a to z, and above
    127 the letters and numerals of Latin-1. *)
Definition is_digit (c : ascii) : bool := (48 <=? code c)%nat && (code c <=? 57)%nat.

Definition is_space (c : ascii) : bool :=
  ((9 <=? code c)%nat && (code c <=? 13)%nat) || ((28 <=? code c)%nat && (code c <=? 32)%nat) ||
  (code c =? 133)%nat || (code c =? 160)%nat.

Definition is_latin1_alnum (c : ascii) : bool :=
  (code c =? 170)%nat || (code c =? 178)%nat || (code c =? 179)%nat || (code c =? 181)%nat ||
  (code c =? 185)%nat || (code c =? 186)%nat ||
  ((188 <=? code c)%nat && (code c <=? 190)%nat) ||
  ((192 <=? code c)%nat && (code c <=? 214)%nat) ||
  ((216 <=? code c)%nat && (code c <=? 246)%nat) ||
  (248 <=? code c)%nat.

Definition is_word (c : ascii) : bool :=
  is_digit c || ((65 <=? code c)%nat && (code c <=? 90)%nat) ||
  ((97 <=? code c)%nat && (code c <=? 122)%nat) || (code c =? 95)%nat ||
  is_latin1_alnum c.

Definition is_dot (c : ascii) : bool := (code c =? 46)%nat.

(** As many characters of the class as possible, then fewer: [k] gets the
    characters taken and the rest of the text. *)
Fixpoint star {R} (cls : ascii → bool) (k : list ascii → list ascii → option R)
    (acc s : list ascii) : option R :=
  match s with
  | c :: s' =>
      if cls c then
        match star cls k (acc ++ [c]) s' with
        | Some r => Some r
        | None => k acc s
        end
      else k acc s
  | [] => k acc s
  end.

(** A match of the items at the start of [s]: the groups captured and the
    text after the match. *)
Fixpoint match_items (items : list item) (groups : list (list ascii)) (s : list ascii) :
    option (list (list ascii) * list ascii) :=
  match items with
  | [] => Some (groups, s)
  | it :: items' =>
      let k acc s' :=
        match_items items' (if captured it then groups ++ [acc] else groups) s' in
      match quant it with
      | One =>
          match s with
          | c :: s' => if class it c then k [c] s' else None
          | [] => None
          end
      | Star => star (class it) k [] s
      | Plus =>
          match s with
          | c :: s' => if class it c then star (class it) k [c] s' else None
          | [] => None
          end
      end
  end.

(** [pattern.findall(text)]: the matches from left to right, each search
    starting where the last match ended, one character further after a
    failed attempt (or an empty match). *)
Fixpoint findall_from (fuel : nat) (pattern : list item) (s : list ascii) :
    list (list (list ascii)) :=
  match fuel with
  | O => []
  | S fuel' =>
      match match_items pattern [] s with
      | Some (groups, rest) =>
          groups ::
          (if (length rest <? length s)%nat then findall_from fuel' pattern rest
           else match s with
                | [] => []
                | _ :: s' => findall_from fuel' pattern s'
                end)
      | None =>
          match s with
          | [] => []
          | _ :: s' => findall_from fuel' pattern s'
          end
      end
  end.

Definition findall (pattern : list item) (text : list ascii) : list (list (list ascii)) :=
  findall_from (S (length text)) pattern text.

(** [subprocess.getoutput] hands the output of the command over without
    the line feed at its end, if there is one. *)
Fixpoint getoutput (data : list ascii) : list ascii :=
  match data with
  | [] => []
  | c :: data' =>
      match data' with
      | [] => if (code c =? 10)%nat then [] else [c]
      | _ :: _ => c :: getoutput data'
      end
  end.

(** [int(x)] for a text of digits. *)
Definition int (digits : list ascii) : Z :=
  fold_left (λ n c, 10 * n + (Z.of_nat (code c) - 48)) digits 0.

(** [re.compile('\s*(\d+)\s+(\d+)')] *)
Definition ps_pattern : list item :=
  [mkItem is_space Star false; mkItem is_digit Plus true;
   mkItem is_space Plus false; mkItem is_digit Plus true].

(** The pairs [get_running_gid_pid] yields for the output [processes]. *)
Definition running_gid_pid (processes : list ascii) : list (Z * Z) :=
  omap (λ groups, match groups with
                  | [parent; child] => Some (int parent, int child)
                  | _ => None
                  end)
       (findall ps_pattern processes).

(** [re.compile('\s+(\d+)\.(\w+)\s+')] *)
Definition screen_pattern : list item :=
  [mkItem is_space Plus false; mkItem is_digit Plus true; mkItem is_dot One false;
   mkItem is_word Plus true; mkItem is_space Plus false].

(** [pattern.findall(sessions)]: the (pid, name) texts. *)
Definition session_matches (sessions : list ascii) : list (string * string) :=
  omap (λ groups, match groups with
                  | [x; y] => Some (String.string_of_list_ascii x, String.string_of_list_ascii y)
                  | _ => None
                  end)
       (findall screen_pattern sessions).

(** [dict((y, x) for x, y in order)]: a later pair replaces an earlier one
    of the same name.  [order] is the order in which Python walks the set of
    matches, which the language leaves open. *)
Definition sessions_dict (order : list (string * string)) : gmap string string :=
  foldl (λ d xy, <[xy.2 := xy.1]> d) ∅ order.

(** One line of [ps -eo "%P %p"]: blanks, the parent, blanks, the child, and
    the line feed. *)
Definition ps_line (row : nat * list ascii * nat * list ascii) : list ascii :=
  let '(pad1, parent, pad2, child) := row in
  replicate pad1 " "%char ++ parent ++ replicate (S pad2) " "%char ++ child ++ ["010"%char].

Definition ps_row_ok (row : nat * list ascii * nat * list ascii) : Prop :=
  let '(pad1, parent, pad2, child) := row in
  parent ≠ [] ∧ child ≠ [] ∧
  Forall (λ c, is_digit c = true) parent ∧ Forall (λ c, is_digit c = true) child.

(** The decimal numeral of a number that is not negative, as [ps] and
    [screen] print process ids. *)
Fixpoint digits_of (fuel : nat) (n : Z) : list ascii :=
  match fuel with
  | O => []
  | S fuel' =>
      (if (n <? 10)%Z then [] else digits_of fuel' (n / 10)) ++
      [ascii_of_nat (Z.to_nat (48 + n mod 10))]
  end.

Definition decimal (n : Z) : list ascii := digits_of (S (Z.to_nat n)) n.

(** The text is at its end, or goes on with a character that is no digit
    (no white space). *)
Definition stops_digits (s : list ascii) : Prop :=
  match s with [] => True | c :: _ => is_digit c = false end.

Definition stops_spaces (s : list ascii) : Prop :=
  match s with [] => True | c :: _ => is_space c = false end.

(** No digit of the text stands directly before a dot. *)
Fixpoint plain (t : list ascii) : bool :=
  match t with
  | c :: t' =>
      match t' with
      | d :: _ => negb (is_digit c && is_dot d) && plain t'
      | [] => true
      end
  | [] => true
  end.

(** One line of [screen -ls]: a tab, the pid, a dot, the name, a tab, the
    state in parentheses, and the line feed. *)
Definition session_line (row : Z * list ascii * list ascii) : list ascii :=
  let '(pid, name, state) := row in
  ["009"%char] ++ decimal pid ++ ["."%char] ++ name ++ ["009"%char; "("%char] ++
  state ++ [")"%char; "010"%char].

Definition session_row_ok (row : Z * list ascii * list ascii) : Prop :=
  let '(pid, name, state) := row in
  (0 ≤ pid)%Z ∧ Forall (λ c, is_space c = false) name ∧ plain state = true.

(** A name that [\w+] takes as a whole: word characters, at least one. *)
Definition is_name (name : list ascii) : bool :=
  match name with [] => false | _ => forallb is_word name end.

(** The dictionary with its values read as numbers, as [get_pid] and
    [check_screen_pid] read them: [int(x)]. *)
Definition screen_sessions (order : list (string * string)) : gmap string Z :=
  (λ x, int (String.list_ascii_of_string x)) <$> sessions_dict order.

End Parse.

(** ** A machine to run the script on

    A small, configurable operating system, used for the concrete runs below.
    Its state is a process table, a session dictionary and a clock.  The
    configuration says which signals end which process, which processes end
    by themselves and when, which processes the caller may not signal, and
    what a shell command does to the sessions. *)
Module Sim.

Record machine := mkMachine {
  procs : list (Z * Z);
  sessions : gmap string Z;
  clock : float
}.

Record behaviour := mkBehaviour {
  obeys : Z -> Signals -> bool;
  refuses : Z -> option exn;
  exits_at : Z -> option float;
  on_command : string -> gmap string Z -> gmap string Z
}.

Definition alive (b : behaviour) (m : machine) (pc : Z * Z) : bool :=
  match exits_at b pc.2 with
  | Some t => PrimFloat.ltb (clock m) t
  | None => true
  end.

Definition table (b : behaviour) (m : machine) : list (Z * Z) :=
  List.filter (alive b m) (procs m).

(** A signal to a process that obeys it ends the process, and with it the
    session that runs under its pid. *)
Definition deliver (b : behaviour) (pid : Z) (sig : Signals) (m : machine) :
    outcome unit * machine :=
  match refuses b pid with
  | Some e => (Raise e, m)
  | None =>
      if bool_decide (pid ∈ (table b m).*2) then
        (Ret tt,
         if obeys b pid sig
         then {| procs := List.filter (fun pc => negb (bool_decide (pc.2 = pid))) (procs m);
                 sessions := filter (λ kv : string * Z, kv.2 ≠ pid) (sessions m);
                 clock := clock m |}
         else m)
      else (Raise ProcessLookupError, m)
  end.

(** The clock moves on by the time slept; a negative number and NaN are
    refused. *)
Definition pass (d : float) (m : machine) : outcome unit * machine :=
  if PrimFloat.is_nan d || PrimFloat.ltb d 0 then (Raise ValueError, m)
  else (Ret tt,
        {| procs := procs m; sessions := sessions m; clock := PrimFloat.add (clock m) d |}).

Definition os (b : behaviour) : OS := {|
  world := machine;
  ps_eo m := (table b m, m);
  screen_ls m := (sessions m, m);
  os_kill := deliver b;
  time_sleep := pass;
  os_system cmd m :=
    (0, {| procs := procs m; sessions := on_command b cmd (sessions m); clock := clock m |})
|}.

(** [screen -S name -X quit] ends the session of that name. *)
Definition screen_quit (cmd : string) (s : gmap string Z) : gmap string Z :=
  filter (λ kv : string * Z, quit_command kv.1 ≠ cmd) s.

(** Every process dies of the first signal it gets. *)
Definition mortal : behaviour :=
  {| obeys _ _ := true; refuses _ := None; exits_at _ := None; on_command := screen_quit |}.

(** No process dies of any signal. *)
Definition immortal : behaviour :=
  {| obeys _ _ := false; refuses _ := None; exits_at _ := None; on_command := screen_quit |}.

(** Process 3 survives every signal; every other process dies of the first
    signal it gets. *)
Definition stubborn : behaviour :=
  {| obeys p _ := negb (bool_decide (p = 3)); refuses _ := None; exits_at _ := None;
     on_command := screen_quit |}.

(** The caller may not signal process 3. *)
Definition guarded : behaviour :=
  {| obeys _ _ := true;
     refuses p := if bool_decide (p = 3) then Some PermissionError else None;
     exits_at _ := None; on_command := screen_quit |}.

(** What one reads off a finished run: its result, the signals it sent and
    the shell commands it ran. *)
Definition summary {o : OS} {A} (r : option (run o A)) :
    option (outcome A * list (Z * Signals) * list string) :=
  (λ r, (value r, kills (trace r), commands (trace r))) <$> r.

(** The fabricated process table and a session on top of it. *)
Definition fabricated (session : string) : machine :=
  {| procs := [(1, 2); (2, 3); (3, 4)]; sessions := {[ session := 1 ]}; clock := 0 |}.

(** A module table that knows a module [svc], without clean-up hook. *)
Definition svc_only (b : behaviour) : gmap string (descriptor (os b)) :=
  {[ "svc" := {| virtual_env := None; command := "svc"; cleanup := None |} ]}.

(** Process 7 ends by itself 0.35 seconds after the start. *)
Definition dying : behaviour :=
  {| obeys _ _ := false; refuses _ := None;
     exits_at p := if bool_decide (p = 7) then Some 0.35%float else None;
     on_command := screen_quit |}.

Definition lone : machine :=
  {| procs := [(1, 7)]; sessions := ∅; clock := 0 |}.

(** After the quit command the listing shows a session of the same name
    under another pid (a second session of that name, say). *)
Definition twin : behaviour :=
  {| obeys _ _ := true; refuses _ := None; exits_at _ := None;
     on_command _ _ := {[ "jupyter" := 7 ]} |}.

End Sim.

(** A user who always gives the same answer, and one whose input has
    ended. *)
Module Console.

Definition answers (b : Sim.behaviour) (answer : string) : TTY (Sim.os b) :=
  {| tty_input _ m := (Ret answer, m) |}.

Definition hangs_up (b : Sim.behaviour) : TTY (Sim.os b) :=
  {| tty_input _ m := (Raise EOFError, m) |}.

End Console.

(** * Facts *)

Section Facts.

Context {os : OS}.

Implicit Types (w : world os) (tr : list event) (pid : Z) (b : bool).

(** ** Running a computation after a trace *)

Lemma after_nil {A} (r : option (run os A)) : after [] r = r.
Proof. destruct r as [[v w t]|]; reflexivity. Qed.

Lemma after_after {A} tr1 tr2 (r : option (run os A)) :
  after tr1 (after tr2 r) = after (tr1 ++ tr2) r.
Proof. destruct r as [[v w t]|]; simpl; [|reflexivity]. by rewrite app_assoc. Qed.

Lemma after_Some {A} tr (r : option (run os A)) (r' : run os A) :
  after tr r = Some r' →
  ∃ r0, r = Some r0 ∧ r' = Run (value r0) (final r0) (tr ++ trace r0).
Proof.
  destruct r as [[v w t]|]; simpl; intros H; [|discriminate].
  injection H as <-. eexists; split; reflexivity.
Qed.

(** A run is known by its result, its final state and its trace. *)
Lemma run_eq {A} (r : option (run os A)) (v : outcome A) (w : world os) (tr : list event) :
  value <$> r = Some v → final <$> r = Some w → trace <$> r = Some tr →
  r = Some (Run v w tr).
Proof.
  destruct r as [[v0 w0 t0]|]; simpl; [|discriminate].
  intros Hv Hw Ht. by injection Hv as ->; injection Hw as ->; injection Ht as ->.
Qed.

Lemma bind_ret_l {A B} (a : A) (k : A → M os B) w : bind (ret a) k w = k a w.
Proof. unfold bind, ret. destruct (k a w) as [[v w2 t2]|]; reflexivity. Qed.

Lemma bind_run {A B} (m : M os A) (k : A → M os B) w a w1 t1 :
  m w = Some (Run (Ret a) w1 t1) → bind m k w = after t1 (k a w1).
Proof. intros H. unfold bind. rewrite H. reflexivity. Qed.

Lemma bind_raise {A B} (m : M os A) (k : A → M os B) w e w1 t1 :
  m w = Some (Run (Raise e) w1 t1) → bind m k w = Some (Run (Raise e) w1 t1).
Proof. intros H. unfold bind. rewrite H. reflexivity. Qed.

Lemma bind_assoc {A B C} (m : M os A) (f : A → M os B) (g : B → M os C) w :
  bind (bind m f) g w = bind m (fun x => bind (f x) g) w.
Proof.
  unfold bind. destruct (m w) as [[[a|e] w1 t1]|]; try reflexivity.
  destruct (f a w1) as [[[b|e] w2 t2]|]; try reflexivity.
  destruct (g b w2) as [[v w3 t3]|]; try reflexivity.
  by rewrite app_assoc.
Qed.

(** ** The building blocks, run *)

Lemma check_running_pid_run pid w :
  check_running_pid pid w =
  Some (Run (Ret (listed pid (ps_eo os w).1)) (ps_eo os w).2 [EvPs (ps_eo os w).1]).
Proof.
  unfold check_running_pid, get_running_gid_pid, getoutput_ps, bind, ret.
  destruct (ps_eo os w); reflexivity.
Qed.

Lemma get_child_pid_run (p : option Z) w :
  get_child_pid p w =
  Some (Run (Ret (children p (ps_eo os w).1)) (ps_eo os w).2 [EvPs (ps_eo os w).1]).
Proof.
  unfold get_child_pid, get_running_gid_pid, getoutput_ps, bind, ret.
  destruct (ps_eo os w); reflexivity.
Qed.

Lemma get_pid_run module_name w :
  get_pid module_name w =
  Some (Run (Ret ((screen_ls os w).1 !! module_name)) (screen_ls os w).2
            [EvScreenLs (screen_ls os w).1]).
Proof.
  unfold get_pid, get_screen_sessions, getoutput_screen_ls, bind, ret.
  destruct (screen_ls os w) as [s w1]; simpl. by destruct (s !! module_name).
Qed.

Lemma check_screen_pid_run (p : option Z) w :
  check_screen_pid p w =
  Some (Run (Ret (hosts p (screen_ls os w).1)) (screen_ls os w).2
            [EvScreenLs (screen_ls os w).1]).
Proof.
  unfold check_screen_pid, get_screen_sessions, getoutput_screen_ls, bind, ret.
  destruct (screen_ls os w); reflexivity.
Qed.

(** [terminate_attempt] prints, calls [os.kill] and catches
    [ProcessLookupError]: it returns unless [os.kill] raised something
    else. *)
Lemma terminate_attempt_run pid (sig : Signal) w :
  terminate_attempt pid sig w =
  Some (Run (match escapes (os_kill os pid (signal sig) w).1 with
             | Some e => Raise e
             | None => Ret tt
             end)
            (os_kill os pid (signal sig) w).2
            [EvPrint (name sig) pid; EvKill pid (signal sig)]).
Proof.
  unfold terminate_attempt, print_kill, try_except, kill, bind, ret, escapes.
  destruct (os_kill os pid (signal sig) w) as [[[]|e] w1]; simpl; [reflexivity|].
  destruct (bool_decide (e = ProcessLookupError)); reflexivity.
Qed.

Lemma terminate_attempt_returns pid (sig : Signal) w :
  escapes (os_kill os pid (signal sig) w).1 = None →
  terminate_attempt pid sig w =
  Some (Run (Ret tt) (os_kill os pid (signal sig) w).2
            [EvPrint (name sig) pid; EvKill pid (signal sig)]).
Proof. intros H. by rewrite terminate_attempt_run, H. Qed.

Lemma terminate_attempt_raises pid (sig : Signal) w e :
  escapes (os_kill os pid (signal sig) w).1 = Some e →
  terminate_attempt pid sig w =
  Some (Run (Raise e) (os_kill os pid (signal sig) w).2
            [EvPrint (name sig) pid; EvKill pid (signal sig)]).
Proof. intros H. by rewrite terminate_attempt_run, H. Qed.

Lemma system_run cmd w :
  system cmd w = Some (Run (Ret (os_system os cmd w).1) (os_system os cmd w).2 [EvSystem cmd]).
Proof. unfold system. destruct (os_system os cmd w); reflexivity. Qed.

Lemma children_None pairs : children None pairs = [].
Proof.
  unfold children. induction pairs as [|pc l IH]; [reflexivity|].
  rewrite filter_cons. destruct (decide (Some pc.1 = None)); [discriminate|exact IH].
Qed.

(** ** Reading the trace of two computations in a row *)

Lemma kills_app tr1 tr2 : kills (tr1 ++ tr2) = kills tr1 ++ kills tr2.
Proof. apply omap_app. Qed.

Lemma commands_app tr1 tr2 : commands (tr1 ++ tr2) = commands tr1 ++ commands tr2.
Proof. apply omap_app. Qed.

Lemma polls_app tr1 tr2 : polls (tr1 ++ tr2) = polls tr1 ++ polls tr2.
Proof. apply omap_app. Qed.

Lemma sleeps_app tr1 tr2 : sleeps (tr1 ++ tr2) = sleeps tr1 ++ sleeps tr2.
Proof. apply omap_app. Qed.

(** ** Waiting *)

Lemma rounds_mono fuel fuel' remain step n :
  rounds fuel remain step = Some n → (fuel ≤ fuel')%nat →
  rounds fuel' remain step = Some n.
Proof.
  revert fuel' remain n. induction fuel as [|fuel IH]; intros fuel' remain n H Hle.
  - discriminate.
  - destruct fuel' as [|fuel']; [lia|]. simpl in *.
    destruct (PrimFloat.ltb 0 remain); [|exact H].
    destruct (rounds fuel (PrimFloat.sub remain step) step) as [k|] eqn:E; [|discriminate].
    rewrite (IH fuel' _ k E); [exact H|lia].
Qed.

Lemma listed_true pid (pairs : list (Z * Z)) : listed pid pairs = true ↔ pid ∈ pairs.*2.
Proof. apply bool_decide_eq_true. Qed.

Lemma listed_false pid (pairs : list (Z * Z)) : listed pid pairs = false ↔ pid ∉ pairs.*2.
Proof. apply bool_decide_eq_false. Qed.

(** One turn of the loop of [wait_killed]. *)
Lemma wait_killed_step fuel pid remain step w :
  wait_killed (S fuel) pid remain step w =
  if PrimFloat.ltb 0 remain then
    if listed pid (ps_eo os w).1 then
      match (time_sleep os step (ps_eo os w).2).1 with
      | Ret _ =>
          after [EvPs (ps_eo os w).1; EvSleep step]
                (wait_killed fuel pid (PrimFloat.sub remain step) step
                             (time_sleep os step (ps_eo os w).2).2)
      | Raise e =>
          Some (Run (Raise e) (time_sleep os step (ps_eo os w).2).2
                    [EvPs (ps_eo os w).1; EvSleep step])
      end
    else Some (Run (Ret true) (ps_eo os w).2 [EvPs (ps_eo os w).1])
  else Some (Run (Ret false) w []).
Proof.
  unfold wait_killed. simpl. destruct (PrimFloat.ltb 0 remain); [|reflexivity].
  rewrite (bind_run _ _ _ _ _ _ (check_running_pid_run pid w)).
  destruct (listed pid (ps_eo os w).1); simpl; [|reflexivity].
  unfold bind at 1, sleep at 1.
  destruct (time_sleep os step (ps_eo os w).2) as [[[]|e] w1]; simpl; [|reflexivity].
  destruct (wait_killed_loop fuel pid _ step _) as [[v w2 t2]|]; reflexivity.
Qed.

Lemma wait_killed_gone fuel pid maxwait step w :
  PrimFloat.ltb 0 maxwait = true → listed pid (ps_eo os w).1 = false →
  wait_killed (S fuel) pid maxwait step w =
  Some (Run (Ret true) (ps_eo os w).2 [EvPs (ps_eo os w).1]).
Proof. intros G L. by rewrite wait_killed_step, G, L. Qed.

Lemma wait_killed_spent fuel pid maxwait step w :
  PrimFloat.ltb 0 maxwait = false →
  wait_killed (S fuel) pid maxwait step w = Some (Run (Ret false) w []).
Proof. intros G. by rewrite wait_killed_step, G. Qed.

(** Every run of [wait_killed] is a wait. *)
Lemma wait_killed_waits fuel pid : ∀ maxwait step w r,
  wait_killed fuel pid maxwait step w = Some r →
  waits pid step maxwait w (value r) (final r) (trace r).
Proof.
  induction fuel as [|fuel IH]; intros maxwait step w r H; [discriminate|].
  rewrite wait_killed_step in H.
  destruct (PrimFloat.ltb 0 maxwait) eqn:G.
  - destruct (listed pid (ps_eo os w).1) eqn:L.
    + apply listed_true in L.
      destruct (time_sleep os step (ps_eo os w).2).1 as [[]|e] eqn:Es.
      * apply after_Some in H as (r0 & H0 & ->). simpl.
        apply waits_again; [exact G|exact L|exact Es|by apply IH].
      * injection H as <-. simpl. by apply waits_raises.
    + apply listed_false in L. injection H as <-. by apply waits_gone.
  - injection H as <-. by apply waits_spent.
Qed.

(** What a wait costs, on a budget of [n] rounds. *)
Lemma waits_bounds pid step remain w v w' tr :
  waits pid step remain w v w' tr → ∀ fuel n,
  rounds fuel remain step = Some n →
  (length (polls tr) ≤ n)%nat ∧ within n step tr.
Proof.
  unfold within.
  induction 1 as [remain w G|remain w G L|remain w v w' tr G L Es Hw IH|remain w e G L Es];
    intros fuel n Hn.
  - simpl. repeat split; [lia|lia|constructor].
  - destruct fuel as [|fuel]; [discriminate|]. simpl in Hn. rewrite G in Hn.
    destruct (rounds fuel _ step) as [k|]; [|discriminate]. injection Hn as <-.
    simpl. repeat split; [lia|lia|constructor].
  - destruct fuel as [|fuel]; [discriminate|]. simpl in Hn. rewrite G in Hn.
    destruct (rounds fuel _ step) as [k|] eqn:E; [|discriminate]. injection Hn as <-.
    destruct (IH fuel k E) as (Hp & Hs & Hd).
    simpl. repeat split; [lia|lia|by constructor].
  - destruct fuel as [|fuel]; [discriminate|]. simpl in Hn. rewrite G in Hn.
    destruct (rounds fuel _ step) as [k|]; [|discriminate]. injection Hn as <-.
    simpl. repeat split; [lia|lia|by repeat constructor].
Qed.

(** With fuel for the whole budget, the wait ends. *)
Lemma wait_killed_ends fuel pid : ∀ maxwait step n w,
  rounds fuel maxwait step = Some n →
  ∃ v w' tr, wait_killed fuel pid maxwait step w = Some (Run v w' tr) ∧
             waits pid step maxwait w v w' tr ∧ (length (polls tr) ≤ n)%nat ∧
             within n step tr.
Proof.
  assert (Hends : ∀ fuel maxwait step n w,
            rounds fuel maxwait step = Some n →
            ∃ r, wait_killed fuel pid maxwait step w = Some r).
  { clear fuel. induction fuel as [|fuel IH]; intros maxwait step n w H; [discriminate|].
    rewrite wait_killed_step. simpl in H.
    destruct (PrimFloat.ltb 0 maxwait); [|by eexists].
    destruct (rounds fuel _ step) as [k|] eqn:E; [|discriminate].
    destruct (listed pid (ps_eo os w).1); [|by eexists].
    destruct (time_sleep os step (ps_eo os w).2).1 as [[]|e]; [|by eexists].
    destruct (IH _ _ _ (time_sleep os step (ps_eo os w).2).2 E) as [[v w' tr] ->].
    by eexists. }
  intros maxwait step n w H.
  destruct (Hends fuel maxwait step n w H) as [[v w' tr] E].
  exists v, w', tr. split; [exact E|].
  pose proof (wait_killed_waits fuel pid maxwait step w _ E) as Hw. simpl in Hw.
  split; [exact Hw|]. by eapply waits_bounds.
Qed.

(** A budget that is not positive fails the guard [remain > 0.]. *)
Lemma non_positive_guard (maxwait : float) :
  PrimFloat.leb maxwait 0 = true → PrimFloat.ltb 0 maxwait = false.
Proof.
  rewrite leb_spec, ltb_spec. unfold SFleb, SFltb.
  change (Prim2SF 0) with (S754_zero false).
  destruct (Prim2SF maxwait) as [s|s| |s m e]; simpl; try destruct s; simpl; congruence.
Qed.

(** In binary64 arithmetic a budget of 2.0 seconds is spent after 20 steps of
    0.1, and a budget of 0.5 seconds after 6. *)
Lemma rounds_graceful fuel : (21 ≤ fuel)%nat → rounds fuel 2 step_default = Some 20%nat.
Proof. apply rounds_mono. vm_compute. reflexivity. Qed.

Lemma rounds_forceful fuel : (21 ≤ fuel)%nat → rounds fuel 0.5 step_default = Some 6%nat.
Proof. intros H. apply (rounds_mono 7); [vm_compute; reflexivity|lia]. Qed.

(** What a wait says is what its last look at the process table showed; a
    wait that says no, or raises, ends with the call of [time.sleep]. *)
Lemma waits_confirmed pid step remain w v w' tr :
  waits pid step remain w v w' tr →
  match v with
  | Ret true => ∃ tr0 t, tr = tr0 ++ [EvPs t] ∧ pid ∉ t.*2
  | Ret false => tr = [] ∨ ∃ tr0, tr = tr0 ++ [EvSleep step]
  | Raise e => (∃ tr0, tr = tr0 ++ [EvSleep step]) ∧
               ∃ w0, (time_sleep os step w0).1 = Raise e
  end.
Proof.
  induction 1 as [remain w G|remain w G L|remain w v w' tr G L Es Hw IH|remain w e G L Es].
  - by left.
  - by exists [], (ps_eo os w).1.
  - destruct v as [[]|e].
    + destruct IH as (tr0 & t & -> & Ht).
      by exists (EvPs (ps_eo os w).1 :: EvSleep step :: tr0), t.
    + right. destruct IH as [-> | (tr0 & ->)].
      * by exists [EvPs (ps_eo os w).1].
      * by exists (EvPs (ps_eo os w).1 :: EvSleep step :: tr0).
    + destruct IH as [(tr0 & ->) Hr]. split; [|exact Hr].
      by exists (EvPs (ps_eo os w).1 :: EvSleep step :: tr0).
  - split; [by exists [EvPs (ps_eo os w).1]|by eexists].
Qed.

Lemma waits_kills pid step remain w v w' tr :
  waits pid step remain w v w' tr → kills tr = [] ∧ commands tr = [].
Proof. induction 1; simpl; auto. Qed.

(** ** The ladder *)

(** A graceful round: the answer of its wait decides whether the loop of
    [terminate_loop] returns ([Some true]) or goes on ([None]). *)
Lemma graceful_round fuel pid w :
  (21 ≤ fuel)%nat →
  ∃ v w' tr,
    (do _ <- terminate_attempt pid SIGTERM;
     do gone <- wait_killed fuel pid 2 step_default;
     if gone then ret (Some true) else ret None) w =
    Some (Run (match v with
               | Ret true => Ret (Some true)
               | Ret false => Ret None
               | Raise e => Raise e
               end) w'
              (EvPrint "-TERM" pid :: EvKill pid Signals_SIGTERM :: tr)) ∧
    match escapes (os_kill os pid Signals_SIGTERM w).1 with
    | Some e => v = Raise e ∧ w' = (os_kill os pid Signals_SIGTERM w).2 ∧ tr = []
    | None => waits pid 0.1 2 (os_kill os pid Signals_SIGTERM w).2 v w' tr ∧
              within 20 0.1 tr
    end.
Proof.
  intros Hf. destruct (escapes (os_kill os pid Signals_SIGTERM w).1) as [e|] eqn:Ee.
  - rewrite (bind_raise _ _ _ _ _ _ (terminate_attempt_raises pid SIGTERM w e Ee)).
    by exists (Raise e), (os_kill os pid Signals_SIGTERM w).2, [].
  - rewrite (bind_run _ _ _ _ _ _ (terminate_attempt_returns pid SIGTERM w Ee)).
    destruct (wait_killed_ends fuel pid 2 step_default 20
                (os_kill os pid Signals_SIGTERM w).2 (rounds_graceful fuel Hf))
      as (v & w' & tr & E & Hw & _ & Hin).
    exists v, w', tr. split; [|by split].
    destruct v as [[]|e].
    + rewrite (bind_run _ _ _ _ _ _ E). simpl. by rewrite app_nil_r.
    + rewrite (bind_run _ _ _ _ _ _ E). simpl. by rewrite app_nil_r.
    + by rewrite (bind_raise _ _ _ _ _ _ E).
Qed.

Lemma forceful_round fuel pid w :
  (21 ≤ fuel)%nat →
  ∃ v w' tr,
    (do _ <- terminate_attempt pid SIGKILL;
     do gone <- wait_killed fuel pid 0.5 step_default;
     if gone then ret true else ret false) w =
    Some (Run v w' (EvPrint "-KILL" pid :: EvKill pid Signals_SIGKILL :: tr)) ∧
    match escapes (os_kill os pid Signals_SIGKILL w).1 with
    | Some e => v = Raise e ∧ w' = (os_kill os pid Signals_SIGKILL w).2 ∧ tr = []
    | None => waits pid 0.1 0.5 (os_kill os pid Signals_SIGKILL w).2 v w' tr ∧
              within 6 0.1 tr
    end.
Proof.
  intros Hf. destruct (escapes (os_kill os pid Signals_SIGKILL w).1) as [e|] eqn:Ee.
  - rewrite (bind_raise _ _ _ _ _ _ (terminate_attempt_raises pid SIGKILL w e Ee)).
    by exists (Raise e), (os_kill os pid Signals_SIGKILL w).2, [].
  - rewrite (bind_run _ _ _ _ _ _ (terminate_attempt_returns pid SIGKILL w Ee)).
    destruct (wait_killed_ends fuel pid 0.5 step_default 6
                (os_kill os pid Signals_SIGKILL w).2 (rounds_forceful fuel Hf))
      as (v & w' & tr & E & Hw & _ & Hin).
    exists v, w', tr. split; [|by split].
    destruct v as [[]|e].
    + rewrite (bind_run _ _ _ _ _ _ E). simpl. by rewrite app_nil_r.
    + rewrite (bind_run _ _ _ _ _ _ E). simpl. by rewrite app_nil_r.
    + by rewrite (bind_raise _ _ _ _ _ _ E).
Qed.

Lemma ladder_rounds fuel pid (ntries : list nat) w :
  (21 ≤ fuel)%nat →
  ∃ v w' tr,
    (do r <- for_in ntries (fun ntry =>
               do _ <- terminate_attempt pid SIGTERM;
               do gone <- wait_killed fuel pid 2 step_default;
               if gone then ret (Some true) else ret None);
     match r with
     | Some v => ret v
     | None =>
         do _ <- terminate_attempt pid SIGKILL;
         do gone <- wait_killed fuel pid 0.5 step_default;
         if gone then ret true else ret false
     end) w = Some (Run v w' tr) ∧
    ladder pid (length ntries) w v w' tr.
Proof.
  intros Hf. revert w. induction ntries as [|ntry ntries IH]; intros w.
  - simpl for_in. rewrite bind_ret_l.
    destruct (forceful_round fuel pid w Hf) as (v & w' & tr & E & H).
    eexists _, _, _. split; [exact E|].
    destruct (escapes (os_kill os pid Signals_SIGKILL w).1) as [e|] eqn:Ee.
    + destruct H as (-> & -> & ->). by apply ladder_forceful_raises.
    + destruct H as [Hw Hin]. by apply ladder_forceful.
  - simpl for_in. rewrite bind_assoc.
    destruct (graceful_round fuel pid w Hf) as (v & w1 & tr & E & H).
    destruct (escapes (os_kill os pid Signals_SIGTERM w).1) as [e|] eqn:Ee.
    + destruct H as (-> & -> & ->). rewrite (bind_raise _ _ _ _ _ _ E).
      eexists _, _, _. split; [reflexivity|]. by apply ladder_graceful_raises.
    + destruct H as [Hw Hin]. destruct v as [[]|e].
      * rewrite (bind_run _ _ _ _ _ _ E). rewrite !bind_ret_l. simpl.
        rewrite app_nil_r. eexists _, _, _. split; [reflexivity|].
        by apply ladder_graceful_ends.
      * rewrite (bind_run _ _ _ _ _ _ E).
        destruct (IH w1) as (v & w' & tr' & E' & Hl). rewrite E'. simpl.
        eexists _, _, _. split; [reflexivity|]. by eapply ladder_graceful_again.
      * rewrite (bind_raise _ _ _ _ _ _ E).
        eexists _, _, _. split; [reflexivity|]. by apply ladder_graceful_ends.
Qed.

Lemma terminate_loop_ladder fuel pid w :
  (21 ≤ fuel)%nat →
  ∃ v w' tr, terminate_loop fuel pid w = Some (Run v w' tr) ∧
             ladder pid 3 w v w' tr.
Proof. intros Hf. exact (ladder_rounds fuel pid (seq 0 3) w Hf). Qed.

(** The signals of a ladder: SIGTERM up to [n] times when it ends on a
    graceful round, which it does not with the answer no; [n] times SIGTERM
    and once SIGKILL otherwise. *)
Lemma ladder_kills pid n w v w' tr :
  ladder pid n w v w' tr →
  (∃ k, (1 ≤ k ≤ n)%nat ∧ v ≠ Ret false ∧ kills tr = replicate k (pid, Signals_SIGTERM)) ∨
  kills tr = replicate n (pid, Signals_SIGTERM) ++ [(pid, Signals_SIGKILL)].
Proof.
  induction 1 as [w v w' tr Ee Hw Hin|w e Ee|n w v w' tr Ee Hw Hin Hv
                 |n w w1 tr v w' tr' Ee Hw Hin Hl IH|n w e Ee].
  - right. simpl. apply waits_kills in Hw as [-> _]. reflexivity.
  - right. reflexivity.
  - left. exists 1%nat. split; [lia|]. split; [exact Hv|].
    simpl. apply waits_kills in Hw as [-> _]. reflexivity.
  - assert (kills (EvPrint "-TERM" pid :: EvKill pid Signals_SIGTERM :: tr ++ tr') =
            (pid, Signals_SIGTERM) :: kills tr') as ->.
    { change ((pid, Signals_SIGTERM) :: kills (tr ++ tr') = (pid, Signals_SIGTERM) :: kills tr').
      rewrite kills_app. apply waits_kills in Hw as [-> _]. reflexivity. }
    destruct IH as [(k & Hk & Hv & ->) | ->].
    + left. exists (S k). split; [lia|]. split; [exact Hv|reflexivity].
    + right. reflexivity.
  - left. exists 1%nat. split; [lia|]. split; [discriminate|reflexivity].
Qed.

(** A ladder signals its own process only, and never with SIGINT. *)
Lemma ladder_signals pid n w v w' tr :
  ladder pid n w v w' tr →
  Forall (λ x : Z * Signals, x.1 = pid ∧ x.2 ≠ Signals_SIGINT) (kills tr).
Proof.
  intros Hl. apply ladder_kills in Hl as [(k & _ & _ & ->) | ->].
  - apply Forall_replicate. by split.
  - apply Forall_app. split; [apply Forall_replicate|apply Forall_singleton]; by split.
Qed.

Lemma ladder_commands pid n w v w' tr : ladder pid n w v w' tr → commands tr = [].
Proof.
  induction 1 as [w v w' tr Ee Hw Hin|w e Ee|n w v w' tr Ee Hw Hin Hv
                 |n w w1 tr v w' tr' Ee Hw Hin Hl IH|n w e Ee].
  - apply waits_kills in Hw as [_ Hc]. exact Hc.
  - reflexivity.
  - apply waits_kills in Hw as [_ Hc]. exact Hc.
  - change (commands (tr ++ tr') = []). rewrite commands_app, IH.
    apply waits_kills in Hw as [_ ->]. reflexivity.
  - reflexivity.
Qed.

(** A ladder says yes exactly when the last thing it did was to see the
    process gone. *)
Lemma ladder_confirmed pid n w v w' tr :
  ladder pid n w v w' tr → v = Ret true ↔ confirmed_gone pid tr.
Proof.
  assert (Hlast : ∀ e1 e2 tr0 v0 w0 w0' remain,
            waits pid 0.1 remain w0 v0 w0' tr0 →
            v0 = Ret true ↔ confirmed_gone pid (EvPrint e1 pid :: EvKill pid e2 :: tr0)).
  { intros e1 e2 tr0 v0 w0 w0' remain Hw. apply waits_confirmed in Hw.
    unfold confirmed_gone. destruct v0 as [[]|e].
    - destruct Hw as (tr1 & t & -> & Ht).
      rewrite !app_comm_cons, last_snoc. tauto.
    - split; [discriminate|]. destruct Hw as [-> | (tr1 & ->)]; simpl; [tauto|].
      rewrite !app_comm_cons, last_snoc. tauto.
    - split; [discriminate|]. destruct Hw as [(tr1 & ->) _].
      rewrite !app_comm_cons, last_snoc. tauto. }
  induction 1 as [w v w' tr Ee Hw Hin|w e Ee|n w v w' tr Ee Hw Hin Hv
                 |n w w1 tr v w' tr' Ee Hw Hin Hl IH|n w e Ee].
  - by eapply Hlast.
  - split; [discriminate|]. unfold confirmed_gone. simpl. tauto.
  - by eapply Hlast.
  - rewrite IH. unfold confirmed_gone.
    assert (tr' ≠ []) as Hne by (inversion Hl; discriminate).
    rewrite !app_comm_cons. rewrite last_app.
    destruct (last tr') as [e|] eqn:El; [reflexivity|].
    apply last_None in El. contradiction.
  - split; [discriminate|]. unfold confirmed_gone. simpl. tauto.
Qed.

(** A ladder raises nothing of its own. *)
Lemma ladder_passes_on pid n w v w' tr : ladder pid n w v w' tr → passes_on (os:=os) v.
Proof.
  assert (Hwait : ∀ remain w0 v0 w0' tr0,
            waits pid 0.1 remain w0 v0 w0' tr0 → passes_on (os:=os) v0).
  { intros remain w0 v0 w0' tr0 Hw. destruct v0 as [b|e]; [exact I|].
    apply waits_confirmed in Hw as [_ [w1 Hr]]. right. by exists w1. }
  induction 1 as [w v w' tr Ee Hw Hin|w e Ee|n w v w' tr Ee Hw Hin Hv
                 |n w w1 tr v w' tr' Ee Hw Hin Hl IH|n w e Ee].
  - by eapply Hwait.
  - left. by eexists _, _, _.
  - by eapply Hwait.
  - exact IH.
  - left. by eexists _, _, _.
Qed.

(** What a ladder with [n] graceful rounds costs. *)
Lemma ladder_bounds pid n w v w' tr :
  ladder pid n w v w' tr →
  (1 ≤ length (kills tr) ≤ n + 1)%nat ∧
  (length (polls tr) ≤ 20 * n + 6)%nat ∧ (length (sleeps tr) ≤ 20 * n + 6)%nat ∧
  Forall (λ d, d = step_default) (sleeps tr).
Proof.
  intros Hl. split.
  - apply ladder_kills in Hl as [(k & Hk & _ & ->) | ->].
    + rewrite length_replicate. lia.
    + rewrite length_app, length_replicate. simpl. lia.
  - induction Hl as [w v w' tr Ee Hw Hin|w e Ee|n w v w' tr Ee Hw Hin Hv
                    |n w w1 tr v w' tr' Ee Hw Hin Hl IH|n w e Ee].
    + destruct (waits_bounds _ _ _ _ _ _ _ Hw 21%nat 6%nat (rounds_forceful 21 (le_n _)))
        as (Hp & Hs & Hd).
      change (polls (EvPrint "-KILL" pid :: EvKill pid Signals_SIGKILL :: tr)) with (polls tr).
      change (sleeps (EvPrint "-KILL" pid :: EvKill pid Signals_SIGKILL :: tr)) with (sleeps tr).
      repeat split; [lia|lia|exact Hd].
    + simpl. repeat split; [lia|lia|constructor].
    + destruct (waits_bounds _ _ _ _ _ _ _ Hw 21%nat 20%nat (rounds_graceful 21 (le_n _)))
        as (Hp & Hs & Hd).
      change (polls (EvPrint "-TERM" pid :: EvKill pid Signals_SIGTERM :: tr)) with (polls tr).
      change (sleeps (EvPrint "-TERM" pid :: EvKill pid Signals_SIGTERM :: tr)) with (sleeps tr).
      repeat split; [lia|lia|exact Hd].
    + destruct (waits_bounds _ _ _ _ _ _ _ Hw 21%nat 20%nat (rounds_graceful 21 (le_n _)))
        as (Hp & Hs & Hd).
      destruct IH as (Hp' & Hs' & Hd').
      change (polls (EvPrint "-TERM" pid :: EvKill pid Signals_SIGTERM :: tr ++ tr'))
        with (polls (tr ++ tr')).
      change (sleeps (EvPrint "-TERM" pid :: EvKill pid Signals_SIGTERM :: tr ++ tr'))
        with (sleeps (tr ++ tr')).
      rewrite polls_app, sleeps_app, !length_app.
      repeat split; [lia|lia|by apply Forall_app].
    + simpl. repeat split; [lia|lia|constructor].
Qed.

(** ** Tearing a session down *)

Lemma hosts_spec (pid : Z) (sessions : gmap string Z) :
  hosts (Some pid) sessions = true ↔ ∃ session, sessions !! session = Some pid.
Proof.
  unfold hosts. rewrite bool_decide_eq_true, list_elem_of_fmap. split.
  - intros (p & Hp & Hin). injection Hp as <-.
    apply list_elem_of_fmap in Hin as ([k v] & -> & Hkv).
    exists k. by apply elem_of_map_to_list.
  - intros (k & Hk). exists pid. split; [reflexivity|].
    apply list_elem_of_fmap. exists (k, pid). split; [reflexivity|].
    by apply elem_of_map_to_list.
Qed.

(** The search, run: it hands the three process ids to the rest of
    [terminate]. *)
Lemma search_run module_name w pid bash_pid main_pid :
  resolves module_name w pid bash_pid main_pid →
  get_pid module_name w =
    Some (Run (Ret (Some pid)) (screen_ls os w).2 [EvScreenLs (screen_ls os w).1]) ∧
  try_except
    (do c <- get_child_pid (Some pid);
     do bash_pid <- item0 c;
     do c' <- get_child_pid (Some bash_pid);
     do main_pid <- item0 c';
     ret (Some (bash_pid, main_pid)))
    IndexError (ret None) (screen_ls os w).2 =
    Some (Run (Ret (Some (bash_pid, main_pid))) (searched w)
              (tail (search_trace w))).
Proof.
  intros (Hpid & Hbash & Hmain). split.
  - by rewrite get_pid_run, Hpid.
  - unfold try_except.
    rewrite (bind_run _ _ _ _ _ _ (get_child_pid_run (Some pid) _)).
    destruct (children (Some pid) (ps_eo os (screen_ls os w).2).1) as [|b l];
      [discriminate|]. injection Hbash as ->.
    simpl item0. rewrite bind_ret_l.
    rewrite (bind_run _ _ _ _ _ _ (get_child_pid_run (Some bash_pid) _)).
    destruct (children (Some bash_pid) (ps_eo os (ps_eo os (screen_ls os w).2).2).1)
      as [|m l']; [discriminate|]. injection Hmain as ->.
    simpl item0. rewrite bind_ret_l. reflexivity.
Qed.

(** The search fails, and [IndexError] is caught, when [p] has no child or
    its first child has none. *)
Lemma search_fails (p : option Z) w :
  let shells := children p (ps_eo os w).1 in
  let w2 := (ps_eo os w).2 in
  shells = [] ∨ children (head shells) (ps_eo os w2).1 = [] →
  ∃ w' tr,
    try_except
      (do c <- get_child_pid p;
       do bash_pid <- item0 c;
       do c' <- get_child_pid (Some bash_pid);
       do main_pid <- item0 c';
       ret (Some (bash_pid, main_pid)))
      IndexError (ret None) w = Some (Run (Ret None) w' tr) ∧
    kills tr = [] ∧ commands tr = [].
Proof.
  intros shells w2 H. unfold try_except.
  rewrite (bind_run _ _ _ _ _ _ (get_child_pid_run p w)). fold shells w2.
  destruct shells as [|b l].
  - simpl. eexists _, _. split; [reflexivity|]. split; reflexivity.
  - destruct H as [H|H]; [discriminate|]. simpl in H.
    simpl item0. rewrite bind_ret_l.
    rewrite (bind_run _ _ _ _ _ _ (get_child_pid_run (Some b) w2)).
    rewrite H. simpl. eexists _, _. split; [reflexivity|]. split; reflexivity.
Qed.

(** The clean-up loop and the ladder on the shell are a sequence of
    ladders; [quit] is what follows them. *)
Lemma cleanup_then_bash fuel (quit : M os bool) bash_pid (cleanup_pids : list Z) :
  ∀ w v w' tr,
  sequence fuel (cleanup_pids ++ [bash_pid]) w v w' tr →
  (do r <- for_in cleanup_pids (fun cleanup_pid =>
             do killed <- terminate_loop fuel cleanup_pid;
             if negb killed then ret (Some false) else ret None);
   match r with
   | Some v => ret v
   | None =>
       do killed <- terminate_loop fuel bash_pid;
       if negb killed then ret false else quit
   end) w =
  match v with
  | Ret true => after tr (quit w')
  | Ret false => Some (Run (Ret false) w' tr)
  | Raise e => Some (Run (Raise e) w' tr)
  end.
Proof.
  induction cleanup_pids as [|c cs IH]; intros w v w' tr Hs.
  - simpl for_in. rewrite bind_ret_l. simpl in Hs.
    inversion Hs as [|p ps w0 w0' tr0 E|p ps w0 e w0' tr0 E
                    |p ps w0 w1 tr0 v0 w0' tr' E Hrest]; subst.
    + rewrite (bind_run _ _ _ _ _ _ E). simpl. by rewrite app_nil_r.
    + by rewrite (bind_raise _ _ _ _ _ _ E).
    + rewrite (bind_run _ _ _ _ _ _ E). simpl negb. cbv iota.
      inversion Hrest; subst. by rewrite app_nil_r.
  - simpl for_in. rewrite !bind_assoc. simpl in Hs.
    inversion Hs as [|p ps w0 w0' tr0 E|p ps w0 e w0' tr0 E
                    |p ps w0 w1 tr0 v0 w0' tr' E Hrest]; subst.
    + rewrite (bind_run _ _ _ _ _ _ E). simpl negb. cbv iota.
      rewrite !bind_ret_l. simpl. by rewrite app_nil_r.
    + by rewrite (bind_raise _ _ _ _ _ _ E).
    + rewrite (bind_run _ _ _ _ _ _ E). simpl negb. cbv iota.
      rewrite bind_ret_l. rewrite (IH _ _ _ _ Hrest).
      destruct v as [[]|e]; [by rewrite after_after|reflexivity|reflexivity].
Qed.

(** [terminate] after a successful search: the hook, then the ladders on
    the service, the clean-up processes and the shell, then, if all of them
    returned true, the quit command and the look at the session listing. *)
Lemma terminate_run modules fuel module_name w pid bash_pid main_pid
    (module : descriptor os) (cleanup_pids : list Z) w4 t4 v w5 t5 :
  resolves module_name w pid bash_pid main_pid →
  modules !! module_name = Some module →
  hook_of module main_pid (searched w) = Some (Run (Ret cleanup_pids) w4 t4) →
  sequence fuel (main_pid :: cleanup_pids ++ [bash_pid]) w4 v w5 t5 →
  terminate modules fuel module_name w =
  Some (match v with
        | Ret true =>
            let wq := (os_system os (quit_command module_name) w5).2 in
            Run (Ret (negb (hosts (Some pid) (screen_ls os wq).1))) (screen_ls os wq).2
                (search_trace w ++ t4 ++ t5 ++
                 [EvSystem (quit_command module_name); EvScreenLs (screen_ls os wq).1])
        | Ret false => Run (Ret false) w5 (search_trace w ++ t4 ++ t5)
        | Raise e => Run (Raise e) w5 (search_trace w ++ t4 ++ t5)
        end).
Proof.
  intros Hres Hmod Hhook Hseq.
  destruct (search_run _ _ _ _ _ Hres) as [Hpid Hfound].
  unfold terminate.
  rewrite (bind_run _ _ _ _ _ _ Hpid), (bind_run _ _ _ _ _ _ Hfound).
  unfold getitem. rewrite Hmod, bind_ret_l.
  unfold hook_of in Hhook. rewrite (bind_run _ _ _ _ _ _ Hhook).
  set (quit := (do _ <- system (quit_command module_name);
                do active <- check_screen_pid (Some pid);
                ret (negb active))).
  assert (Hquit : ∀ w', quit w' =
            let wq := (os_system os (quit_command module_name) w').2 in
            Some (Run (Ret (negb (hosts (Some pid) (screen_ls os wq).1))) (screen_ls os wq).2
                      [EvSystem (quit_command module_name); EvScreenLs (screen_ls os wq).1])).
  { intros w'. unfold quit.
    rewrite (bind_run _ _ _ _ _ _ (system_run _ _)).
    rewrite (bind_run _ _ _ _ _ _ (check_screen_pid_run _ _)). reflexivity. }
  inversion Hseq as [|p ps w0 w0' tr0 E|p ps w0 e w0' tr0 E
                    |p ps w0 w1 tr0 v0 w0' tr' E Hrest]; subst.
  - rewrite (bind_run _ _ _ _ _ _ E). simpl. by rewrite app_nil_r.
  - rewrite (bind_raise _ _ _ _ _ _ E). reflexivity.
  - rewrite (bind_run _ _ _ _ _ _ E). change (negb true) with false. cbv iota.
    rewrite (cleanup_then_bash fuel quit _ _ _ _ _ _ Hrest).
    destruct v as [[]|e].
    + rewrite Hquit. simpl. by rewrite <- ?app_assoc.
    + simpl. by rewrite <- ?app_assoc.
    + simpl. by rewrite <- ?app_assoc.
Qed.

(** ** Sequences of ladders *)

Lemma terminate_loop_is_ladder fuel pid w v w' tr :
  (21 ≤ fuel)%nat →
  terminate_loop fuel pid w = Some (Run v w' tr) → ladder pid 3 w v w' tr.
Proof.
  intros Hf E. destruct (terminate_loop_ladder fuel pid w Hf) as (v0 & w0 & tr0 & E0 & Hl).
  rewrite E in E0. by injection E0 as -> -> ->.
Qed.

Lemma sequence_exists fuel (pids : list Z) :
  (21 ≤ fuel)%nat → ∀ w, ∃ v w' tr, sequence fuel pids w v w' tr.
Proof.
  intros Hf. induction pids as [|p ps IH]; intros w.
  - exists (Ret true), w, []. constructor.
  - destruct (terminate_loop_ladder fuel p w Hf) as ([[]|e] & w1 & tr & E & _).
    + destruct (IH w1) as (v & w' & tr' & Hs).
      exists v, w', (tr ++ tr'). by eapply sequence_next.
    + exists (Ret false), w1, tr. by apply sequence_stop.
    + exists (Raise e), w1, tr. by apply sequence_raises.
Qed.

Lemma in_order_block p (block targets pids : list Z) :
  Forall (λ x, x = p) block → in_order targets pids →
  in_order (block ++ targets) (p :: pids).
Proof.
  induction 1 as [|x block -> _ IH]; intros Ho.
  - by apply in_order_move.
  - simpl. apply in_order_stay. by apply IH.
Qed.

Lemma ladder_targets pid n w v w' tr :
  ladder pid n w v w' tr → Forall (λ x, x = pid) (kills tr).*1.
Proof.
  intros Hl. apply ladder_signals in Hl. apply Forall_fmap.
  eapply Forall_impl; [exact Hl|]. by intros x [Hx _].
Qed.

(** The signals of a sequence go to its processes in the order of the list,
    and a sequence runs no shell command. *)
Lemma sequence_in_order fuel (pids : list Z) w v w' tr :
  (21 ≤ fuel)%nat → sequence fuel pids w v w' tr →
  in_order (kills tr).*1 pids ∧ commands tr = [].
Proof.
  assert (Hone : ∀ p ps w0 v0 w0' tr0,
            ladder p 3 w0 v0 w0' tr0 →
            in_order (kills tr0).*1 (p :: ps) ∧ commands tr0 = []).
  { intros p ps w0 v0 w0' tr0 Hl. split.
    - rewrite <- (app_nil_r (kills tr0).*1).
      apply in_order_block; [by eapply ladder_targets|constructor].
    - by eapply ladder_commands. }
  intros Hf. induction 1 as [w|p ps w w' tr E|p ps w e w' tr E|p ps w w1 tr v w' tr' E Hs IH].
  - split; [constructor|reflexivity].
  - apply (terminate_loop_is_ladder _ _ _ _ _ _ Hf) in E. by eapply Hone.
  - apply (terminate_loop_is_ladder _ _ _ _ _ _ Hf) in E. by eapply Hone.
  - apply (terminate_loop_is_ladder _ _ _ _ _ _ Hf) in E. destruct IH as [IH1 IH2]. split.
    + rewrite kills_app, fmap_app.
      apply in_order_block; [by eapply ladder_targets|exact IH1].
    + rewrite commands_app, IH2, (ladder_commands _ _ _ _ _ _ E). reflexivity.
Qed.

(** A sequence raises nothing of its own. *)
Lemma sequence_passes_on fuel (pids : list Z) w v w' tr :
  (21 ≤ fuel)%nat → sequence fuel pids w v w' tr → passes_on (os:=os) v.
Proof.
  intros Hf. induction 1 as [w|p ps w w' tr E|p ps w e w' tr E|p ps w w1 tr v w' tr' E Hs IH].
  - exact I.
  - exact I.
  - apply (terminate_loop_is_ladder _ _ _ _ _ _ Hf) in E. by eapply ladder_passes_on.
  - exact IH.
Qed.

(** ** What a ladder leaves alone *)

Lemma waits_frame (targets : Z → Prop) (P : world os → Prop) pid remain w v w' tr :
  frame targets P → waits pid step_default remain w v w' tr → P w → P w'.
Proof.
  intros HP.
  induction 1 as [remain w G|remain w G L|remain w v w' tr G L Es Hw IH|remain w e G L Es];
    intros Hw0.
  - exact Hw0.
  - by apply HP.
  - apply IH. apply HP. by apply HP.
  - apply HP. by apply HP.
Qed.

Lemma ladder_frame (targets : Z → Prop) (P : world os → Prop) pid n w v w' tr :
  frame targets P → targets pid → ladder pid n w v w' tr → P w → P w'.
Proof.
  intros HP Ht.
  assert (Hkill : ∀ w0 s, s ≠ Signals_SIGINT → P w0 → P (os_kill os pid s w0).2).
  { intros w0 s Hs Hw0. by apply HP. }
  induction 1 as [w v w' tr Ee Hw Hin|w e Ee|n w v w' tr Ee Hw Hin Hv
                 |n w w1 tr v w' tr' Ee Hw Hin Hl IH|n w e Ee]; intros Hw0.
  - eapply waits_frame; [exact HP|exact Hw|]. by apply Hkill.
  - by apply Hkill.
  - eapply waits_frame; [exact HP|exact Hw|]. by apply Hkill.
  - apply IH. eapply waits_frame; [exact HP|exact Hw|]. by apply Hkill.
  - by apply Hkill.
Qed.

Lemma search_frame (targets : Z → Prop) (P : world os → Prop) w :
  frame targets P → P w → P (searched w).
Proof. intros HP Hw. unfold searched. apply HP. apply HP. by apply HP. Qed.

Lemma looks_only_ret {A} (a : A) : looks_only (os:=os) (ret a).
Proof. intros P _ w r H Hw. by injection H as <-. Qed.

Lemma looks_only_first_child (x : Z) :
  looks_only (os:=os) (do c <- get_child_pid (Some x); ret (take 1 c)).
Proof.
  intros P HP w r H Hw.
  rewrite (bind_run _ _ _ _ _ _ (get_child_pid_run _ _)) in H.
  injection H as <-. simpl. by apply HP.
Qed.

(** The hooks of the script's own table look at the process table at
    most. *)
Lemma MODULES_looks_only module_name (module : descriptor os) (x : Z) :
  MODULES !! module_name = Some module → looks_only (hook_of module x).
Proof.
  unfold MODULES. simpl list_to_map. intros H.
  repeat (apply lookup_insert_Some in H as [[_ <-]|[_ H]];
          [first [apply looks_only_ret | apply looks_only_first_child]|]).
  by rewrite lookup_empty in H.
Qed.

End Facts.

(** * The claims *)

(** C1, as stated, fails in two places.  Against a process that stays (pid
    3 on the machine where no signal kills) the ladder sends SIGTERM three
    times and SIGKILL once and returns false, and after the SIGKILL it sleeps
    six times 0.1 seconds: the wait on the budget of 0.5 alone ends with the
    clock beyond 0.5, since in binary64 arithmetic five subtractions of 0.1
    from 0.5 leave a positive budget.  Against a process that the caller may
    not signal the ladder returns neither true nor false: the first SIGTERM
    raises [PermissionError], which nothing catches. *)
Lemma terminate_loop_waits_longer_or_raises :
  (λ r, (value r, kills (trace r), sleeps (forceful_part (trace r)))) <$>
    terminate_loop (os:=Sim.os Sim.immortal) 21 3 (Sim.fabricated "jupyter") =
    Some (Ret false,
          [(3, Signals_SIGTERM); (3, Signals_SIGTERM); (3, Signals_SIGTERM);
           (3, Signals_SIGKILL)],
          [0.1; 0.1; 0.1; 0.1; 0.1; 0.1]%float) ∧
  (λ r : run (Sim.os Sim.immortal) bool,
     (value r, length (sleeps (trace r)), PrimFloat.ltb 0.5 (Sim.clock (final r)))) <$>
    wait_killed (os:=Sim.os Sim.immortal) 21 3 0.5 0.1 (Sim.fabricated "jupyter") =
    Some (Ret false, 6%nat, true) ∧
  (λ r, (value r, kills (trace r), sleeps (trace r))) <$>
    terminate_loop (os:=Sim.os Sim.guarded) 21 3 (Sim.fabricated "jupyter") =
    Some (Raise PermissionError, [(3, Signals_SIGTERM)], []).
Proof. repeat split; vm_compute; reflexivity. Qed.

(** C1, amended.  The termination ladder: at most three rounds of SIGTERM
    followed by a wait on a budget of 2.0 seconds (at most 20 sleeps of 0.1
    seconds), ending with true at the first round whose wait sees the
    process gone; after three fruitless rounds exactly one SIGKILL and a
    wait on the budget 0.5 (at most six sleeps of 0.1 seconds); the result
    is true exactly when the last look at the process table showed the
    process gone.  With fuel for 21 tests of the loop guard every ladder
    ends: with a boolean, or with the exception that [os.kill] (other than
    [ProcessLookupError]) or [time.sleep] raised, at the call that raised
    it. *)
Theorem terminate_loop_three_rounds_then_kill {os : OS} (fuel : nat) (pid : Z)
    (w : world os) :
  (21 ≤ fuel)%nat →
  ∃ v w' tr,
    terminate_loop fuel pid w = Some (Run v w' tr) ∧
    ladder pid 3 w v w' tr ∧
    ((∃ k, (1 ≤ k ≤ 3)%nat ∧ v ≠ Ret false ∧
           kills tr = replicate k (pid, Signals_SIGTERM)) ∨
     kills tr = replicate 3 (pid, Signals_SIGTERM) ++ [(pid, Signals_SIGKILL)]) ∧
    (v = Ret true ↔ confirmed_gone pid tr) ∧
    passes_on (os:=os) v.
Proof.
  intros Hf.
  destruct (terminate_loop_ladder fuel pid w Hf) as (v & w' & tr & E & Hl).
  exists v, w', tr. split; [exact E|]. split; [exact Hl|].
  split; [by eapply ladder_kills|]. split; [by eapply ladder_confirmed|].
  by eapply ladder_passes_on.
Qed.

(** The ladder against a process that dies of the first SIGTERM. *)
Lemma terminate_loop_three_rounds_then_kill_witness :
  ∃ v w' tr,
    terminate_loop (os:=Sim.os Sim.mortal) 21 3 (Sim.fabricated "jupyter") =
      Some (Run v w' tr) ∧
    ladder (os:=Sim.os Sim.mortal) 3 3 (Sim.fabricated "jupyter") v w' tr ∧
    ((∃ k, (1 ≤ k ≤ 3)%nat ∧ v ≠ Ret false ∧ kills tr = replicate k (3, Signals_SIGTERM)) ∨
     kills tr = replicate 3 (3, Signals_SIGTERM) ++ [(3, Signals_SIGKILL)]) ∧
    (v = Ret true ↔ confirmed_gone 3 tr) ∧
    passes_on (os:=Sim.os Sim.mortal) v.
Proof.
  apply (terminate_loop_three_rounds_then_kill (os:=Sim.os Sim.mortal)). lia.
Defined.

(** C4.  A process that is not in the process table, and is not in it after
    the first signal either: the ladder sends one SIGTERM and no other
    signal.  When [os.kill] returns, or raises [ProcessLookupError] (which
    is swallowed), the ladder returns true after one look at the table: no
    sleep, no second round, no SIGKILL.  Anything else that [os.kill] raises
    leaves the ladder at that call. *)
Theorem terminate_loop_already_gone {os : OS} (fuel : nat) (pid : Z) (w : world os) :
  (1 ≤ fuel)%nat →
  pid ∉ (ps_eo os w).1.*2 →
  pid ∉ (ps_eo os (os_kill os pid Signals_SIGTERM w).2).1.*2 →
  let w1 := (os_kill os pid Signals_SIGTERM w).2 in
  terminate_loop fuel pid w =
    Some (match escapes (os_kill os pid Signals_SIGTERM w).1 with
          | None =>
              Run (Ret true) (ps_eo os w1).2
                  [EvPrint "-TERM" pid; EvKill pid Signals_SIGTERM; EvPs (ps_eo os w1).1]
          | Some e => Run (Raise e) w1 [EvPrint "-TERM" pid; EvKill pid Signals_SIGTERM]
          end) ∧
  kills [EvPrint "-TERM" pid; EvKill pid Signals_SIGTERM; EvPs (ps_eo os w1).1] =
    [(pid, Signals_SIGTERM)] ∧
  kills [EvPrint "-TERM" pid; EvKill pid Signals_SIGTERM] = [(pid, Signals_SIGTERM)].
Proof.
  intros Hf _ Habs w1. split; [|split; reflexivity].
  destruct fuel as [|fuel]; [lia|].
  assert (listed pid (ps_eo os w1).1 = false) as L
    by (apply bool_decide_eq_false; exact Habs).
  unfold terminate_loop. simpl for_in. rewrite !bind_assoc.
  destruct (escapes (os_kill os pid Signals_SIGTERM w).1) as [e|] eqn:Ee.
  - rewrite (bind_raise _ _ _ _ _ _ (terminate_attempt_raises pid SIGTERM w e Ee)).
    reflexivity.
  - rewrite (bind_run _ _ _ _ _ _ (terminate_attempt_returns pid SIGTERM w Ee)).
    rewrite bind_assoc.
    rewrite (bind_run _ _ _ _ _ _ (wait_killed_gone fuel pid 2 step_default w1 eq_refl L)).
    rewrite !bind_ret_l. reflexivity.
Qed.

Lemma terminate_loop_already_gone_witness :
  terminate_loop (os:=Sim.os Sim.mortal) 21 9 (Sim.fabricated "jupyter") =
    Some (Run (os:=Sim.os Sim.mortal) (Ret true) (Sim.fabricated "jupyter")
              [EvPrint "-TERM" 9; EvKill 9 Signals_SIGTERM; EvPs [(1, 2); (2, 3); (3, 4)]]) ∧
  kills [EvPrint "-TERM" 9; EvKill 9 Signals_SIGTERM; EvPs [(1, 2); (2, 3); (3, 4)]] =
    [(9, Signals_SIGTERM)] ∧
  kills [EvPrint "-TERM" 9; EvKill 9 Signals_SIGTERM] = [(9, Signals_SIGTERM)].
Proof.
  apply (terminate_loop_already_gone (os:=Sim.os Sim.mortal) 21 9 (Sim.fabricated "jupyter")).
  - lia.
  - compute_done.
  - compute_done.
Defined.

(** C5.  A process that is not a child in the current snapshot is not
    running, and a wait for it on any positive budget returns true at its
    first look at the table, before any sleep. *)
Theorem absent_pid_is_dead_at_once {os : OS} (fuel : nat) (pid : Z)
    (maxwait step : float) (w : world os) :
  pid ∉ (ps_eo os w).1.*2 →
  PrimFloat.ltb 0 maxwait = true →
  check_running_pid pid w =
    Some (Run (Ret false) (ps_eo os w).2 [EvPs (ps_eo os w).1]) ∧
  wait_killed (S fuel) pid maxwait step w =
    Some (Run (Ret true) (ps_eo os w).2 [EvPs (ps_eo os w).1]) ∧
  sleeps [EvPs (ps_eo os w).1] = [].
Proof.
  intros Habs G.
  assert (listed pid (ps_eo os w).1 = false) as L
    by (apply bool_decide_eq_false; exact Habs).
  split; [|split; [|reflexivity]].
  - by rewrite check_running_pid_run, L.
  - by apply wait_killed_gone.
Qed.

Lemma absent_pid_is_dead_at_once_witness :
  check_running_pid (os:=Sim.os Sim.immortal) 9 (Sim.fabricated "jupyter") =
    Some (Run (os:=Sim.os Sim.immortal) (Ret false) (Sim.fabricated "jupyter")
              [EvPs [(1, 2); (2, 3); (3, 4)]]) ∧
  wait_killed (os:=Sim.os Sim.immortal) 1 9 0.05 0.1 (Sim.fabricated "jupyter") =
    Some (Run (os:=Sim.os Sim.immortal) (Ret true) (Sim.fabricated "jupyter")
              [EvPs [(1, 2); (2, 3); (3, 4)]]) ∧
  sleeps [EvPs [(1, 2); (2, 3); (3, 4)]] = [].
Proof.
  apply (absent_pid_is_dead_at_once (os:=Sim.os Sim.immortal) 0 9 0.05 0.1
           (Sim.fabricated "jupyter")).
  - compute_done.
  - reflexivity.
Defined.

(** C10.  On a budget that is not positive the wait returns false at once:
    it reads no snapshot and does not sleep, whether or not the process is
    in the table. *)
Theorem wait_killed_without_budget {os : OS} (fuel : nat) (pid : Z)
    (maxwait step : float) (w : world os) :
  PrimFloat.leb maxwait 0 = true →
  wait_killed (S fuel) pid maxwait step w = Some (Run (Ret false) w []).
Proof. intros G. apply wait_killed_spent. by apply non_positive_guard. Qed.

Lemma wait_killed_without_budget_witness :
  (9 ∉ (ps_eo (Sim.os Sim.immortal) (Sim.fabricated "jupyter")).1.*2) ∧
  wait_killed (os:=Sim.os Sim.immortal) 21 9 0 0.1 (Sim.fabricated "jupyter") =
    Some (Run (os:=Sim.os Sim.immortal) (Ret false) (Sim.fabricated "jupyter") []).
Proof.
  split; [compute_done|].
  apply (wait_killed_without_budget (os:=Sim.os Sim.immortal) 20 9 0 0.1
           (Sim.fabricated "jupyter")).
  reflexivity.
Defined.

(** C6.  The wait checks, then sleeps: every run of [wait_killed] is a wait
    in the sense of [waits] (a fresh snapshot first, true as soon as the
    process is not in it, otherwise a sleep on a budget smaller by the
    interval, false as soon as the budget is not positive; an exception of
    [time.sleep] ends it), so a wait that says no ends with a sleep and not
    with a look at the table; it ends whenever the budget runs out within
    the fuel; a process that ends 0.35 seconds after the start of a wait of
    2.0 seconds at intervals of 0.1 is found gone at the fifth look; and on
    a machine that refuses to sleep for NaN seconds the wait raises after
    its first look. *)
Theorem wait_killed_checks_then_sleeps :
  (∀ (os : OS) (fuel : nat) (pid : Z) (maxwait step : float) (w : world os) r,
     wait_killed fuel pid maxwait step w = Some r →
     waits pid step maxwait w (value r) (final r) (trace r) ∧
     (value r = Ret false → trace r = [] ∨ ∃ tr0, trace r = tr0 ++ [EvSleep step])) ∧
  (∀ (os : OS) (fuel : nat) (pid : Z) (maxwait step : float) (w : world os) n,
     rounds fuel maxwait step = Some n →
     ∃ r, wait_killed fuel pid maxwait step w = Some r ∧
          (length (polls (trace r)) ≤ n)%nat) ∧
  (∃ w' tr,
     wait_killed (os:=Sim.os Sim.dying) 21 7 2 0.1 Sim.lone =
       Some (Run (Ret true) w' tr) ∧
     length (polls tr) = 5%nat ∧ (4 ≤ length (polls tr))%nat ∧
     length (sleeps tr) = 4%nat) ∧
  (λ r, (value r, length (polls (trace r)))) <$>
    wait_killed (os:=Sim.os Sim.immortal) 21 3 1 PrimFloat.nan (Sim.fabricated "jupyter") =
    Some (Raise ValueError, 1%nat).
Proof.
  split; [|split; [|split]].
  - intros os fuel pid maxwait step w r H.
    apply wait_killed_waits in H as Hw. split; [exact Hw|].
    intros Hv. apply waits_confirmed in Hw. by rewrite Hv in Hw.
  - intros os fuel pid maxwait step w n H.
    destruct (wait_killed_ends fuel pid maxwait step n w H) as (v & w' & tr & E & _ & Hn & _).
    eexists. split; [exact E|exact Hn].
  - eexists _, _. split; [apply run_eq; vm_compute; reflexivity|].
    vm_compute. repeat split; lia.
  - vm_compute. reflexivity.
Qed.

(** A wait of 0.25 seconds for a process that stays. *)
Lemma wait_killed_checks_then_sleeps_witness :
  ∃ r,
    wait_killed (os:=Sim.os Sim.immortal) 21 3 0.25 0.1 (Sim.fabricated "jupyter") = Some r ∧
    waits (os:=Sim.os Sim.immortal) 3 0.1 0.25 (Sim.fabricated "jupyter")
          (value r) (final r) (trace r) ∧
    (value r = Ret false → trace r = [] ∨ ∃ tr0, trace r = tr0 ++ [EvSleep 0.1]).
Proof.
  assert (∃ r, wait_killed (os:=Sim.os Sim.immortal) 21 3 0.25 0.1
                 (Sim.fabricated "jupyter") = Some r) as (r & E)
    by (eexists (Run _ _ _); apply run_eq; vm_compute; reflexivity).
  exists r. split; [exact E|].
  exact (proj1 wait_killed_checks_then_sleeps (Sim.os Sim.immortal) 21%nat 3 0.25%float
           0.1%float (Sim.fabricated "jupyter") r E).
Defined.

(** C7.  The ladder never sends SIGINT: its signals are SIGTERM and SIGKILL
    only, and against a process that survives everything they are three
    times SIGTERM and once SIGKILL. *)
Theorem terminate_loop_never_interrupts :
  (∀ (os : OS) (fuel : nat) (pid : Z) (w : world os),
     (21 ≤ fuel)%nat →
     ∃ r, terminate_loop fuel pid w = Some r ∧
          Forall (λ x : Z * Signals, x.1 = pid ∧ x.2 ≠ signal SIGINT) (kills (trace r))) ∧
  Sim.summary (terminate_loop (os:=Sim.os Sim.immortal) 21 3 (Sim.fabricated "jupyter")) =
    Some (Ret false,
          [(3, signal SIGTERM); (3, signal SIGTERM); (3, signal SIGTERM);
           (3, signal SIGKILL)],
          []).
Proof.
  split.
  - intros os fuel pid w Hf.
    destruct (terminate_loop_ladder fuel pid w Hf) as (b & w' & tr & E & Hl).
    eexists. split; [exact E|]. exact (ladder_signals _ _ _ _ _ _ Hl).
  - reflexivity.
Qed.

(** C8.  Nothing to tear down: when the session is not in the listing, or
    its process has no child, or the first child has no child, [terminate]
    returns false; it raises nothing, sends no signal and runs no command.
    This holds for every module name, in the table or not. *)
Theorem terminate_not_found {os : OS} (modules : gmap string (descriptor os))
    (fuel : nat) (module_name : string) (w : world os) :
  let sessions := (screen_ls os w).1 in
  let w1 := (screen_ls os w).2 in
  let shells := children (sessions !! module_name) (ps_eo os w1).1 in
  let w2 := (ps_eo os w1).2 in
  let services := children (head shells) (ps_eo os w2).1 in
  sessions !! module_name = None ∨ shells = [] ∨ services = [] →
  ∃ w' tr,
    terminate modules fuel module_name w = Some (Run (Ret false) w' tr) ∧
    kills tr = [] ∧ commands tr = [].
Proof.
  intros sessions w1 shells w2 services H.
  assert (Hcases : shells = [] ∨ services = []).
  { destruct H as [H|[H|H]]; [left|by left|by right].
    unfold shells. rewrite H. apply children_None. }
  destruct (search_fails (sessions !! module_name) w1 Hcases) as (w' & tr & E & Hk & Hc).
  unfold terminate.
  rewrite (bind_run _ _ _ _ _ _ (get_pid_run module_name w)).
  fold sessions w1. rewrite (bind_run _ _ _ _ _ _ E). simpl.
  eexists _, _. split; [reflexivity|].
  rewrite app_nil_r. split; [exact Hk|exact Hc].
Qed.

Lemma terminate_not_found_witness :
  ∃ w' tr,
    terminate (os:=Sim.os Sim.mortal) MODULES 21 "mongo" (Sim.fabricated "jupyter") =
      Some (Run (Ret false) w' tr) ∧
    kills tr = [] ∧ commands tr = [].
Proof.
  apply (terminate_not_found (os:=Sim.os Sim.mortal) MODULES 21 "mongo"
           (Sim.fabricated "jupyter")).
  left. vm_compute. reflexivity.
Defined.

(** C3.  The service survives its ladder: [terminate] returns false in the
    state, and with the trace, in which that ladder ended.  The ladder
    signalled the service only; no other ladder ran, and no shell command,
    so the quit command was not issued.  The session is still listed, on a
    machine where what this run does leaves it listed: a hook that only
    looks, listing processes and sessions, sleeping for the polling
    interval, and SIGTERM or SIGKILL to the service.  What a signal to any
    other process would do is of no concern. *)
Theorem terminate_aborts_when_service_survives {os : OS}
    (modules : gmap string (descriptor os)) (fuel : nat) (module_name : string)
    (w : world os) (pid bash_pid main_pid : Z) (module : descriptor os)
    (cleanup_pids : list Z) (w4 : world os) (t4 : list event)
    (w5 : world os) (t5 : list event) :
  (21 ≤ fuel)%nat →
  resolves module_name w pid bash_pid main_pid →
  modules !! module_name = Some module →
  hook_of module main_pid (searched w) = Some (Run (Ret cleanup_pids) w4 t4) →
  terminate_loop fuel main_pid w4 = Some (Run (Ret false) w5 t5) →
  terminate modules fuel module_name w =
    Some (Run (Ret false) w5 (search_trace w ++ t4 ++ t5)) ∧
  Forall (λ x : Z * Signals, x.1 = main_pid) (kills t5) ∧
  commands (search_trace w ++ t5) = [] ∧
  (looks_only (hook_of module main_pid) →
   frame (os:=os) (λ p, p = main_pid) (has_session module_name) →
   has_session module_name w5).
Proof.
  intros Hf Hres Hmod Hhook E.
  assert (Hl := terminate_loop_is_ladder _ _ _ _ _ _ Hf E).
  split; [|split; [|split]].
  - apply (terminate_run modules fuel module_name w pid bash_pid main_pid module
             cleanup_pids w4 t4 (Ret false) w5 t5 Hres Hmod Hhook).
    by apply sequence_stop.
  - eapply Forall_impl; [exact (ladder_signals _ _ _ _ _ _ Hl)|]. by intros x [Hx _].
  - exact (ladder_commands _ _ _ _ _ _ Hl).
  - intros Hq HP. eapply ladder_frame; [exact HP|reflexivity|exact Hl|].
    apply (Hq (has_session module_name)) with (w := searched w)
                                              (r := Run (Ret cleanup_pids) w4 t4).
    + intros w0 Hw0. split; by apply HP.
    + exact Hhook.
    + eapply search_frame; [exact HP|].
      destruct Hres as [Hpid _]. unfold has_session. by rewrite Hpid.
Qed.

(** On a machine where every process but the service dies of its first
    signal, and a session ends with the process it runs under, the service
    survives its ladder and the session stays. *)
Lemma terminate_aborts_when_service_survives_witness :
  ∃ w5 t5,
    terminate (os:=Sim.os Sim.stubborn) MODULES 21 "jupyter" (Sim.fabricated "jupyter") =
      Some (Run (Ret false) w5
                (search_trace (os:=Sim.os Sim.stubborn) (Sim.fabricated "jupyter") ++ [] ++ t5)) ∧
    Forall (λ x : Z * Signals, x.1 = 3) (kills t5) ∧
    commands (search_trace (os:=Sim.os Sim.stubborn) (Sim.fabricated "jupyter") ++ t5) = [] ∧
    has_session (os:=Sim.os Sim.stubborn) "jupyter" w5.
Proof.
  assert (∃ w5 t5, terminate_loop (os:=Sim.os Sim.stubborn) 21 3 (Sim.fabricated "jupyter") =
                   Some (Run (Ret false) w5 t5)) as (w5 & t5 & E)
    by (eexists _, _; apply run_eq; vm_compute; reflexivity).
  exists w5, t5.
  destruct (terminate_aborts_when_service_survives (os:=Sim.os Sim.stubborn)
              MODULES 21 "jupyter" (Sim.fabricated "jupyter") 1 2 3
              {| virtual_env := Some "ds"; command := "jupyter notebook"; cleanup := None |}
              [] (Sim.fabricated "jupyter") [] w5 t5) as (H1 & H2 & H3 & H4).
  - lia.
  - repeat split; vm_compute; reflexivity.
  - reflexivity.
  - reflexivity.
  - exact E.
  - split; [exact H1|]. split; [exact H2|]. split; [exact H3|].
    apply H4.
    + apply looks_only_ret.
    + intros m Hm. split; [exact Hm|]. split; [exact Hm|]. split; [exact Hm|].
      intros p s -> _. revert Hm. unfold has_session. simpl. unfold Sim.deliver. simpl.
      destruct (bool_decide (3 ∈ (Sim.table Sim.stubborn m).*2)); simpl; auto.
Defined.

(** C2, as stated, fails on the fabricated table [(1,2); (2,3); (3,4)] with
    the session [svc] under pid 1: the shell is 2 and the service is 3.  The
    script's own table has no module [svc], so [terminate] raises [KeyError]
    before any signal; with a table that knows [svc] the first signal goes to
    3, then to 2, and 4 is never signalled, whether the processes die or
    not. *)
Lemma terminate_fabricated_table_kills_3_then_2 :
  Sim.summary (terminate (os:=Sim.os Sim.mortal) MODULES 21 "svc" (Sim.fabricated "svc")) =
    Some (Raise KeyError, [], []) ∧
  Sim.summary (terminate (os:=Sim.os Sim.mortal) (Sim.svc_only Sim.mortal) 21 "svc"
                 (Sim.fabricated "svc")) =
    Some (Ret true, [(3, Signals_SIGTERM); (2, Signals_SIGTERM)],
          ["screen -S svc -X quit"]) ∧
  Sim.summary (terminate (os:=Sim.os Sim.immortal) (Sim.svc_only Sim.immortal) 21 "svc"
                 (Sim.fabricated "svc")) =
    Some (Ret false,
          [(3, Signals_SIGTERM); (3, Signals_SIGTERM); (3, Signals_SIGTERM);
           (3, Signals_SIGKILL)],
          []).
Proof. repeat split; vm_compute; reflexivity. Qed.

(** C2, amended.  After a successful search, for a module of the table whose
    hook returns [cleanup_pids]: the ladders run as a sequence on the
    service, the clean-up processes in the order returned, and the shell;
    each starts where the one before ended, and only after that one returned
    true; the signals follow that order; the quit command comes after all
    of them, and only if all returned true; a ladder that raises ends
    [terminate] with its exception.  On the fabricated table with the
    session under pid 1 the service is 3 and the shell is 2: 3 is signalled
    before 2, and 4 only when the hook returns it, after 3 and before 2. *)
Theorem terminate_service_cleanup_shell_quit :
  (∀ (os : OS) (modules : gmap string (descriptor os)) (fuel : nat)
     (module_name : string) (w : world os) (pid bash_pid main_pid : Z)
     (module : descriptor os) (cleanup_pids : list Z) (w4 : world os) (t4 : list event),
     (21 ≤ fuel)%nat →
     resolves module_name w pid bash_pid main_pid →
     modules !! module_name = Some module →
     hook_of module main_pid (searched w) = Some (Run (Ret cleanup_pids) w4 t4) →
     ∃ v w5 t5,
       sequence fuel (main_pid :: cleanup_pids ++ [bash_pid]) w4 v w5 t5 ∧
       in_order (kills t5).*1 (main_pid :: cleanup_pids ++ [bash_pid]) ∧
       commands t5 = [] ∧
       terminate modules fuel module_name w =
       Some (match v with
             | Ret true =>
                 let wq := (os_system os (quit_command module_name) w5).2 in
                 Run (Ret (negb (hosts (Some pid) (screen_ls os wq).1))) (screen_ls os wq).2
                     (search_trace w ++ t4 ++ t5 ++
                      [EvSystem (quit_command module_name); EvScreenLs (screen_ls os wq).1])
             | Ret false => Run (Ret false) w5 (search_trace w ++ t4 ++ t5)
             | Raise e => Run (Raise e) w5 (search_trace w ++ t4 ++ t5)
             end)) ∧
  Sim.summary (terminate (os:=Sim.os Sim.mortal) (Sim.svc_only Sim.mortal) 21 "svc"
                 (Sim.fabricated "svc")) =
    Some (Ret true, [(3, Signals_SIGTERM); (2, Signals_SIGTERM)],
          ["screen -S svc -X quit"]) ∧
  Sim.summary (terminate (os:=Sim.os Sim.mortal) MODULES 21 "airflow_webserver"
                 (Sim.fabricated "airflow_webserver")) =
    Some (Ret true, [(3, Signals_SIGTERM); (4, Signals_SIGTERM); (2, Signals_SIGTERM)],
          ["screen -S airflow_webserver -X quit"]).
Proof.
  split; [|split; vm_compute; reflexivity].
  intros os modules fuel module_name w pid bash_pid main_pid module cleanup_pids w4 t4
         Hf Hres Hmod Hhook.
  destruct (sequence_exists fuel (main_pid :: cleanup_pids ++ [bash_pid]) Hf w4)
    as (v & w5 & t5 & Hs).
  exists v, w5, t5. split; [exact Hs|].
  destruct (sequence_in_order _ _ _ _ _ _ Hf Hs) as [Ho Hc].
  split; [exact Ho|]. split; [exact Hc|].
  by eapply terminate_run.
Qed.

Lemma terminate_service_cleanup_shell_quit_witness :
  ∃ v w5 t5,
    sequence (os:=Sim.os Sim.mortal) 21 (3 :: [4] ++ [2])
             (Sim.fabricated "airflow_webserver") v w5 t5 ∧
    in_order (kills t5).*1 (3 :: [4] ++ [2]) ∧
    commands t5 = [] ∧
    terminate (os:=Sim.os Sim.mortal) MODULES 21 "airflow_webserver"
              (Sim.fabricated "airflow_webserver") =
    Some (match v with
          | Ret true =>
              let wq := (os_system (Sim.os Sim.mortal)
                           (quit_command "airflow_webserver") w5).2 in
              Run (Ret (negb (hosts (Some 1) (screen_ls (Sim.os Sim.mortal) wq).1)))
                  (screen_ls (Sim.os Sim.mortal) wq).2
                  (search_trace (os:=Sim.os Sim.mortal) (Sim.fabricated "airflow_webserver") ++
                   [EvPs [(1, 2); (2, 3); (3, 4)]] ++ t5 ++
                   [EvSystem (quit_command "airflow_webserver");
                    EvScreenLs (screen_ls (Sim.os Sim.mortal) wq).1])
          | Ret false =>
              Run (Ret false) w5
                  (search_trace (os:=Sim.os Sim.mortal) (Sim.fabricated "airflow_webserver") ++
                   [EvPs [(1, 2); (2, 3); (3, 4)]] ++ t5)
          | Raise e =>
              Run (Raise e) w5
                  (search_trace (os:=Sim.os Sim.mortal) (Sim.fabricated "airflow_webserver") ++
                   [EvPs [(1, 2); (2, 3); (3, 4)]] ++ t5)
          end).
Proof.
  apply (proj1 terminate_service_cleanup_shell_quit (Sim.os Sim.mortal) MODULES 21%nat
           "airflow_webserver" (Sim.fabricated "airflow_webserver") 1 2 3
           {| virtual_env := Some "ds"; command := "airflow webserver";
              cleanup := Some (fun x => do c <- get_child_pid (Some x); ret (take 1 c)) |}
           [4] (Sim.fabricated "airflow_webserver") [EvPs [(1, 2); (2, 3); (3, 4)]]).
  - lia.
  - repeat split; vm_compute; reflexivity.
  - reflexivity.
  - reflexivity.
Defined.

(** C9, as stated, fails: the last check looks for the pid of the session,
    not for its name.  When the listing read after the quit command shows a
    session of the same name under another pid, [terminate] returns true
    although the name is still listed. *)
Lemma terminate_true_with_name_still_listed :
  ∃ w' tr,
    terminate (os:=Sim.os Sim.twin) MODULES 21 "jupyter" (Sim.fabricated "jupyter") =
      Some (Run (Ret true) w' tr) ∧
    last tr = Some (EvScreenLs {[ "jupyter" := 7 ]}) ∧
    ({[ "jupyter" := 7 ]} : gmap string Z) !! "jupyter" = Some 7 ∧
    (screen_ls (Sim.os Sim.twin) w').1 !! "jupyter" = Some 7.
Proof.
  eexists _, _. split; [apply run_eq; vm_compute; reflexivity|].
  repeat split; vm_compute; reflexivity.
Qed.

(** C9, amended.  When all ladders returned true, [terminate] runs the quit
    command, ignores its exit status, reads the session listing again and
    returns true exactly when no session of that listing has the pid the
    search found at the start.  Nothing else enters the result. *)
Theorem terminate_result_is_final_pid_check {os : OS}
    (modules : gmap string (descriptor os)) (fuel : nat) (module_name : string)
    (w : world os) (pid bash_pid main_pid : Z) (module : descriptor os)
    (cleanup_pids : list Z) (w4 : world os) (t4 : list event)
    (w5 : world os) (t5 : list event) :
  resolves module_name w pid bash_pid main_pid →
  modules !! module_name = Some module →
  hook_of module main_pid (searched w) = Some (Run (Ret cleanup_pids) w4 t4) →
  sequence fuel (main_pid :: cleanup_pids ++ [bash_pid]) w4 (Ret true) w5 t5 →
  let wq := (os_system os (quit_command module_name) w5).2 in
  let listing := (screen_ls os wq).1 in
  ∃ b,
    terminate modules fuel module_name w =
      Some (Run (Ret b) (screen_ls os wq).2
                (search_trace w ++ t4 ++ t5 ++
                 [EvSystem (quit_command module_name); EvScreenLs listing])) ∧
    (b = true ↔ ∀ session, listing !! session ≠ Some pid).
Proof.
  intros Hres Hmod Hhook Hs wq listing.
  exists (negb (hosts (Some pid) listing)). split.
  - exact (terminate_run modules fuel module_name w pid bash_pid main_pid module
             cleanup_pids w4 t4 (Ret true) w5 t5 Hres Hmod Hhook Hs).
  - rewrite negb_true_iff, <- not_true_iff_false, hosts_spec. split.
    + intros Hn session Hsession. apply Hn. by exists session.
    + intros Hn (session & Hsession). by apply (Hn session).
Qed.

Lemma terminate_result_is_final_pid_check_witness :
  ∃ w5 t5 b,
    let wq := (os_system (Sim.os Sim.mortal) (quit_command "jupyter") w5).2 in
    let listing := (screen_ls (Sim.os Sim.mortal) wq).1 in
    terminate (os:=Sim.os Sim.mortal) MODULES 21 "jupyter" (Sim.fabricated "jupyter") =
      Some (Run (Ret b) (screen_ls (Sim.os Sim.mortal) wq).2
                (search_trace (os:=Sim.os Sim.mortal) (Sim.fabricated "jupyter") ++ [] ++ t5 ++
                 [EvSystem (quit_command "jupyter"); EvScreenLs listing])) ∧
    (b = true ↔ ∀ session, listing !! session ≠ Some 1).
Proof.
  assert (∃ w5 t5, sequence (os:=Sim.os Sim.mortal) 21 (3 :: [] ++ [2])
                     (Sim.fabricated "jupyter") (Ret true) w5 t5) as (w5 & t5 & Hs).
  { eexists _, _.
    eapply sequence_next; [apply run_eq; vm_compute; reflexivity|].
    eapply sequence_next; [apply run_eq; vm_compute; reflexivity|]. apply sequence_done. }
  exists w5, t5.
  apply (terminate_result_is_final_pid_check (os:=Sim.os Sim.mortal) MODULES 21 "jupyter"
           (Sim.fabricated "jupyter") 1 2 3
           {| virtual_env := Some "ds"; command := "jupyter notebook"; cleanup := None |}
           [] (Sim.fabricated "jupyter") [] w5 t5).
  - repeat split; vm_compute; reflexivity.
  - reflexivity.
  - reflexivity.
  - exact Hs.
Defined.

(** X1.  The budgets in binary64 arithmetic: twenty subtractions of 0.1
    from 2.0 leave nothing, five subtractions of 0.1 from 0.5 leave a
    positive number.  Against a process that stays, a wait of 2.0 seconds
    looks and sleeps 20 times and a wait of 0.5 seconds 6 times. *)
Theorem wait_killed_budgets_in_binary64 :
  rounds 21 2 step_default = Some 20%nat ∧
  rounds 21 0.5 step_default = Some 6%nat ∧
  (λ r, (value r, length (polls (trace r)), length (sleeps (trace r)))) <$>
    wait_killed (os:=Sim.os Sim.immortal) 21 3 2 step_default (Sim.fabricated "jupyter") =
    Some (Ret false, 20%nat, 20%nat) ∧
  (λ r, (value r, length (polls (trace r)), length (sleeps (trace r)))) <$>
    wait_killed (os:=Sim.os Sim.immortal) 21 3 0.5 step_default (Sim.fabricated "jupyter") =
    Some (Ret false, 6%nat, 6%nat).
Proof. repeat split; vm_compute; reflexivity. Qed.

(** * More of the script *)

Section MoreFacts.

Context {os : OS}.

Implicit Types (w : world os) (tr : list event) (pid : Z) (b : bool).

(** A computation that returns has run its first part to a return. *)
Lemma bind_ret_inv {A B} (m : M os A) (k : A → M os B) w (y : B) w' tr :
  bind m k w = Some (Run (Ret y) w' tr) →
  ∃ a w1 t1 t2, m w = Some (Run (Ret a) w1 t1) ∧
                k a w1 = Some (Run (Ret y) w' t2) ∧ tr = t1 ++ t2.
Proof.
  unfold bind. destruct (m w) as [[[a|e] w1 t1]|]; intros H; try discriminate.
  destruct (k a w1) as [[v w2 t2]|] eqn:E; try discriminate.
  injection H as -> -> <-. by exists a, w1, t1, t2.
Qed.

Lemma hosts_None (sessions : gmap string Z) : hosts None sessions = false.
Proof.
  unfold hosts. apply bool_decide_eq_false. intros H.
  apply list_elem_of_fmap in H as (x & Hx & _). discriminate.
Qed.

(** The search of [terminate] either finds the three processes or gives
    up. *)
Lemma resolves_or_not module_name w :
  (∃ pid bash_pid main_pid, resolves module_name w pid bash_pid main_pid) ∨
  (let shells := children ((screen_ls os w).1 !! module_name)
                          (ps_eo os (screen_ls os w).2).1 in
   shells = [] ∨
   children (head shells) (ps_eo os (ps_eo os (screen_ls os w).2).2).1 = []).
Proof.
  unfold resolves.
  destruct ((screen_ls os w).1 !! module_name) as [pid|] eqn:Hpid.
  - destruct (children (Some pid) (ps_eo os (screen_ls os w).2).1) as [|b l] eqn:Hb.
    + right. by left.
    + destruct (children (Some b) (ps_eo os (ps_eo os (screen_ls os w).2).2).1)
        as [|m l'] eqn:Hm.
      * right. right. exact Hm.
      * left. exists pid, b, m. rewrite Hb. simpl. rewrite Hm. done.
  - right. left. apply children_None.
Qed.

Lemma terminate_gives_up modules fuel module_name w :
  (let shells := children ((screen_ls os w).1 !! module_name)
                          (ps_eo os (screen_ls os w).2).1 in
   shells = [] ∨
   children (head shells) (ps_eo os (ps_eo os (screen_ls os w).2).2).1 = []) →
  ∃ w' tr,
    terminate modules fuel module_name w = Some (Run (Ret false) w' tr) ∧
    kills tr = [] ∧ commands tr = [].
Proof.
  intros H.
  destruct (search_fails ((screen_ls os w).1 !! module_name) (screen_ls os w).2 H)
    as (w' & tr & E & Hk & Hc).
  unfold terminate. rewrite (bind_run _ _ _ _ _ _ (get_pid_run module_name w)).
  rewrite (bind_run _ _ _ _ _ _ E). simpl.
  eexists _, _. split; [reflexivity|]. rewrite app_nil_r. by split.
Qed.

(** The hooks of the script's own table: [airflow_webserver] names the first
    child of the service, the other modules name nothing.  A hook looks at
    the process table at most; it sends no signal and runs no command. *)
Lemma MODULES_hook_run module_name (module : descriptor os) (x : Z) w :
  MODULES !! module_name = Some module →
  ∃ w4 t4,
    hook_of module x w =
      Some (Run (Ret (if bool_decide (module_name = "airflow_webserver")
                      then take 1 (children (Some x) (ps_eo os w).1) else []))
                w4 t4) ∧
    kills t4 = [] ∧ commands t4 = [].
Proof.
  unfold MODULES. simpl list_to_map. intros H.
  repeat (apply lookup_insert_Some in H as [[<- <-]|[_ H]];
          [first [ by eexists _, _
                 | unfold hook_of; simpl;
                   rewrite (bind_run _ _ _ _ _ _ (get_child_pid_run _ _));
                   by eexists _, _ ]|]).
  by rewrite lookup_empty in H.
Qed.

Lemma sequence_cost fuel (pids : list Z) w v w' tr :
  (21 ≤ fuel)%nat → sequence fuel pids w v w' tr →
  (length (kills tr) ≤ 4 * length pids)%nat.
Proof.
  intros Hf. induction 1 as [w|p ps w w' tr E|p ps w e w' tr E|p ps w w1 tr v w' tr' E Hs IH].
  - simpl. lia.
  - apply (terminate_loop_is_ladder _ _ _ _ _ _ Hf) in E.
    apply ladder_bounds in E as (Hk & _). simpl. lia.
  - apply (terminate_loop_is_ladder _ _ _ _ _ _ Hf) in E.
    apply ladder_bounds in E as (Hk & _). simpl. lia.
  - apply (terminate_loop_is_ladder _ _ _ _ _ _ Hf) in E.
    apply ladder_bounds in E as (Hk & _). rewrite kills_app, length_app. simpl. lia.
Qed.

Lemma in_order_elem_of (targets pids : list Z) :
  in_order targets pids → Forall (λ x, x ∈ pids) targets.
Proof.
  induction 1 as [ps|p ps ts _ IH|p ps ts _ IH].
  - constructor.
  - constructor; [apply list_elem_of_here|exact IH].
  - eapply Forall_impl; [exact IH|]. intros x Hx. by apply list_elem_of_further.
Qed.

Lemma sequence_signals fuel (pids : list Z) w v w' tr :
  (21 ≤ fuel)%nat → sequence fuel pids w v w' tr →
  Forall (λ x : Z * Signals, x.2 ≠ Signals_SIGINT) (kills tr).
Proof.
  assert (Hone : ∀ p w0 v0 w0' tr0,
            ladder p 3 w0 v0 w0' tr0 →
            Forall (λ x : Z * Signals, x.2 ≠ Signals_SIGINT) (kills tr0)).
  { intros p w0 v0 w0' tr0 Hl. apply ladder_signals in Hl.
    eapply Forall_impl; [exact Hl|]. by intros x [_ Hx]. }
  intros Hf. induction 1 as [w|p ps w w' tr E|p ps w e w' tr E|p ps w w1 tr v w' tr' E Hs IH].
  - constructor.
  - apply (terminate_loop_is_ladder _ _ _ _ _ _ Hf) in E. by eapply Hone.
  - apply (terminate_loop_is_ladder _ _ _ _ _ _ Hf) in E. by eapply Hone.
  - apply (terminate_loop_is_ladder _ _ _ _ _ _ Hf) in E.
    rewrite kills_app. apply Forall_app. split; [by eapply Hone|exact IH].
Qed.

(** The signals and commands of a whole teardown whose hook sends and runs
    nothing itself. *)
Lemma terminate_discipline modules fuel module_name w pid bash_pid main_pid
    (module : descriptor os) (cleanup_pids : list Z) w4 t4 :
  (21 ≤ fuel)%nat →
  resolves module_name w pid bash_pid main_pid →
  modules !! module_name = Some module →
  hook_of module main_pid (searched w) = Some (Run (Ret cleanup_pids) w4 t4) →
  kills t4 = [] → commands t4 = [] →
  ∃ v w' tr,
    terminate modules fuel module_name w = Some (Run v w' tr) ∧
    passes_on (os:=os) v ∧
    in_order (kills tr).*1 (main_pid :: cleanup_pids ++ [bash_pid]) ∧
    Forall (λ x : Z * Signals, x.2 ≠ Signals_SIGINT) (kills tr) ∧
    (length (kills tr) ≤ 4 * (length cleanup_pids + 2))%nat ∧
    (commands tr = [] ∨ commands tr = [quit_command module_name]) ∧
    (v = Ret true → commands tr = [quit_command module_name]).
Proof.
  intros Hf Hres Hmod Hhook Hk4 Hc4.
  destruct (sequence_exists fuel (main_pid :: cleanup_pids ++ [bash_pid]) Hf w4)
    as (v & w5 & t5 & Hs).
  pose proof (terminate_run modules fuel module_name w pid bash_pid main_pid module
                cleanup_pids w4 t4 v w5 t5 Hres Hmod Hhook Hs) as E.
  destruct (sequence_in_order _ _ _ _ _ _ Hf Hs) as [Ho Hc5].
  pose proof (sequence_signals _ _ _ _ _ _ Hf Hs) as Hsig.
  pose proof (sequence_cost _ _ _ _ _ _ Hf Hs) as Hcost.
  pose proof (sequence_passes_on _ _ _ _ _ _ Hf Hs) as Hpass.
  simpl length in Hcost. rewrite length_app in Hcost. simpl in Hcost.
  assert (Hk : ∀ tail, kills tail = [] → kills (search_trace w ++ t4 ++ t5 ++ tail) = kills t5).
  { intros tail Ht. rewrite !kills_app, Hk4, Ht, app_nil_r. reflexivity. }
  assert (Hc : ∀ tail, commands (search_trace w ++ t4 ++ t5 ++ tail) = commands tail).
  { intros tail. rewrite !commands_app, Hc4, Hc5. reflexivity. }
  destruct v as [[]|e]; cbv zeta iota in E.
  - eexists _, _, _. split; [exact E|].
    rewrite (Hk [EvSystem _; EvScreenLs _] eq_refl), Hc. repeat split; auto. lia.
  - eexists _, _, _. split; [exact E|].
    rewrite <- (app_nil_r t5), (Hk [] eq_refl), (Hc []).
    repeat split; auto; [lia|discriminate].
  - eexists _, _, _. split; [exact E|].
    rewrite <- (app_nil_r t5), (Hk [] eq_refl), (Hc []).
    repeat split; auto; [lia|discriminate].
Qed.

(** On the script's own table [terminate] ends, whatever the machine does,
    and raises nothing of its own. *)
Lemma terminate_MODULES_total fuel module_name (module : descriptor os) w :
  (21 ≤ fuel)%nat → MODULES !! module_name = Some module →
  ∃ v w' tr,
    terminate MODULES fuel module_name w = Some (Run v w' tr) ∧
    passes_on (os:=os) v ∧
    (length (kills tr) ≤ 12)%nat ∧
    (commands tr = [] ∨ commands tr = [quit_command module_name]).
Proof.
  intros Hf Hmod. destruct (resolves_or_not module_name w) as [(pid & bash & main & Hres)|Hno].
  - destruct (MODULES_hook_run module_name module main (searched w) Hmod)
      as (w4 & t4 & Hhook & Hk4 & Hc4).
    destruct (terminate_discipline MODULES fuel module_name w pid bash main module _ w4 t4
                Hf Hres Hmod Hhook Hk4 Hc4) as (v & w' & tr & E & Hp & _ & _ & Hn & Hc & _).
    exists v, w', tr. split; [exact E|]. split; [exact Hp|]. split; [|exact Hc].
    etransitivity; [exact Hn|].
    destruct (bool_decide (module_name = "airflow_webserver")).
    + rewrite length_take. lia.
    + simpl. lia.
  - destruct (terminate_gives_up MODULES fuel module_name w Hno) as (w' & tr & E & Hk & Hc).
    exists (Ret false), w', tr. split; [exact E|]. split; [exact I|].
    rewrite Hk, Hc. split; [simpl; lia|by left].
Qed.

Lemma cleanup_loop_returns_false fuel (cleanup_pids : list Z) : ∀ w v w' tr,
  for_in cleanup_pids (fun cleanup_pid =>
    do killed <- terminate_loop fuel cleanup_pid;
    if negb killed then ret (Some false) else ret None) w =
    Some (Run (Ret (Some v)) w' tr) →
  v = false.
Proof.
  induction cleanup_pids as [|c cs IH]; intros w v w' tr H.
  - discriminate.
  - simpl for_in in H. apply bind_ret_inv in H as (r & w1 & t1 & t2 & Hbody & H & ->).
    destruct r as [v0|].
    + injection H as <- _ _.
      apply bind_ret_inv in Hbody as (killed & w2 & t3 & t4 & _ & Hbody & _).
      destruct killed; simpl in Hbody; [discriminate|]. by injection Hbody as <- _ _.
    + by eapply IH.
Qed.

(** [terminate] says true only after the quit command, and only when the
    listing read after it shows no session under the pid found at the
    start. *)
Lemma terminate_true_inv modules fuel module_name w w' tr :
  terminate modules fuel module_name w = Some (Run (Ret true) w' tr) →
  ∃ pid tr0 wq,
    (screen_ls os w).1 !! module_name = Some pid ∧
    tr = tr0 ++ [EvSystem (quit_command module_name); EvScreenLs (screen_ls os wq).1] ∧
    w' = (screen_ls os wq).2 ∧
    hosts (Some pid) (screen_ls os wq).1 = false.
Proof.
  intros H. unfold terminate in H.
  apply bind_ret_inv in H as (p & w1 & t1 & t2 & Hp & H & ->).
  rewrite get_pid_run in Hp. injection Hp as <- <- <-.
  apply bind_ret_inv in H as (found & w3 & t3 & t4 & Htry & H & ->).
  destruct found as [[bash_pid main_pid]|]; [|discriminate].
  destruct ((screen_ls os w).1 !! module_name) as [pid|] eqn:Hpid.
  2:{ destruct (search_fails None (screen_ls os w).2) as (w0 & tr0 & E & _).
      { left. apply children_None. }
      rewrite E in Htry. discriminate. }
  apply bind_ret_inv in H as (module & w4 & t5 & t6 & _ & H & ->).
  apply bind_ret_inv in H as (cleanup_pids & w5 & t7 & t8 & _ & H & ->).
  apply bind_ret_inv in H as (killed & w6 & t9 & t10 & _ & H & ->).
  destruct killed; simpl in H; [|discriminate].
  apply bind_ret_inv in H as (r & w7 & t11 & t12 & Hfor & H & ->).
  destruct r as [v|].
  { apply cleanup_loop_returns_false in Hfor as ->. discriminate. }
  apply bind_ret_inv in H as (killed & w8 & t13 & t14 & _ & H & ->).
  destruct killed; simpl in H; [|discriminate].
  apply bind_ret_inv in H as (status & w9 & t15 & t16 & Hsys & H & ->).
  rewrite system_run in Hsys. injection Hsys as _ <- <-.
  apply bind_ret_inv in H as (active & w10 & t17 & t18 & Hchk & H & ->).
  rewrite check_screen_pid_run in Hchk. injection Hchk as <- <- <-.
  injection H as Hact <- <-.
  exists pid, ([EvScreenLs (screen_ls os w).1] ++ t3 ++ t5 ++ t7 ++ t9 ++ t11 ++ t13),
         (os_system os (quit_command module_name) w8).2.
  split; [reflexivity|]. split; [|split; [reflexivity|by apply negb_true_iff]].
  rewrite app_nil_r. by rewrite <- !app_assoc.
Qed.

End MoreFacts.

(** X2.  [terminate_attempt] ignores a process that is gone: where [os.kill]
    raises [ProcessLookupError], [terminate_attempt] returns normally, having
    printed its line and sent its one signal, and leaves the machine as the
    signal left it. *)
Theorem terminate_attempt_ignores_missing_process {os : OS} (pid : Z) (sig : Signal)
    (w : world os) :
  (os_kill os pid (signal sig) w).1 = Raise ProcessLookupError →
  kill pid (signal sig) w =
    Some (Run (Raise ProcessLookupError) (os_kill os pid (signal sig) w).2
              [EvKill pid (signal sig)]) ∧
  terminate_attempt pid sig w =
    Some (Run (Ret tt) (os_kill os pid (signal sig) w).2
              [EvPrint (name sig) pid; EvKill pid (signal sig)]).
Proof.
  intros H. split; [|apply terminate_attempt_returns; by rewrite H].
  unfold kill. destruct (os_kill os pid (signal sig) w) as [result w1].
  simpl in H. by rewrite H.
Qed.

Lemma terminate_attempt_ignores_missing_process_witness :
  kill (os:=Sim.os Sim.mortal) 9 (signal SIGINT) (Sim.fabricated "jupyter") =
    Some (Run (os:=Sim.os Sim.mortal) (Raise ProcessLookupError) (Sim.fabricated "jupyter")
              [EvKill 9 (signal SIGINT)]) ∧
  terminate_attempt (os:=Sim.os Sim.mortal) 9 SIGINT (Sim.fabricated "jupyter") =
    Some (Run (os:=Sim.os Sim.mortal) (Ret tt) (Sim.fabricated "jupyter")
              [EvPrint (name SIGINT) 9; EvKill 9 (signal SIGINT)]).
Proof.
  apply (terminate_attempt_ignores_missing_process (os:=Sim.os Sim.mortal) 9 SIGINT
           (Sim.fabricated "jupyter")).
  reflexivity.
Defined.

(** X3.  What one ladder costs: with fuel for 21 guard tests
    [terminate_loop] ends, with a boolean or with an exception that
    [os.kill] or [time.sleep] raised, after at least one and at most 4
    signals, at most 66 looks at the process table and at most 66 calls of
    [time.sleep], each for 0.1 seconds. *)
Theorem terminate_loop_cost {os : OS} (fuel : nat) (pid : Z) (w : world os) :
  (21 ≤ fuel)%nat →
  ∃ v w' tr,
    terminate_loop fuel pid w = Some (Run v w' tr) ∧
    passes_on (os:=os) v ∧
    (1 ≤ length (kills tr) ≤ 4)%nat ∧
    (length (polls tr) ≤ 66)%nat ∧ (length (sleeps tr) ≤ 66)%nat ∧
    Forall (λ d, d = step_default) (sleeps tr).
Proof.
  intros Hf. destruct (terminate_loop_ladder fuel pid w Hf) as (v & w' & tr & E & Hl).
  exists v, w', tr. split; [exact E|]. split; [by eapply ladder_passes_on|].
  destruct (ladder_bounds _ _ _ _ _ _ Hl) as (Hk & Hp & Hs & Hd).
  repeat split; try lia. exact Hd.
Qed.

Lemma terminate_loop_cost_witness :
  ∃ v w' tr,
    terminate_loop (os:=Sim.os Sim.immortal) 21 3 (Sim.fabricated "jupyter") =
      Some (Run v w' tr) ∧
    passes_on (os:=Sim.os Sim.immortal) v ∧
    (1 ≤ length (kills tr) ≤ 4)%nat ∧
    (length (polls tr) ≤ 66)%nat ∧ (length (sleeps tr) ≤ 66)%nat ∧
    Forall (λ d, d = step_default) (sleeps tr).
Proof. apply (terminate_loop_cost (os:=Sim.os Sim.immortal)). lia. Defined.

(** X4.  The children [get_child_pid] reports are read off one fresh
    snapshot: they are the child ids of the pairs whose parent is the given
    process, in the order of the table; each of them counts as running in
    that snapshot; and for Python's [None] (no session) there are none. *)
Theorem get_child_pid_reads_one_snapshot {os : OS} (p : option Z) (w : world os) :
  ∃ cs,
    get_child_pid p w = Some (Run (Ret cs) (ps_eo os w).2 [EvPs (ps_eo os w).1]) ∧
    cs `sublist_of` (ps_eo os w).1.*2 ∧
    (∀ c, c ∈ cs ↔ ∃ q, p = Some q ∧ (q, c) ∈ (ps_eo os w).1) ∧
    Forall (λ c, listed c (ps_eo os w).1 = true) cs ∧
    (p = None → cs = []).
Proof.
  exists (children p (ps_eo os w).1). split; [apply get_child_pid_run|].
  assert (Hin : ∀ c, c ∈ children p (ps_eo os w).1 ↔
                     ∃ q, p = Some q ∧ (q, c) ∈ (ps_eo os w).1).
  { intros c. unfold children. rewrite list_elem_of_fmap. split.
    - intros ([q c'] & -> & Hf). apply list_elem_of_filter in Hf as [Hq Hc].
      exists q. simpl in *. by split.
    - intros (q & -> & Hc). exists (q, c). split; [reflexivity|].
      apply list_elem_of_filter. by split. }
  split; [|split; [exact Hin|split]].
  - unfold children. apply fmap_sublist, sublist_filter.
  - apply Forall_forall. intros c Hc. apply Hin in Hc as (q & _ & Hc).
    unfold listed. apply bool_decide_eq_true.
    apply list_elem_of_fmap. by exists (q, c).
  - intros ->. apply children_None.
Qed.

(** X5.  [get_pid] and [check_screen_pid] read the same listing the same
    way: a pid is reported active exactly when some session name resolves
    to it; Python's [None] is never active; and a name resolves to [None]
    exactly when it is not a key of the listing. *)
Theorem get_pid_agrees_with_check_screen_pid {os : OS} (w : world os) (pid : Z) :
  ((∃ module_name, value <$> get_pid module_name w = Some (Ret (Some pid))) ↔
   value <$> check_screen_pid (Some pid) w = Some (Ret true)) ∧
  value <$> check_screen_pid None w = Some (Ret false) ∧
  (∀ module_name,
     value <$> get_pid module_name w = Some (Ret None) ↔
     module_name ∉ dom (screen_ls os w).1).
Proof.
  split; [|split].
  - rewrite check_screen_pid_run. simpl. split.
    + intros (module_name & H). rewrite get_pid_run in H. simpl in H.
      do 2 f_equal. apply hosts_spec. exists module_name. congruence.
    + intros H. assert (hosts (Some pid) (screen_ls os w).1 = true) as Hh by congruence.
      apply hosts_spec in Hh as (module_name & Hm). exists module_name.
      rewrite get_pid_run. simpl. by rewrite Hm.
  - rewrite check_screen_pid_run. simpl. by rewrite hosts_None.
  - intros module_name. rewrite get_pid_run. simpl. rewrite not_elem_of_dom. split.
    + intros H. congruence.
    + intros ->. reflexivity.
Qed.

(** X6.  A session whose name is no key of the module table: [terminate]
    finds the three processes, then raises [KeyError] at the table lookup,
    before the hook and before any signal or command. *)
Theorem terminate_unknown_module_raises_KeyError {os : OS}
    (modules : gmap string (descriptor os)) (fuel : nat) (module_name : string)
    (w : world os) (pid bash_pid main_pid : Z) :
  modules !! module_name = None →
  resolves module_name w pid bash_pid main_pid →
  terminate modules fuel module_name w =
    Some (Run (Raise KeyError) (searched w) (search_trace w)) ∧
  kills (search_trace w) = [] ∧ commands (search_trace w) = [].
Proof.
  intros Hmod Hres. split; [|by split].
  destruct (search_run _ _ _ _ _ Hres) as [Hpid Hfound].
  unfold terminate.
  rewrite (bind_run _ _ _ _ _ _ Hpid), (bind_run _ _ _ _ _ _ Hfound).
  unfold getitem. rewrite Hmod. reflexivity.
Qed.

Lemma terminate_unknown_module_raises_KeyError_witness :
  terminate (os:=Sim.os Sim.mortal) MODULES 21 "svc" (Sim.fabricated "svc") =
    Some (Run (Raise KeyError) (searched (os:=Sim.os Sim.mortal) (Sim.fabricated "svc"))
              (search_trace (os:=Sim.os Sim.mortal) (Sim.fabricated "svc"))) ∧
  kills (search_trace (os:=Sim.os Sim.mortal) (Sim.fabricated "svc")) = [] ∧
  commands (search_trace (os:=Sim.os Sim.mortal) (Sim.fabricated "svc")) = [].
Proof.
  apply (terminate_unknown_module_raises_KeyError (os:=Sim.os Sim.mortal) MODULES 21 "svc"
           (Sim.fabricated "svc") 1 2 3).
  - reflexivity.
  - repeat split; vm_compute; reflexivity.
Defined.

(** X7.  A teardown whose hook sends and runs nothing itself: [terminate]
    ends, with a boolean or with an exception that [os.kill] or [time.sleep]
    raised; its signals go to the service, the clean-up processes and the
    shell, in that order, and to no other process; none of them is SIGINT;
    in all there are at most four times the number of ladders, which is the
    number of clean-up processes plus two (a process that the hook names
    again gets a ladder again); and the only shell command it can run is the
    quit command of the session, which it has run whenever it returns
    true. *)
Theorem terminate_signals_and_commands {os : OS}
    (modules : gmap string (descriptor os)) (fuel : nat) (module_name : string)
    (w : world os) (pid bash_pid main_pid : Z) (module : descriptor os)
    (cleanup_pids : list Z) (w4 : world os) (t4 : list event) :
  (21 ≤ fuel)%nat →
  resolves module_name w pid bash_pid main_pid →
  modules !! module_name = Some module →
  hook_of module main_pid (searched w) = Some (Run (Ret cleanup_pids) w4 t4) →
  kills t4 = [] → commands t4 = [] →
  ∃ v w' tr,
    terminate modules fuel module_name w = Some (Run v w' tr) ∧
    passes_on (os:=os) v ∧
    in_order (kills tr).*1 (main_pid :: cleanup_pids ++ [bash_pid]) ∧
    Forall (λ x : Z * Signals, x.1 ∈ main_pid :: cleanup_pids ++ [bash_pid] ∧
                               x.2 ≠ Signals_SIGINT) (kills tr) ∧
    (length (kills tr) ≤ 4 * (length cleanup_pids + 2))%nat ∧
    (commands tr = [] ∨ commands tr = [quit_command module_name]) ∧
    (v = Ret true → commands tr = [quit_command module_name]).
Proof.
  intros Hf Hres Hmod Hhook Hk4 Hc4.
  destruct (terminate_discipline modules fuel module_name w pid bash_pid main_pid module
              cleanup_pids w4 t4 Hf Hres Hmod Hhook Hk4 Hc4)
    as (v & w' & tr & E & Hp & Ho & Hsig & Hn & Hc & Hq).
  exists v, w', tr. repeat split; try assumption.
  apply Forall_forall. intros x Hx. split.
  - apply in_order_elem_of in Ho. rewrite Forall_forall in Ho.
    apply Ho. by apply list_elem_of_fmap_2.
  - rewrite Forall_forall in Hsig. by apply Hsig.
Qed.

Lemma terminate_signals_and_commands_witness :
  ∃ v w' tr,
    terminate (os:=Sim.os Sim.mortal) MODULES 21 "airflow_webserver"
              (Sim.fabricated "airflow_webserver") = Some (Run v w' tr) ∧
    passes_on (os:=Sim.os Sim.mortal) v ∧
    in_order (kills tr).*1 (3 :: [4] ++ [2]) ∧
    Forall (λ x : Z * Signals, x.1 ∈ 3 :: [4] ++ [2] ∧ x.2 ≠ Signals_SIGINT) (kills tr) ∧
    (length (kills tr) ≤ 4 * (length [4] + 2))%nat ∧
    (commands tr = [] ∨ commands tr = [quit_command "airflow_webserver"]) ∧
    (v = Ret true → commands tr = [quit_command "airflow_webserver"]).
Proof.
  apply (terminate_signals_and_commands (os:=Sim.os Sim.mortal) MODULES 21
           "airflow_webserver" (Sim.fabricated "airflow_webserver") 1 2 3
           {| virtual_env := Some "ds"; command := "airflow webserver";
              cleanup := Some (fun x => do c <- get_child_pid (Some x); ret (take 1 c)) |}
           [4] (Sim.fabricated "airflow_webserver") [EvPs [(1, 2); (2, 3); (3, 4)]]).
  - lia.
  - repeat split; vm_compute; reflexivity.
  - reflexivity.
  - reflexivity.
  - reflexivity.
  - reflexivity.
Defined.

(** X8.  On the script's own table [terminate] raises nothing of its own:
    for every module of [MODULES], every machine and fuel for 21 guard tests
    it ends, with a boolean or with an exception that [os.kill] (other than
    [ProcessLookupError]) or [time.sleep] raised, after at most 12 signals,
    and the only shell command it can have run is the quit command of the
    session. *)
Theorem terminate_MODULES_raises_nothing_of_its_own {os : OS} (fuel : nat)
    (module_name : string) (module : descriptor os) (w : world os) :
  (21 ≤ fuel)%nat →
  MODULES !! module_name = Some module →
  ∃ v w' tr,
    terminate MODULES fuel module_name w = Some (Run v w' tr) ∧
    passes_on (os:=os) v ∧
    (length (kills tr) ≤ 12)%nat ∧
    (commands tr = [] ∨ commands tr = [quit_command module_name]).
Proof. intros Hf Hmod. by eapply terminate_MODULES_total. Qed.

(** The caller may not signal the service: [PermissionError] leaves
    [terminate]. *)
Lemma terminate_MODULES_raises_nothing_of_its_own_witness :
  ∃ v w' tr,
    terminate (os:=Sim.os Sim.guarded) MODULES 21 "mongo" (Sim.fabricated "mongo") =
      Some (Run v w' tr) ∧
    passes_on (os:=Sim.os Sim.guarded) v ∧
    (length (kills tr) ≤ 12)%nat ∧
    (commands tr = [] ∨ commands tr = [quit_command "mongo"]).
Proof.
  apply (terminate_MODULES_raises_nothing_of_its_own (os:=Sim.os Sim.guarded) 21 "mongo"
           {| virtual_env := None; command := "mongo_start.sh"; cleanup := None |}).
  - lia.
  - reflexivity.
Defined.

(** X9.  The processes the script's own table makes [terminate] signal: the
    service, then for [airflow_webserver] the first child the service had
    when the hook looked (before the service was signalled), then the
    shell; for the other modules the service and the shell only.  The run
    ends with a boolean or with an exception of [os.kill] or
    [time.sleep]. *)
Theorem terminate_MODULES_targets {os : OS} (fuel : nat) (module_name : string)
    (module : descriptor os) (w : world os) (pid bash_pid main_pid : Z) :
  (21 ≤ fuel)%nat →
  MODULES !! module_name = Some module →
  resolves module_name w pid bash_pid main_pid →
  let aux := if bool_decide (module_name = "airflow_webserver")
             then take 1 (children (Some main_pid) (ps_eo os (searched w)).1) else [] in
  ∃ v w' tr,
    terminate MODULES fuel module_name w = Some (Run v w' tr) ∧
    passes_on (os:=os) v ∧
    in_order (kills tr).*1 (main_pid :: aux ++ [bash_pid]) ∧
    (length aux ≤ 1)%nat.
Proof.
  intros Hf Hmod Hres aux.
  destruct (MODULES_hook_run module_name module main_pid (searched w) Hmod)
    as (w4 & t4 & Hhook & Hk4 & Hc4). fold aux in Hhook.
  destruct (terminate_discipline MODULES fuel module_name w pid bash_pid main_pid module
              aux w4 t4 Hf Hres Hmod Hhook Hk4 Hc4) as (v & w' & tr & E & Hp & Ho & _).
  exists v, w', tr. split; [exact E|]. split; [exact Hp|]. split; [exact Ho|].
  unfold aux. destruct (bool_decide (module_name = "airflow_webserver")).
  - rewrite length_take. lia.
  - simpl. lia.
Qed.

Lemma terminate_MODULES_targets_witness :
  ∃ v w' tr,
    terminate (os:=Sim.os Sim.mortal) MODULES 21 "airflow_webserver"
              (Sim.fabricated "airflow_webserver") = Some (Run v w' tr) ∧
    passes_on (os:=Sim.os Sim.mortal) v ∧
    in_order (kills tr).*1
      (3 :: (if bool_decide ("airflow_webserver" = "airflow_webserver")
             then take 1 (children (Some 3%Z)
                            (ps_eo (Sim.os Sim.mortal)
                               (searched (os:=Sim.os Sim.mortal)
                                  (Sim.fabricated "airflow_webserver"))).1)
             else []) ++ [2]) ∧
    (length (if bool_decide ("airflow_webserver" = "airflow_webserver")
             then take 1 (children (Some 3%Z)
                            (ps_eo (Sim.os Sim.mortal)
                               (searched (os:=Sim.os Sim.mortal)
                                  (Sim.fabricated "airflow_webserver"))).1)
             else []) ≤ 1)%nat.
Proof.
  apply (terminate_MODULES_targets (os:=Sim.os Sim.mortal) 21 "airflow_webserver"
           {| virtual_env := Some "ds"; command := "airflow webserver";
              cleanup := Some (fun x => do c <- get_child_pid (Some x); ret (take 1 c)) |}
           (Sim.fabricated "airflow_webserver") 1 2 3).
  - lia.
  - reflexivity.
  - repeat split; vm_compute; reflexivity.
Defined.

(** X10.  [terminate] says true only for a session that was listed, only
    after it has run the quit command, and only when the listing it read
    after that command has no session under the pid found at the start.
    This holds for every module table, hook and amount of fuel. *)
Theorem terminate_true_only_if_pid_gone {os : OS}
    (modules : gmap string (descriptor os)) (fuel : nat) (module_name : string)
    (w w' : world os) (tr : list event) :
  terminate modules fuel module_name w = Some (Run (Ret true) w' tr) →
  ∃ pid tr0 listing,
    (screen_ls os w).1 !! module_name = Some pid ∧
    tr = tr0 ++ [EvSystem (quit_command module_name); EvScreenLs listing] ∧
    ∀ session, listing !! session ≠ Some pid.
Proof.
  intros H. apply terminate_true_inv in H as (pid & tr0 & wq & Hpid & -> & _ & Hh).
  exists pid, tr0, (screen_ls os wq).1. split; [exact Hpid|]. split; [reflexivity|].
  intros session Hs. apply not_true_iff_false in Hh. apply Hh.
  apply hosts_spec. by exists session.
Qed.

Lemma terminate_true_only_if_pid_gone_witness :
  ∃ pid tr0 listing,
    (screen_ls (Sim.os Sim.mortal) (Sim.fabricated "jupyter")).1 !! "jupyter" = Some pid ∧
    [EvScreenLs {[ "jupyter" := 1 ]};
     EvPs [(1, 2); (2, 3); (3, 4)]; EvPs [(1, 2); (2, 3); (3, 4)];
     EvPrint "-TERM" 3; EvKill 3 Signals_SIGTERM; EvPs [(1, 2); (3, 4)];
     EvPrint "-TERM" 2; EvKill 2 Signals_SIGTERM; EvPs [(3, 4)];
     EvSystem "screen -S jupyter -X quit"; EvScreenLs ∅] =
      tr0 ++ [EvSystem (quit_command "jupyter"); EvScreenLs listing] ∧
    ∀ session, listing !! session ≠ Some pid.
Proof.
  apply (terminate_true_only_if_pid_gone (os:=Sim.os Sim.mortal) MODULES 21 "jupyter"
           (Sim.fabricated "jupyter")
           {| Sim.procs := [(3, 4)]; Sim.sessions := ∅; Sim.clock := 0 |}).
  apply run_eq; vm_compute; reflexivity.
Defined.

Section LauncherFacts.

Context {os : OS}.

Lemma main_run_eq (r : option (main_run os)) (v : outcome unit) (w : world os)
    (tr : list io) :
  main_value <$> r = Some v → main_final <$> r = Some w → main_trace <$> r = Some tr →
  r = Some (MainRun v w tr).
Proof.
  destruct r as [[v0 w0 t0]|]; simpl; [|discriminate].
  intros Hv Hw Ht. by injection Hv as ->; injection Hw as ->; injection Ht as ->.
Qed.

(** Only [launch] prints to the output stream. *)
Lemma stdout_not_in_os_events (text : string) (tr : list event) :
  IoStdout text ∉ IoOs <$> tr.
Proof. intros H. apply list_elem_of_fmap in H as (e & He & _). discriminate. Qed.

Lemma os_events_app (tr1 tr2 : list io) :
  os_events (tr1 ++ tr2) = os_events tr1 ++ os_events tr2.
Proof. apply omap_app. Qed.

Lemma os_events_fmap (tr : list event) : os_events (IoOs <$> tr) = tr.
Proof. induction tr as [|e tr IH]; [reflexivity|]. simpl. f_equal. exact IH. Qed.

(** What [main] did to the machine when it asked and then tore down: the
    listing, and what [terminate] did. *)
Lemma os_events_teardown (listing : gmap string Z) (notice : string) (asked : io)
    (t3 : list event) (tail : list io) :
  os_events [asked] = [] → os_events tail = [] →
  os_events (((IoOs <$> [EvScreenLs listing]) ++ [IoStderr notice]) ++ [asked] ++
             (IoOs <$> t3) ++ tail) = EvScreenLs listing :: t3.
Proof.
  intros Ha Ht. rewrite !os_events_app, !os_events_fmap, Ha, Ht. simpl.
  by rewrite app_nil_r.
Qed.

Lemma os_events_teardown_raised (listing : gmap string Z) (notice : string) (asked : io)
    (t3 : list event) :
  os_events [asked] = [] →
  os_events (((IoOs <$> [EvScreenLs listing]) ++ [IoStderr notice]) ++ [asked] ++
             (IoOs <$> t3)) = EvScreenLs listing :: t3.
Proof. intros Ha. by rewrite !os_events_app, !os_events_fmap, Ha. Qed.

(** [launch] prints the command line and runs it. *)
Lemma launch_run module_name (module : descriptor os) (pre : list io) (w : world os) :
  launch module_name module pre w =
  Some (MainRun (Ret tt) (os_system os (launch_command module_name module) w).2
          (pre ++ [IoStdout (launch_command module_name module);
                   IoOs (EvSystem (launch_command module_name module))])).
Proof. unfold launch. rewrite system_run. reflexivity. Qed.

End LauncherFacts.

(** X11.  No session of that name: [main] asks nothing and tears nothing
    down; it reads the listing once, prints the command line and runs it. *)
Theorem main_launches_when_absent {os : OS} (tty : TTY os)
    (modules : gmap string (descriptor os)) (fuel : nat) (module_name : string)
    (module : descriptor os) (w : world os) :
  modules !! module_name = Some module →
  (screen_ls os w).1 !! module_name = None →
  let call := launch_command module_name module in
  main tty modules fuel module_name w =
    Some (MainRun (Ret tt) (os_system os call (screen_ls os w).2).2
            [IoOs (EvScreenLs (screen_ls os w).1); IoStdout call; IoOs (EvSystem call)]) ∧
  kills (os_events [IoOs (EvScreenLs (screen_ls os w).1); IoStdout call;
                    IoOs (EvSystem call)]) = [].
Proof.
  intros Hmod Hnone call. split; [|reflexivity].
  unfold main. rewrite Hmod, get_pid_run, Hnone.
  unfold launch. rewrite system_run. reflexivity.
Qed.

Lemma main_launches_when_absent_witness :
  let call := launch_command (os:=Sim.os Sim.mortal) "mongo"
                {| virtual_env := None; command := "mongo_start.sh"; cleanup := None |} in
  main (Console.answers Sim.mortal "n") MODULES 21 "mongo" (Sim.fabricated "jupyter") =
    Some (MainRun (Ret tt)
            (os_system (Sim.os Sim.mortal) call
               (screen_ls (Sim.os Sim.mortal) (Sim.fabricated "jupyter")).2).2
            [IoOs (EvScreenLs (screen_ls (Sim.os Sim.mortal) (Sim.fabricated "jupyter")).1);
             IoStdout call; IoOs (EvSystem call)]) ∧
  kills (os_events
           [IoOs (EvScreenLs (screen_ls (Sim.os Sim.mortal) (Sim.fabricated "jupyter")).1);
            IoStdout call; IoOs (EvSystem call)]) = [].
Proof.
  apply (main_launches_when_absent (Console.answers Sim.mortal "n") MODULES 21 "mongo"
           {| virtual_env := None; command := "mongo_start.sh"; cleanup := None |}
           (Sim.fabricated "jupyter")).
  - reflexivity.
  - reflexivity.
Defined.

(** A trace of [main] that holds events of the machine, lines for the
    error stream and the answer of the user prints nothing. *)
Ltac no_stdout :=
  let text := fresh "text" in
  let H := fresh "H" in
  intros text H; simpl in H;
  repeat (rewrite elem_of_app in H || rewrite elem_of_cons in H || rewrite elem_of_nil in H);
  destruct_or!; try discriminate; try done;
  exfalso; by eapply stdout_not_in_os_events.

(** X12.  A session of that name exists and the user does not confirm (the
    answer, in lower case, is none of the empty line, [y] and [yes]): [main]
    reads the listing, writes its notice to the error stream, reads the
    answer and returns, and that is all it does; it sends no signal, runs no
    command and prints nothing, so the session is neither torn down nor
    started again. *)
Theorem main_declined_touches_nothing {os : OS} (tty : TTY os)
    (modules : gmap string (descriptor os)) (fuel : nat) (module_name : string)
    (module : descriptor os) (w : world os) (pid : Z) (answer : string) :
  modules !! module_name = Some module →
  (screen_ls os w).1 !! module_name = Some pid →
  (tty_input tty prompt (screen_ls os w).2).1 = Ret answer →
  confirms answer = false →
  let tr := [IoOs (EvScreenLs (screen_ls os w).1);
             IoStderr (active_notice module_name);
             IoInput prompt answer] in
  main tty modules fuel module_name w =
    Some (MainRun (Ret tt) (tty_input tty prompt (screen_ls os w).2).2 tr) ∧
  kills (os_events tr) = [] ∧ commands (os_events tr) = [] ∧
  ∀ text, IoStdout text ∉ tr.
Proof.
  intros Hmod Hpid Hanswer Hno tr. unfold main. rewrite Hmod, get_pid_run, Hpid.
  destruct (tty_input tty prompt (screen_ls os w).2) as [result w2].
  simpl in Hanswer. subst result. rewrite Hno.
  split; [reflexivity|]. split; [reflexivity|]. split; [reflexivity|].
  intros text H. unfold tr in H.
  repeat (apply elem_of_cons in H as [H|H]; [discriminate|]).
  by apply elem_of_nil in H.
Qed.

Lemma main_declined_touches_nothing_witness :
  let tr := [IoOs (EvScreenLs (screen_ls (Sim.os Sim.mortal) (Sim.fabricated "jupyter")).1);
             IoStderr (active_notice "jupyter");
             IoInput prompt "No"] in
  main (Console.answers Sim.mortal "No") MODULES 21 "jupyter" (Sim.fabricated "jupyter") =
    Some (MainRun (Ret tt)
            (tty_input (Console.answers Sim.mortal "No") prompt
               (screen_ls (Sim.os Sim.mortal) (Sim.fabricated "jupyter")).2).2 tr) ∧
  kills (os_events tr) = [] ∧ commands (os_events tr) = [] ∧
  ∀ text, IoStdout text ∉ tr.
Proof.
  apply (main_declined_touches_nothing (Console.answers Sim.mortal "No") MODULES 21 "jupyter"
           {| virtual_env := Some "ds"; command := "jupyter notebook"; cleanup := None |}
           (Sim.fabricated "jupyter") 1 "No").
  - reflexivity.
  - reflexivity.
  - reflexivity.
  - reflexivity.
Defined.

(** X13.  When [main] starts a session.  Either the last two things it did
    were to print the command line and to run it, and then no session of
    that name was listed, or the user confirmed and [terminate] returned
    true, which it does only when the listing read after the quit command
    has no session under the pid [terminate] found.  Or it printed nothing,
    a session of that name was listed, and it ran nothing by itself: what it
    did to the machine was to read the listing, and, when the user
    confirmed, what [terminate] did, which then did not return true.  So
    after an answer that declines, an input that fails, and a teardown that
    fails or raises, nothing is started. *)
Theorem main_starts_only_over_no_session {os : OS} (tty : TTY os)
    (modules : gmap string (descriptor os)) (fuel : nat) (module_name : string)
    (module : descriptor os) (w : world os) (r : main_run os) :
  modules !! module_name = Some module →
  main tty modules fuel module_name w = Some r →
  let call := launch_command module_name module in
  let listing := (screen_ls os w).1 in
  let asked := tty_input tty prompt (screen_ls os w).2 in
  ((∃ pre, main_trace r = pre ++ [IoStdout call; IoOs (EvSystem call)]) ∧
   (listing !! module_name = None ∨
    ∃ answer w3 t3 pid tr0 relisting,
      asked.1 = Ret answer ∧ confirms answer = true ∧
      terminate modules fuel module_name asked.2 = Some (Run (Ret true) w3 t3) ∧
      (screen_ls os asked.2).1 !! module_name = Some pid ∧
      t3 = tr0 ++ [EvSystem (quit_command module_name); EvScreenLs relisting] ∧
      ∀ session, relisting !! session ≠ Some pid)) ∨
  ((∀ text, IoStdout text ∉ main_trace r) ∧
   is_Some (listing !! module_name) ∧
   (os_events (main_trace r) = [EvScreenLs listing] ∨
    ∃ answer v w3 t3,
      asked.1 = Ret answer ∧ confirms answer = true ∧
      terminate modules fuel module_name asked.2 = Some (Run v w3 t3) ∧
      v ≠ Ret true ∧
      os_events (main_trace r) = EvScreenLs listing :: t3)).
Proof.
  intros Hmod Hmain call listing asked. unfold main in Hmain.
  rewrite Hmod, get_pid_run in Hmain. fold listing in Hmain.
  destruct (listing !! module_name) as [pid0|] eqn:Hl.
  2:{ left. rewrite launch_run in Hmain. injection Hmain as <-. split; [|by left].
      by exists (IoOs <$> [EvScreenLs listing]). }
  cbv zeta in Hmain. fold asked in Hmain.
  destruct asked as [[answer|e] w2] eqn:Ea; cbn [fst snd].
  - destruct (confirms answer) eqn:Hc.
    + destruct (terminate modules fuel module_name w2) as [[[killed|e] w3 t3]|] eqn:E;
        [| |discriminate].
      * destruct killed; cbn [negb] in Hmain.
        -- left. rewrite launch_run in Hmain. injection Hmain as <-. cbn [main_trace].
           split.
           { by exists (IoOs (EvScreenLs listing) :: IoStderr (active_notice module_name) ::
                        IoInput prompt answer :: (IoOs <$> t3)). }
           right.
           destruct (terminate_true_inv _ _ _ _ _ _ E) as (pid & tr0 & wq & Hpid & -> & _ & Hh).
           eexists answer, w3, _, pid, tr0, (screen_ls os wq).1.
           split; [reflexivity|]. split; [exact Hc|]. split; [reflexivity|].
           split; [exact Hpid|]. split; [reflexivity|].
           intros session Hs. apply not_true_iff_false in Hh. apply Hh.
           apply hosts_spec. by exists session.
        -- right. injection Hmain as <-. cbn [main_trace].
           split; [no_stdout|]. split; [by eexists|].
           right. exists answer, (Ret false), w3, t3.
           split; [reflexivity|]. split; [exact Hc|]. split; [reflexivity|].
           split; [discriminate|].
           exact (os_events_teardown listing _ (IoInput prompt answer) t3
                    [IoStderr failed_notice] eq_refl eq_refl).
      * right. injection Hmain as <-. cbn [main_trace].
        split; [no_stdout|]. split; [by eexists|].
        right. exists answer, (Raise e), w3, t3.
        split; [reflexivity|]. split; [exact Hc|]. split; [reflexivity|].
        split; [discriminate|].
        exact (os_events_teardown_raised listing (active_notice module_name)
                 (IoInput prompt answer) t3 eq_refl).
    + right. injection Hmain as <-. cbn [main_trace].
      split; [no_stdout|]. split; [by eexists|by left].
  - right. injection Hmain as <-. cbn [main_trace].
    split; [no_stdout|]. split; [by eexists|by left].
Qed.

(** The user confirms, the teardown works, and the session is started
    again. *)
Lemma main_starts_only_over_no_session_witness :
  let call := launch_command (os:=Sim.os Sim.mortal) "jupyter"
                {| virtual_env := Some "ds"; command := "jupyter notebook"; cleanup := None |} in
  let listing := (screen_ls (Sim.os Sim.mortal) (Sim.fabricated "jupyter")).1 in
  let asked := tty_input (Console.answers Sim.mortal "y") prompt
                 (screen_ls (Sim.os Sim.mortal) (Sim.fabricated "jupyter")).2 in
  ∃ r,
    main (Console.answers Sim.mortal "y") MODULES 21 "jupyter" (Sim.fabricated "jupyter") =
      Some r ∧
    (((∃ pre, main_trace r = pre ++ [IoStdout call; IoOs (EvSystem call)]) ∧
      (listing !! "jupyter" = None ∨
       ∃ answer w3 t3 pid tr0 relisting,
         asked.1 = Ret answer ∧ confirms answer = true ∧
         terminate (os:=Sim.os Sim.mortal) MODULES 21 "jupyter" asked.2 =
           Some (Run (Ret true) w3 t3) ∧
         (screen_ls (Sim.os Sim.mortal) asked.2).1 !! "jupyter" = Some pid ∧
         t3 = tr0 ++ [EvSystem (quit_command "jupyter"); EvScreenLs relisting] ∧
         ∀ session, relisting !! session ≠ Some pid)) ∨
     ((∀ text, IoStdout text ∉ main_trace r) ∧
      is_Some (listing !! "jupyter") ∧
      (os_events (main_trace r) = [EvScreenLs listing] ∨
       ∃ answer v w3 t3,
         asked.1 = Ret answer ∧ confirms answer = true ∧
         terminate (os:=Sim.os Sim.mortal) MODULES 21 "jupyter" asked.2 =
           Some (Run v w3 t3) ∧
         v ≠ Ret true ∧
         os_events (main_trace r) = EvScreenLs listing :: t3))).
Proof.
  intros call listing asked.
  assert (∃ w' tr,
            main (Console.answers Sim.mortal "y") MODULES 21 "jupyter"
                 (Sim.fabricated "jupyter") = Some (MainRun (Ret tt) w' tr)) as (w' & tr & E)
    by (eexists _, _; apply main_run_eq; vm_compute; reflexivity).
  exists (MainRun (Ret tt) w' tr). split; [exact E|].
  exact (main_starts_only_over_no_session (Console.answers Sim.mortal "y") MODULES 21
           "jupyter"
           {| virtual_env := Some "ds"; command := "jupyter notebook"; cleanup := None |}
           (Sim.fabricated "jupyter") (MainRun (Ret tt) w' tr) eq_refl E).
Defined.

(** X14.  On the script's own table [main] raises nothing of its own: for
    every name, in the table or not, every user and every machine, with fuel
    for 21 guard tests it ends; it returns (Python's [None]) unless
    [input] raised, as it does at the end of the input, or [os.kill] raised
    something other than [ProcessLookupError], or [time.sleep] raised, and
    then that exception leaves [main]. *)
Theorem main_MODULES_raises_nothing_of_its_own {os : OS} (tty : TTY os) (fuel : nat)
    (module_name : string) (w : world os) :
  (21 ≤ fuel)%nat →
  ∃ v w' tr,
    main tty MODULES fuel module_name w = Some (MainRun v w' tr) ∧
    match v with
    | Ret _ => True
    | Raise e => library_raises (os:=os) e ∨ ∃ w0, (tty_input tty prompt w0).1 = Raise e
    end.
Proof.
  intros Hf. unfold main. destruct (MODULES !! module_name) as [module|] eqn:Hmod.
  - rewrite get_pid_run.
    destruct ((screen_ls os w).1 !! module_name) as [pid|].
    + destruct (tty_input tty prompt (screen_ls os w).2) as [[answer|e] w2] eqn:Ea.
      * destruct (confirms answer); [|by eexists (Ret tt), _, _].
        destruct (terminate_MODULES_total fuel module_name module w2 Hf Hmod)
          as (v & w3 & t3 & -> & Hp & _).
        destruct v as [[]|e]; simpl.
        -- rewrite launch_run. by eexists (Ret tt), _, _.
        -- by eexists (Ret tt), _, _.
        -- eexists (Raise e), _, _. split; [reflexivity|]. by left.
      * eexists (Raise e), _, _. split; [reflexivity|]. right.
        exists (screen_ls os w).2. by rewrite Ea.
    + rewrite launch_run. by eexists (Ret tt), _, _.
  - by eexists (Ret tt), _, _.
Qed.

(** The input has ended: [EOFError] leaves [main]. *)
Lemma main_MODULES_raises_nothing_of_its_own_witness :
  ∃ v w' tr,
    main (Console.hangs_up Sim.mortal) MODULES 21 "jupyter" (Sim.fabricated "jupyter") =
      Some (MainRun v w' tr) ∧
    match v with
    | Ret _ => True
    | Raise e => library_raises (os:=Sim.os Sim.mortal) e ∨
                 ∃ w0, (tty_input (Console.hangs_up Sim.mortal) prompt w0).1 = Raise e
    end.
Proof.
  apply (main_MODULES_raises_nothing_of_its_own (Console.hangs_up Sim.mortal) 21 "jupyter"
           (Sim.fabricated "jupyter")).
  lia.
Defined.


(** X21.  A signal that is refused.  When [os.kill] answers the first
    SIGTERM to the service with an exception other than
    [ProcessLookupError] (a process of another user: [PermissionError]),
    the ladder ends there, whatever the fuel: it has printed its line and
    called [os.kill] once, and has neither looked at the process table nor
    slept.  [terminate] ends with the same exception: no other process is
    signalled and no shell command is run, so the session is not quit. *)
Theorem terminate_stops_at_refused_signal {os : OS}
    (modules : gmap string (descriptor os)) (fuel : nat) (module_name : string)
    (w : world os) (pid bash_pid main_pid : Z) (module : descriptor os)
    (cleanup_pids : list Z) (w4 : world os) (t4 : list event) (e : exn) :
  resolves module_name w pid bash_pid main_pid →
  modules !! module_name = Some module →
  hook_of module main_pid (searched w) = Some (Run (Ret cleanup_pids) w4 t4) →
  escapes (os_kill os main_pid Signals_SIGTERM w4).1 = Some e →
  let refused := [EvPrint "-TERM" main_pid; EvKill main_pid Signals_SIGTERM] in
  terminate_loop fuel main_pid w4 =
    Some (Run (Raise e) (os_kill os main_pid Signals_SIGTERM w4).2 refused) ∧
  terminate modules fuel module_name w =
    Some (Run (Raise e) (os_kill os main_pid Signals_SIGTERM w4).2
              (search_trace w ++ t4 ++ refused)) ∧
  kills refused = [(main_pid, Signals_SIGTERM)] ∧
  polls refused = [] ∧ sleeps refused = [] ∧
  commands (search_trace w ++ refused) = [].
Proof.
  intros Hres Hmod Hhook He refused.
  assert (terminate_loop fuel main_pid w4 =
          Some (Run (Raise e) (os_kill os main_pid Signals_SIGTERM w4).2 refused)) as E.
  { unfold terminate_loop. simpl for_in. rewrite !bind_assoc.
    by rewrite (bind_raise _ _ _ _ _ _ (terminate_attempt_raises main_pid SIGTERM w4 e He)). }
  split; [exact E|]. split; [|by repeat split].
  apply (terminate_run modules fuel module_name w pid bash_pid main_pid module
           cleanup_pids w4 t4 (Raise e) _ refused Hres Hmod Hhook).
  by apply sequence_raises.
Qed.

Lemma terminate_stops_at_refused_signal_witness :
  let refused := [EvPrint "-TERM" 3; EvKill 3 Signals_SIGTERM] in
  terminate_loop (os:=Sim.os Sim.guarded) 21 3 (Sim.fabricated "jupyter") =
    Some (Run (os:=Sim.os Sim.guarded) (Raise PermissionError) (Sim.fabricated "jupyter")
              refused) ∧
  terminate (os:=Sim.os Sim.guarded) MODULES 21 "jupyter" (Sim.fabricated "jupyter") =
    Some (Run (os:=Sim.os Sim.guarded) (Raise PermissionError) (Sim.fabricated "jupyter")
              (search_trace (os:=Sim.os Sim.guarded) (Sim.fabricated "jupyter") ++ [] ++
               refused)) ∧
  kills refused = [(3, Signals_SIGTERM)] ∧
  polls refused = [] ∧ sleeps refused = [] ∧
  commands (search_trace (os:=Sim.os Sim.guarded) (Sim.fabricated "jupyter") ++ refused) = [].
Proof.
  apply (terminate_stops_at_refused_signal (os:=Sim.os Sim.guarded) MODULES 21 "jupyter"
           (Sim.fabricated "jupyter") 1 2 3
           {| virtual_env := Some "ds"; command := "jupyter notebook"; cleanup := None |}
           [] (Sim.fabricated "jupyter") [] PermissionError).
  - repeat split; vm_compute; reflexivity.
  - reflexivity.
  - reflexivity.
  - reflexivity.
Defined.

(** X22.  The input fails.  A session of that name exists and [input]
    raises (at the end of the input, [EOFError]): [main] has read the
    listing and written its notice to the error stream, and ends with that
    exception; it sends no signal, runs no command and prints nothing, so
    the session is neither torn down nor started again. *)
Theorem main_input_fails {os : OS} (tty : TTY os)
    (modules : gmap string (descriptor os)) (fuel : nat) (module_name : string)
    (module : descriptor os) (w : world os) (pid : Z) (e : exn) :
  modules !! module_name = Some module →
  (screen_ls os w).1 !! module_name = Some pid →
  (tty_input tty prompt (screen_ls os w).2).1 = Raise e →
  let tr := [IoOs (EvScreenLs (screen_ls os w).1);
             IoStderr (active_notice module_name);
             IoInputRaises prompt e] in
  main tty modules fuel module_name w =
    Some (MainRun (Raise e) (tty_input tty prompt (screen_ls os w).2).2 tr) ∧
  kills (os_events tr) = [] ∧ commands (os_events tr) = [] ∧
  ∀ text, IoStdout text ∉ tr.
Proof.
  intros Hmod Hpid Hraise tr. unfold main. rewrite Hmod, get_pid_run, Hpid.
  destruct (tty_input tty prompt (screen_ls os w).2) as [result w2].
  simpl in Hraise. subst result.
  split; [reflexivity|]. split; [reflexivity|]. split; [reflexivity|].
  intros text H. unfold tr in H.
  repeat (apply elem_of_cons in H as [H|H]; [discriminate|]).
  by apply elem_of_nil in H.
Qed.

Lemma main_input_fails_witness :
  let tr := [IoOs (EvScreenLs (screen_ls (Sim.os Sim.mortal) (Sim.fabricated "jupyter")).1);
             IoStderr (active_notice "jupyter");
             IoInputRaises prompt EOFError] in
  main (Console.hangs_up Sim.mortal) MODULES 21 "jupyter" (Sim.fabricated "jupyter") =
    Some (MainRun (Raise EOFError)
            (tty_input (Console.hangs_up Sim.mortal) prompt
               (screen_ls (Sim.os Sim.mortal) (Sim.fabricated "jupyter")).2).2 tr) ∧
  kills (os_events tr) = [] ∧ commands (os_events tr) = [] ∧
  ∀ text, IoStdout text ∉ tr.
Proof.
  apply (main_input_fails (Console.hangs_up Sim.mortal) MODULES 21 "jupyter"
           {| virtual_env := Some "ds"; command := "jupyter notebook"; cleanup := None |}
           (Sim.fabricated "jupyter") 1 EOFError).
  - reflexivity.
  - reflexivity.
  - reflexivity.
Defined.
(** ** Reading the process listing *)

Section ParseFacts.

Import Parse.

Implicit Types (s run rest tl : list ascii) (c : ascii).

(** The classes of the patterns are told apart character by character. *)
Ltac each_character c :=
  destruct c as [[] [] [] [] [] [] [] []]; vm_compute;
  let H := fresh in intros H; first [discriminate H | reflexivity].

Lemma digit_no_space c : is_digit c = true → is_space c = false.
Proof. each_character c. Qed.

Lemma space_no_digit c : is_space c = true → is_digit c = false.
Proof.
  intros H. destruct (is_digit c) eqn:E; [|reflexivity].
  apply digit_no_space in E. congruence.
Qed.

(** A greedy run: the class takes the whole run when the rest of the
    pattern matches after it. *)
Lemma star_run {R} (cls : ascii → bool) (k : list ascii → list ascii → option R) run :
  ∀ acc rest (r : R),
  Forall (λ c, cls c = true) run →
  match rest with [] => True | c :: _ => cls c = false end →
  k (acc ++ run) rest = Some r →
  star cls k acc (run ++ rest) = Some r.
Proof.
  induction run as [|x run IH]; intros acc rest r Hrun Hrest Hk.
  - rewrite app_nil_r in Hk. simpl. destruct rest as [|c tl]; [exact Hk|].
    simpl. by rewrite Hrest.
  - apply Forall_cons in Hrun as [Hx Hrun]. simpl. rewrite Hx.
    rewrite (IH (acc ++ [x]) rest r Hrun Hrest); [reflexivity|].
    by rewrite <- app_assoc.
Qed.

(** No way to match: the rest of the pattern fails wherever the run is
    cut. *)
Lemma star_fails {R} (cls : ascii → bool) (k : list ascii → list ascii → option R) run :
  ∀ acc rest,
  Forall (λ c, cls c = true) run →
  match rest with [] => True | c :: _ => cls c = false end →
  (∀ acc' run', run' `suffix_of` run → k acc' (run' ++ rest) = None) →
  star cls k acc (run ++ rest) = None.
Proof.
  induction run as [|x run IH]; intros acc rest Hrun Hrest Hk.
  - specialize (Hk acc [] (suffix_nil [])).
    destruct rest as [|c tl]; simpl in *; [exact Hk|]. by rewrite Hrest.
  - apply Forall_cons in Hrun as [Hx Hrun]. simpl. rewrite Hx.
    rewrite (IH (acc ++ [x]) rest Hrun Hrest).
    + apply (Hk acc (x :: run)). reflexivity.
    + intros acc' run' Hs. apply Hk. by apply suffix_cons_r.
Qed.

(** After the leading white space the pattern of [ps] needs a digit. *)
Lemma ps_needs_digit (groups : list (list ascii)) s :
  stops_digits s →
  match_items [mkItem is_digit Plus true; mkItem is_space Plus false;
               mkItem is_digit Plus true] groups s = None.
Proof. destruct s as [|c tl]; simpl; [reflexivity|]. by intros ->. Qed.

Lemma ps_match_fails ws rest :
  Forall (λ c, is_space c = true) ws →
  match rest with [] => True | c :: _ => is_space c = false ∧ is_digit c = false end →
  match_items ps_pattern [] (ws ++ rest) = None.
Proof.
  intros Hws Hrest.
  change (match_items ps_pattern [] (ws ++ rest))
    with (star is_space
            (λ _ s', match_items [mkItem is_digit Plus true; mkItem is_space Plus false;
                                  mkItem is_digit Plus true] [] s')
            [] (ws ++ rest)).
  apply star_fails; [exact Hws|by destruct rest as [|c tl]; [|destruct Hrest]|].
  intros acc' run' Hs. apply ps_needs_digit.
  destruct run' as [|x run'].
  - simpl. destruct rest as [|c tl]; [exact I|by destruct Hrest].
  - simpl. apply space_no_digit.
    assert (x ∈ ws) as Hx by (eapply elem_of_suffix; [apply list_elem_of_here|exact Hs]).
    rewrite Forall_forall in Hws. by apply Hws.
Qed.

(** A line of the listing, after any white space: the match takes the two
    numbers and stops behind the second. *)
Lemma ps_match_line ws parent sp child tl :
  Forall (λ c, is_space c = true) ws →
  parent ≠ [] → Forall (λ c, is_digit c = true) parent →
  sp ≠ [] → Forall (λ c, is_space c = true) sp →
  child ≠ [] → Forall (λ c, is_digit c = true) child →
  stops_digits tl →
  match_items ps_pattern [] (ws ++ parent ++ sp ++ child ++ tl) =
    Some ([parent; child], tl).
Proof.
  intros Hws Hp0 Hp Hs0 Hs Hc0 Hc Htl.
  destruct parent as [|p parent]; [done|]. destruct sp as [|b sp]; [done|].
  destruct child as [|d child]; [done|].
  apply Forall_cons in Hp as [Hp1 Hp], Hs as [Hs1 Hs], Hc as [Hc1 Hc].
  unfold ps_pattern. simpl match_items.
  apply star_run; [exact Hws|by apply digit_no_space|].
  simpl. rewrite Hp1.
  apply (star_run is_digit _ parent [p] ((b :: sp) ++ (d :: child) ++ tl));
    [exact Hp|by apply space_no_digit|].
  simpl. rewrite Hs1.
  apply (star_run is_space _ sp [b] ((d :: child) ++ tl));
    [exact Hs|by apply digit_no_space|].
  simpl. rewrite Hc1.
  apply (star_run is_digit _ child [d] tl); [exact Hc|by destruct tl|].
  reflexivity.
Qed.

(** The search does not depend on the fuel, once there is enough. *)
Lemma findall_from_fuel pattern : ∀ f1 f2 s,
  (length s < f1)%nat → (length s < f2)%nat →
  findall_from f1 pattern s = findall_from f2 pattern s.
Proof.
  induction f1 as [|f1 IH]; intros f2 s H1 H2; [lia|].
  destruct f2 as [|f2]; [lia|]. simpl.
  destruct (match_items pattern [] s) as [[groups rest]|].
  - f_equal. destruct (length rest <? length s)%nat eqn:E.
    + apply Nat.ltb_lt in E. apply IH; lia.
    + destruct s as [|c s']; [reflexivity|]. simpl in *. apply IH; lia.
  - destruct s as [|c s']; [reflexivity|]. simpl in *. apply IH; lia.
Qed.

Lemma findall_from_S pattern fuel s :
  findall_from (S fuel) pattern s =
  match match_items pattern [] s with
  | Some (groups, rest) =>
      groups ::
      (if (length rest <? length s)%nat then findall_from fuel pattern rest
       else match s with
            | [] => []
            | _ :: s' => findall_from fuel pattern s'
            end)
  | None =>
      match s with
      | [] => []
      | _ :: s' => findall_from fuel pattern s'
      end
  end.
Proof. reflexivity. Qed.

Lemma findall_skip pattern c s :
  match_items pattern [] (c :: s) = None →
  findall pattern (c :: s) = findall pattern s.
Proof.
  intros H. unfold findall. rewrite findall_from_S, H.
  apply findall_from_fuel; simpl; lia.
Qed.

Lemma findall_take pattern s groups rest :
  match_items pattern [] s = Some (groups, rest) →
  (length rest < length s)%nat →
  findall pattern s = groups :: findall pattern rest.
Proof.
  intros H Hlen. unfold findall. rewrite findall_from_S, H.
  apply Nat.ltb_lt in Hlen as E. rewrite E. f_equal.
  apply findall_from_fuel; lia.
Qed.

(** A text is white space up to its end, or up to a first character that is
    none. *)
Lemma leading_spaces s :
  ∃ ws rest, s = ws ++ rest ∧ Forall (λ c, is_space c = true) ws ∧ stops_spaces rest.
Proof.
  induction s as [|c s (ws & rest & -> & Hws & Hrest)].
  - by exists [], [].
  - destruct (is_space c) eqn:E.
    + exists (c :: ws), rest. by repeat split; [constructor|].
    + by exists [], (c :: ws ++ rest).
Qed.

(** Text without digits holds no match. *)
Lemma findall_no_digit s :
  Forall (λ c, is_digit c = false) s → findall ps_pattern s = [].
Proof.
  induction s as [|c s IH]; intros H; [reflexivity|].
  rewrite findall_skip; [apply IH; by apply Forall_cons in H as [_ H]|].
  destruct (leading_spaces (c :: s)) as (ws & rest & E & Hws & Hrest).
  rewrite E in H |- *. apply ps_match_fails; [exact Hws|].
  destruct rest as [|x tl]; [exact I|]. split; [exact Hrest|].
  apply Forall_app in H as [_ H]. by apply Forall_cons in H as [H _].
Qed.

(** Text without digits before a line of the listing: the first match is
    that line. *)
Lemma findall_line header : ∀ pad parent sp child tl,
  Forall (λ c, is_digit c = false) header →
  Forall (λ c, is_space c = true) pad →
  parent ≠ [] → Forall (λ c, is_digit c = true) parent →
  sp ≠ [] → Forall (λ c, is_space c = true) sp →
  child ≠ [] → Forall (λ c, is_digit c = true) child →
  stops_digits tl →
  findall ps_pattern (header ++ pad ++ parent ++ sp ++ child ++ tl) =
    [parent; child] :: findall ps_pattern tl.
Proof.
  induction header as [|h header IH]; intros pad parent sp child tl Hh Hpad Hp0 Hp Hs0 Hs Hc0 Hc Htl.
  - simpl. apply findall_take; [by apply ps_match_line|].
    rewrite !length_app. destruct parent; [done|]. simpl. lia.
  - apply Forall_cons in Hh as [Hh1 Hh].
    destruct (leading_spaces (h :: header)) as (ws & rest & E & Hws & Hrest).
    destruct rest as [|x rest].
    + rewrite app_nil_r in E. rewrite E.
      rewrite (app_assoc ws pad). apply findall_take.
      * apply ps_match_line; try assumption. by apply Forall_app.
      * rewrite !length_app. destruct parent; [done|]. simpl. lia.
    + change ((h :: header) ++ pad ++ parent ++ sp ++ child ++ tl)
        with (h :: (header ++ pad ++ parent ++ sp ++ child ++ tl)).
      rewrite findall_skip; [by apply IH|].
      change (h :: (header ++ pad ++ parent ++ sp ++ child ++ tl))
        with ((h :: header) ++ pad ++ parent ++ sp ++ child ++ tl).
      rewrite E, <- app_assoc. apply ps_match_fails; [exact Hws|].
      simpl. split; [exact Hrest|].
      assert (x ∈ h :: header) as Hx by (rewrite E; apply elem_of_app; right; apply list_elem_of_here).
      apply elem_of_cons in Hx as [-> | Hx]; [exact Hh1|].
      rewrite Forall_forall in Hh. by apply Hh.
Qed.

(** Every line of the listing is read. *)
Lemma running_gid_pid_lines (rows : list (nat * list ascii * nat * list ascii)) :
  ∀ header,
  Forall (λ c, is_digit c = false) header →
  Forall ps_row_ok rows →
  running_gid_pid (header ++ concat (ps_line <$> rows)) =
    (λ row, (int row.1.1.2, int row.2)) <$> rows.
Proof.
  induction rows as [|[[[pad1 parent] pad2] child] rows IH]; intros header Hh Hrows.
  - simpl. rewrite app_nil_r. unfold running_gid_pid. by rewrite findall_no_digit.
  - apply Forall_cons in Hrows as [(Hp0 & Hc0 & Hp & Hc) Hrows].
    assert (Hblank : ∀ n, Forall (λ c, is_space c = true) (replicate n " "%char)).
    { intros n. by apply Forall_replicate. }
    unfold running_gid_pid.
    change (concat (ps_line <$> (pad1, parent, pad2, child) :: rows))
      with (ps_line (pad1, parent, pad2, child) ++ concat (ps_line <$> rows)).
    assert (ps_line (pad1, parent, pad2, child) ++ concat (ps_line <$> rows) =
            replicate pad1 " "%char ++ parent ++ replicate (S pad2) " "%char ++ child ++
            (["010"%char] ++ concat (ps_line <$> rows))) as ->.
    { unfold ps_line. by rewrite <- !app_assoc. }
    rewrite findall_line; try assumption; try done; try apply Hblank.
    rewrite fmap_cons. simpl omap. f_equal. apply (IH ["010"%char]); [|exact Hrows].
    by apply Forall_singleton.
Qed.

(** The text without the line feed at its end. *)
Lemma getoutput_app a : ∀ b, b ≠ [] → getoutput (a ++ b) = a ++ getoutput b.
Proof.
  induction a as [|x a IH]; intros b Hb; [reflexivity|].
  simpl. rewrite IH by exact Hb.
  destruct (a ++ b) eqn:E; [|reflexivity].
  apply app_eq_nil in E as [_ E]. contradiction.
Qed.

Lemma getoutput_no_digit s :
  Forall (λ c, is_digit c = false) s → Forall (λ c, is_digit c = false) (getoutput s).
Proof.
  induction s as [|c s IH]; intros H; [constructor|].
  apply Forall_cons in H as [Hc H]. simpl. destruct s as [|d s].
  - destruct (code c =? 10)%nat; [constructor|by apply Forall_singleton].
  - constructor; [exact Hc|by apply IH].
Qed.

(** Every line of the listing is read when the last line feed is missing. *)
Lemma running_gid_pid_lines_getoutput (rows : list (nat * list ascii * nat * list ascii)) :
  ∀ header,
  Forall (λ c, is_digit c = false) header →
  Forall ps_row_ok rows →
  running_gid_pid (getoutput (header ++ concat (ps_line <$> rows))) =
    (λ row, (int row.1.1.2, int row.2)) <$> rows.
Proof.
  induction rows as [|[[[pad1 parent] pad2] child] rows IH]; intros header Hh Hrows.
  - simpl. rewrite app_nil_r. unfold running_gid_pid.
    by rewrite findall_no_digit by (by apply getoutput_no_digit).
  - apply Forall_cons in Hrows as [(Hp0 & Hc0 & Hp & Hc) Hrows].
    assert (Hblank : ∀ n, Forall (λ c, is_space c = true) (replicate n " "%char)).
    { intros n. by apply Forall_replicate. }
    change (concat (ps_line <$> (pad1, parent, pad2, child) :: rows))
      with (ps_line (pad1, parent, pad2, child) ++ concat (ps_line <$> rows)).
    assert (header ++ ps_line (pad1, parent, pad2, child) ++ concat (ps_line <$> rows) =
            (header ++ replicate pad1 " "%char ++ parent ++ replicate (S pad2) " "%char ++
             child) ++ (["010"%char] ++ concat (ps_line <$> rows))) as ->.
    { unfold ps_line. by rewrite <- !app_assoc. }
    rewrite getoutput_app by done. rewrite <- !app_assoc.
    unfold running_gid_pid.
    rewrite findall_line; try assumption; try done; try apply Hblank.
    + rewrite fmap_cons. simpl omap. f_equal. apply (IH ["010"%char]); [|exact Hrows].
      by apply Forall_singleton.
    + destruct (concat (ps_line <$> rows)); [exact I|reflexivity].
Qed.

Lemma int_snoc (digits : list ascii) c :
  int (digits ++ [c]) = 10 * int digits + (Z.of_nat (code c) - 48).
Proof. unfold int. by rewrite fold_left_app. Qed.

Lemma digit_char (d : Z) :
  0 ≤ d < 10 →
  is_digit (ascii_of_nat (Z.to_nat (48 + d))) = true ∧
  Z.of_nat (code (ascii_of_nat (Z.to_nat (48 + d)))) - 48 = d.
Proof.
  intros Hd. unfold is_digit, code. rewrite nat_ascii_embedding by lia. split.
  - apply andb_true_iff. split; apply Nat.leb_le; lia.
  - lia.
Qed.

(** The decimal numeral is not empty, holds digits only, and [int] reads
    the number back. *)
Lemma digits_of_spec fuel : ∀ n : Z,
  (0 ≤ n)%Z → (Z.to_nat n < fuel)%nat →
  digits_of fuel n ≠ [] ∧ Forall (λ c, is_digit c = true) (digits_of fuel n) ∧
  int (digits_of fuel n) = n.
Proof.
  induction fuel as [|fuel IH]; intros n Hn Hf; [lia|].
  simpl. pose proof (Z.mod_pos_bound n 10 ltac:(lia)) as Hm.
  destruct (digit_char (n mod 10) Hm) as [Hd Hv].
  destruct (n <? 10)%Z eqn:E.
  - apply Z.ltb_lt in E. simpl. split; [done|]. split; [by apply Forall_singleton|].
    unfold int. simpl. rewrite Hv. rewrite Z.mod_small; lia.
  - apply Z.ltb_ge in E.
    assert (0 ≤ n / 10 < n) as Hq.
    { split; [apply Z.div_pos; lia|apply Z.div_lt; lia]. }
    destruct (IH (n / 10)) as (_ & Hall & Hint); [lia|lia|].
    split; [by destruct (digits_of fuel (n / 10))|].
    split; [apply Forall_app; split; [exact Hall|by apply Forall_singleton]|].
    rewrite int_snoc, Hint, Hv. pose proof (Z.div_mod n 10 ltac:(lia)). lia.
Qed.

(** ** The pattern of the session listing *)

Lemma dot_no_digit c : is_dot c = true → is_digit c = false.
Proof.
  unfold is_dot, is_digit. intros H. apply Nat.eqb_eq in H. rewrite H. reflexivity.
Qed.

Lemma digit_no_dot c : is_digit c = true → is_dot c = false.
Proof.
  intros H. destruct (is_dot c) eqn:E; [|reflexivity].
  apply dot_no_digit in E. congruence.
Qed.

Lemma space_no_dot c : is_space c = true → is_dot c = false.
Proof. each_character c. Qed.

Lemma space_no_word c : is_space c = true → is_word c = false.
Proof. each_character c. Qed.

(** A text is a run of one class up to its end, or up to a first character
    that is not of the class. *)
Lemma leading (cls : ascii → bool) s :
  ∃ run rest, s = run ++ rest ∧ Forall (λ c, cls c = true) run ∧
              match rest with [] => True | c :: _ => cls c = false end.
Proof.
  induction s as [|c s (run & rest & -> & Hrun & Hrest)].
  - by exists [], [].
  - destruct (cls c) eqn:E.
    + exists (c :: run), rest. by repeat split; [constructor|].
    + by exists [], (c :: run ++ rest).
Qed.

Lemma plain_tail c t : plain (c :: t) = true → plain t = true.
Proof.
  destruct t as [|d t]; [reflexivity|]. simpl. intros H.
  by apply andb_true_iff in H as [_ H].
Qed.

Lemma plain_app_r a : ∀ b, plain (a ++ b) = true → plain b = true.
Proof.
  induction a as [|c a IH]; intros b H; [exact H|].
  apply IH. by apply (plain_tail c).
Qed.

(** Two texts side by side, the second not starting with a dot. *)
Lemma plain_app a : ∀ b,
  plain a = true → plain b = true →
  match b with [] => True | d :: _ => is_dot d = false end →
  plain (a ++ b) = true.
Proof.
  induction a as [|c a IH]; intros b Ha Hb Hd; [exact Hb|].
  destruct a as [|c' a].
  - destruct b as [|d b]; [reflexivity|].
    change (negb (is_digit c && is_dot d) && plain (d :: b) = true).
    rewrite Hd, andb_false_r. exact Hb.
  - change (negb (is_digit c && is_dot c') && plain ((c' :: a) ++ b) = true).
    change (negb (is_digit c && is_dot c') && plain (c' :: a) = true) in Ha.
    apply andb_true_iff in Ha as [H1 H2]. rewrite H1. by apply IH.
Qed.

(** A text after a character that is no digit. *)
Lemma plain_cons c t : is_digit c = false → plain t = true → plain (c :: t) = true.
Proof.
  intros Hc Ht. destruct t as [|d t]; [reflexivity|].
  change (negb (is_digit c && is_dot d) && plain (d :: t) = true).
  by rewrite Hc, Ht.
Qed.

(** In a plain text no dot follows a run of digits. *)
Lemma plain_digits ds : ∀ y r,
  ds ≠ [] → Forall (λ c, is_digit c = true) ds →
  plain (ds ++ y :: r) = true → is_dot y = false.
Proof.
  induction ds as [|d ds IH]; intros y r H0 Hds H; [done|].
  apply Forall_cons in Hds as [Hd Hds]. destruct ds as [|d' ds].
  - change (negb (is_digit d && is_dot y) && plain (y :: r) = true) in H.
    apply andb_true_iff in H as [H _]. rewrite Hd in H.
    by destruct (is_dot y).
  - apply (IH y r); [done|exact Hds|]. by apply (plain_tail d).
Qed.

(** After the white space the pattern needs digits and then a dot. *)
Lemma screen_needs_dot (groups : list (list ascii)) ds rest :
  Forall (λ c, is_digit c = true) ds →
  match rest with
  | [] => True
  | c :: _ => is_digit c = false ∧ (ds ≠ [] → is_dot c = false)
  end →
  match_items [mkItem is_digit Plus true; mkItem is_dot One false;
               mkItem is_word Plus true; mkItem is_space Plus false]
              groups (ds ++ rest) = None.
Proof.
  intros Hds Hrest. destruct ds as [|d ds].
  - destruct rest as [|c tl]; [reflexivity|]. destruct Hrest as [Hc _].
    simpl. by rewrite Hc.
  - apply Forall_cons in Hds as [Hd Hds].
    change (match_items [mkItem is_digit Plus true; mkItem is_dot One false;
                         mkItem is_word Plus true; mkItem is_space Plus false]
                        groups ((d :: ds) ++ rest))
      with (if is_digit d
            then star is_digit
                   (λ acc s', match_items [mkItem is_dot One false; mkItem is_word Plus true;
                                           mkItem is_space Plus false]
                                          (groups ++ [acc]) s')
                   [d] (ds ++ rest)
            else None).
    rewrite Hd. apply star_fails; [exact Hds|by destruct rest as [|c tl]; [|destruct Hrest]|].
    intros acc' run' Hs. destruct run' as [|x run'].
    + destruct rest as [|c tl]; [reflexivity|]. destruct Hrest as [_ Hc].
      simpl. by rewrite Hc.
    + assert (x ∈ ds) as Hx by (eapply elem_of_suffix; [apply list_elem_of_here|exact Hs]).
      rewrite Forall_forall in Hds. simpl. by rewrite (digit_no_dot x (Hds x Hx)).
Qed.

(** No match where white space and digits are not followed by a dot. *)
Lemma screen_match_fails ws ds rest :
  Forall (λ c, is_space c = true) ws →
  Forall (λ c, is_digit c = true) ds →
  match rest with
  | [] => True
  | c :: _ => is_digit c = false ∧ (ds = [] → is_space c = false) ∧
              (ds ≠ [] → is_dot c = false)
  end →
  match_items screen_pattern [] (ws ++ ds ++ rest) = None.
Proof.
  intros Hws Hds Hrest.
  assert (Hhead : match ds ++ rest with [] => True | c :: _ => is_space c = false end).
  { destruct ds as [|d ds].
    - destruct rest as [|c tl]; [exact I|]. by apply Hrest.
    - apply Forall_cons in Hds as [Hd _]. by apply digit_no_space. }
  destruct ws as [|b ws].
  - simpl app. destruct (ds ++ rest) as [|c tl]; [reflexivity|].
    unfold screen_pattern. simpl. by rewrite Hhead.
  - apply Forall_cons in Hws as [Hb Hws].
    change (match_items screen_pattern [] ((b :: ws) ++ ds ++ rest))
      with (if is_space b
            then star is_space
                   (λ _ s', match_items [mkItem is_digit Plus true; mkItem is_dot One false;
                                         mkItem is_word Plus true; mkItem is_space Plus false]
                                        [] s')
                   [b] (ws ++ ds ++ rest)
            else None).
    rewrite Hb. apply star_fails; [exact Hws|exact Hhead|].
    intros acc' run' Hs. destruct run' as [|x run'].
    + apply (screen_needs_dot _ ds rest); [exact Hds|].
      destruct rest as [|c tl]; [exact I|]. destruct Hrest as (H1 & _ & H3). by split.
    + assert (x ∈ ws) as Hx by (eapply elem_of_suffix; [apply list_elem_of_here|exact Hs]).
      rewrite Forall_forall in Hws. simpl. by rewrite (space_no_digit x (Hws x Hx)).
Qed.

(** A line of the listing: the match takes the pid and the name and stops
    behind the white space after the name. *)
Lemma screen_match_line ws pid name sp tl :
  ws ≠ [] → Forall (λ c, is_space c = true) ws →
  pid ≠ [] → Forall (λ c, is_digit c = true) pid →
  name ≠ [] → Forall (λ c, is_word c = true) name →
  sp ≠ [] → Forall (λ c, is_space c = true) sp →
  stops_spaces tl →
  match_items screen_pattern [] (ws ++ pid ++ "."%char :: name ++ sp ++ tl) =
    Some ([pid; name], tl).
Proof.
  intros Hw0 Hw Hp0 Hp Hn0 Hn Hs0 Hs Htl.
  destruct ws as [|b ws]; [done|]. destruct pid as [|p pid]; [done|].
  destruct name as [|n name]; [done|]. destruct sp as [|a sp]; [done|].
  apply Forall_cons in Hw as [Hw1 Hw], Hp as [Hp1 Hp], Hn as [Hn1 Hn], Hs as [Hs1 Hs].
  unfold screen_pattern. simpl match_items. rewrite Hw1.
  apply (star_run is_space _ ws [b] ((p :: pid) ++ "."%char :: (n :: name) ++ (a :: sp) ++ tl));
    [exact Hw|by apply digit_no_space|].
  simpl. rewrite Hp1.
  apply (star_run is_digit _ pid [p] ("."%char :: (n :: name) ++ (a :: sp) ++ tl));
    [exact Hp|reflexivity|].
  simpl. rewrite Hn1.
  apply (star_run is_word _ name [n] ((a :: sp) ++ tl)); [exact Hn|by apply space_no_word|].
  simpl. rewrite Hs1.
  apply (star_run is_space _ sp [a] tl); [exact Hs|by destruct tl|].
  reflexivity.
Qed.

(** No match starts in a plain text that holds a character other than white
    space, or that ends the listing. *)
Lemma screen_plain_fails t next :
  plain t = true →
  next = [] ∨ Exists (λ c, is_space c = false) t →
  match next with [] => True | p :: _ => is_digit p = false ∧ is_dot p = false end →
  match_items screen_pattern [] (t ++ next) = None.
Proof.
  intros Ht Hn Hnext.
  destruct (leading is_space t) as (ws & r1 & E & Hws & Hr1).
  destruct (leading is_digit r1) as (ds & r2 & E2 & Hds & Hr2).
  rewrite E, E2 in Ht |- *. rewrite <- !app_assoc.
  apply screen_match_fails; [exact Hws|exact Hds|].
  destruct r2 as [|y r2].
  - simpl. destruct next as [|p next]; [exact I|]. destruct Hnext as [H1 H2].
    split; [exact H1|]. split; [|done].
    intros ->. destruct Hn as [Hn|Hn]; [done|].
    rewrite E, E2, app_nil_r in Hn. apply Exists_exists in Hn as (x & Hx & Hx').
    rewrite Forall_forall in Hws. rewrite (Hws x Hx) in Hx'. discriminate.
  - simpl. split; [exact Hr2|]. split.
    + intros ->. rewrite E2 in Hr1. exact Hr1.
    + intros H0. apply (plain_digits ds y r2 H0 Hds). by apply (plain_app_r ws).
Qed.

(** Plain text at the end of the listing holds no match. *)
Lemma findall_plain t : plain t = true → findall screen_pattern t = [].
Proof.
  induction t as [|c t IH]; intros H; [reflexivity|].
  rewrite findall_skip; [apply IH; by apply (plain_tail c)|].
  rewrite <- (app_nil_r (c :: t)). apply screen_plain_fails; [exact H|by left|exact I].
Qed.

(** Plain text before a line of the listing: the first match is that
    line. *)
Lemma findall_session t : ∀ pad pid name sp tl,
  plain t = true →
  pad ≠ [] → Forall (λ c, is_space c = true) pad →
  pid ≠ [] → Forall (λ c, is_digit c = true) pid →
  name ≠ [] → Forall (λ c, is_word c = true) name →
  sp ≠ [] → Forall (λ c, is_space c = true) sp →
  stops_spaces tl →
  findall screen_pattern (t ++ pad ++ pid ++ "."%char :: name ++ sp ++ tl) =
    [pid; name] :: findall screen_pattern tl.
Proof.
  induction t as [|h t IH]; intros pad pid name sp tl Ht Hd0 Hd Hp0 Hp Hn0 Hn Hs0 Hs Htl.
  - simpl. apply findall_take; [by apply screen_match_line|].
    rewrite !length_app. simpl. rewrite !length_app. destruct pad; [done|]. simpl. lia.
  - destruct (decide (Forall (λ c, is_space c = true) (h :: t))) as [Hall|Hsome].
    + rewrite (app_assoc (h :: t) pad). apply findall_take.
      * apply screen_match_line; try assumption; [done|by apply Forall_app].
      * rewrite !length_app. simpl. rewrite !length_app. simpl. lia.
    + change ((h :: t) ++ pad ++ pid ++ "."%char :: name ++ sp ++ tl)
        with (h :: (t ++ pad ++ pid ++ "."%char :: name ++ sp ++ tl)).
      rewrite findall_skip; [apply IH; try assumption; by apply (plain_tail h)|].
      change (h :: (t ++ pad ++ pid ++ "."%char :: name ++ sp ++ tl))
        with ((h :: t) ++ pad ++ pid ++ "."%char :: name ++ sp ++ tl).
      apply screen_plain_fails; [exact Ht| |].
      * right. apply not_Forall_Exists in Hsome; [|intros x; apply _].
        eapply Exists_impl; [exact Hsome|]. intros x Hx. simpl in Hx.
        by destruct (is_space x).
      * destruct pad as [|p pad]; [done|]. apply Forall_cons in Hd as [Hp1 _].
        simpl. split; [by apply space_no_digit|by apply space_no_dot].
Qed.

(** The numeral of a pid. *)
Lemma decimal_spec (n : Z) :
  (0 ≤ n)%Z →
  decimal n ≠ [] ∧ Forall (λ c, is_digit c = true) (decimal n) ∧ int (decimal n) = n.
Proof. intros Hn. apply digits_of_spec; lia. Qed.

Lemma word_no_space c : is_word c = true → is_space c = false.
Proof.
  intros H. destruct (is_space c) eqn:E; [|reflexivity].
  apply space_no_word in E. congruence.
Qed.

Lemma is_name_spec name :
  is_name name = true → name ≠ [] ∧ Forall (λ c, is_word c = true) name.
Proof.
  destruct name as [|c name]; [done|]. intros H. split; [done|].
  apply Forall_forall. intros x Hx. unfold is_name in H.
  rewrite forallb_forall in H. apply H. by apply list_elem_of_In.
Qed.

(** The pattern starts with white space. *)
Lemma screen_needs_space s : stops_spaces s → match_items screen_pattern [] s = None.
Proof.
  destruct s as [|c s]; [reflexivity|]. simpl. intros H.
  unfold screen_pattern. simpl. by rewrite H.
Qed.

(** No match at a session whose name does not end where its word characters
    end. *)
Lemma screen_match_bad ws pid w rest :
  Forall (λ c, is_space c = true) ws →
  Forall (λ c, is_digit c = true) pid →
  Forall (λ c, is_word c = true) w →
  match rest with
  | [] => True
  | c :: _ => is_word c = false ∧ (w ≠ [] → is_space c = false)
  end →
  match_items screen_pattern [] (ws ++ pid ++ "."%char :: w ++ rest) = None.
Proof.
  intros Hws Hpid Hw Hrest.
  assert (Hname : ∀ groups,
            match_items [mkItem is_word Plus true; mkItem is_space Plus false]
                        groups (w ++ rest) = None).
  { intros groups. destruct w as [|n w].
    - destruct rest as [|c tl]; [reflexivity|]. destruct Hrest as [Hc _].
      simpl. by rewrite Hc.
    - apply Forall_cons in Hw as [Hn Hw].
      change (match_items [mkItem is_word Plus true; mkItem is_space Plus false]
                          groups ((n :: w) ++ rest))
        with (if is_word n
              then star is_word
                     (λ acc s', match_items [mkItem is_space Plus false] (groups ++ [acc]) s')
                     [n] (w ++ rest)
              else None).
      rewrite Hn. apply star_fails; [exact Hw|by destruct rest as [|c tl]; [|destruct Hrest]|].
      intros acc' run' Hs. destruct run' as [|x run'].
      + destruct rest as [|c tl]; [reflexivity|]. destruct Hrest as [_ Hc].
        simpl. by rewrite Hc.
      + assert (x ∈ w) as Hx by (eapply elem_of_suffix; [apply list_elem_of_here|exact Hs]).
        rewrite Forall_forall in Hw. simpl. by rewrite (word_no_space x (Hw x Hx)). }
  assert (Hdigits : ∀ groups,
            match_items [mkItem is_digit Plus true; mkItem is_dot One false;
                         mkItem is_word Plus true; mkItem is_space Plus false]
                        groups (pid ++ "."%char :: w ++ rest) = None).
  { intros groups. destruct pid as [|d pid]; [reflexivity|].
    apply Forall_cons in Hpid as [Hd Hpid].
    change (match_items [mkItem is_digit Plus true; mkItem is_dot One false;
                         mkItem is_word Plus true; mkItem is_space Plus false]
                        groups ((d :: pid) ++ "."%char :: w ++ rest))
      with (if is_digit d
            then star is_digit
                   (λ acc s', match_items [mkItem is_dot One false; mkItem is_word Plus true;
                                           mkItem is_space Plus false]
                                          (groups ++ [acc]) s')
                   [d] (pid ++ "."%char :: w ++ rest)
            else None).
    rewrite Hd. apply star_fails; [exact Hpid|reflexivity|].
    intros acc' run' Hs. destruct run' as [|x run'].
    + apply Hname.
    + assert (x ∈ pid) as Hx by (eapply elem_of_suffix; [apply list_elem_of_here|exact Hs]).
      rewrite Forall_forall in Hpid. simpl. by rewrite (digit_no_dot x (Hpid x Hx)). }
  destruct ws as [|b ws].
  - apply screen_needs_space. destruct pid as [|d pid]; [reflexivity|].
    apply Forall_cons in Hpid as [Hd _]. by apply digit_no_space.
  - apply Forall_cons in Hws as [Hb Hws].
    change (match_items screen_pattern [] ((b :: ws) ++ pid ++ "."%char :: w ++ rest))
      with (if is_space b
            then star is_space
                   (λ _ s', match_items [mkItem is_digit Plus true; mkItem is_dot One false;
                                         mkItem is_word Plus true; mkItem is_space Plus false]
                                        [] s')
                   [b] (ws ++ pid ++ "."%char :: w ++ rest)
            else None).
    rewrite Hb. apply star_fails; [exact Hws| |].
    + destruct pid as [|d pid]; [reflexivity|].
      apply Forall_cons in Hpid as [Hd _]. by apply digit_no_space.
    + intros acc' run' Hs. destruct run' as [|x run'].
      * apply Hdigits.
      * assert (x ∈ ws) as Hx by (eapply elem_of_suffix; [apply list_elem_of_here|exact Hs]).
        rewrite Forall_forall in Hws. simpl. by rewrite (space_no_digit x (Hws x Hx)).
Qed.

(** A name that is no word, and holds no white space, does not end where its
    word characters end. *)
Lemma bad_name name next :
  is_name name = false → Forall (λ c, is_space c = false) name →
  match next with [] => True | c :: _ => is_space c = true end →
  ∃ w rest, name ++ next = w ++ rest ∧ Forall (λ c, is_word c = true) w ∧
            match rest with
            | [] => True
            | c :: _ => is_word c = false ∧ (w ≠ [] → is_space c = false)
            end.
Proof.
  intros Hbad Hname Hnext.
  destruct (leading is_word name) as (w & r & E & Hw & Hr).
  destruct r as [|c r].
  - rewrite app_nil_r in E. subst w.
    assert (name = []) as ->.
    { destruct name as [|n name]; [done|]. exfalso.
      unfold is_name in Hbad. apply not_true_iff_false in Hbad. apply Hbad.
      apply forallb_forall. intros x Hx. apply list_elem_of_In in Hx.
      rewrite Forall_forall in Hw. by apply Hw. }
    exists [], next. split; [done|]. split; [done|].
    destruct next as [|c tl]; [exact I|]. split; [by apply space_no_word|done].
  - exists w, (c :: r ++ next). split; [by rewrite E, <- app_assoc|].
    split; [exact Hw|]. split; [exact Hr|]. intros _.
    rewrite Forall_forall in Hname. apply Hname. rewrite E.
    apply elem_of_app. right. apply list_elem_of_here.
Qed.

(** Characters that are no white space start no match. *)
Lemma findall_skip_text a : ∀ b,
  Forall (λ c, is_space c = false) a →
  findall screen_pattern (a ++ b) = findall screen_pattern b.
Proof.
  induction a as [|c a IH]; intros b Ha; [reflexivity|].
  apply Forall_cons in Ha as [Hc Ha]. simpl.
  rewrite findall_skip; [by apply IH|]. by apply screen_needs_space.
Qed.

(** White space before a character that is neither one nor a digit starts
    no match. *)
Lemma findall_skip_spaces sp : ∀ tl,
  Forall (λ c, is_space c = true) sp →
  match tl with [] => True | c :: _ => is_space c = false ∧ is_digit c = false end →
  findall screen_pattern (sp ++ tl) = findall screen_pattern tl.
Proof.
  induction sp as [|c sp IH]; intros tl Hsp Htl; [reflexivity|].
  simpl. rewrite findall_skip; [apply IH; [by apply Forall_cons in Hsp as [_ H]|exact Htl]|].
  change (c :: sp ++ tl) with ((c :: sp) ++ [] ++ tl).
  apply screen_match_fails; [exact Hsp|done|].
  destruct tl as [|x tl]; [exact I|]. destruct Htl as [H1 H2]. by repeat split.
Qed.

(** A session whose name is no word is passed over. *)
Lemma findall_bad_session t : ∀ pad pid name sp tl,
  plain t = true →
  pad ≠ [] → Forall (λ c, is_space c = true) pad →
  pid ≠ [] → Forall (λ c, is_digit c = true) pid →
  is_name name = false → Forall (λ c, is_space c = false) name →
  sp ≠ [] → Forall (λ c, is_space c = true) sp →
  match tl with [] => True | c :: _ => is_space c = false ∧ is_digit c = false end →
  findall screen_pattern (t ++ pad ++ pid ++ "."%char :: name ++ sp ++ tl) =
    findall screen_pattern tl.
Proof.
  intros pad pid name sp tl Ht Hd0 Hd Hp0 Hp Hbad Hname Hs0 Hs Htl.
  destruct (bad_name name (sp ++ tl) Hbad Hname) as (w & rest & E & Hw & Hrest).
  { destruct sp as [|a sp]; [done|]. by apply Forall_cons in Hs as [Hs _]. }
  assert (Hline : findall screen_pattern (pad ++ pid ++ "."%char :: name ++ sp ++ tl) =
                  findall screen_pattern tl).
  { transitivity (findall screen_pattern (pid ++ "."%char :: name ++ sp ++ tl)).
    - clear Hd0. induction pad as [|p pad IH]; [reflexivity|].
      simpl. rewrite findall_skip; [apply IH; by apply Forall_cons in Hd as [_ H]|].
      change (p :: pad ++ pid ++ "."%char :: name ++ sp ++ tl)
        with ((p :: pad) ++ pid ++ "."%char :: name ++ sp ++ tl).
      rewrite E. by apply screen_match_bad.
    - replace (pid ++ "."%char :: name ++ sp ++ tl)
        with ((pid ++ ["."%char] ++ name) ++ sp ++ tl) by (by rewrite <- !app_assoc).
      rewrite findall_skip_text; [by apply findall_skip_spaces|].
      apply Forall_app. split; [|apply Forall_app; split; [|exact Hname]].
      + eapply Forall_impl; [exact Hp|]. intros x. apply digit_no_space.
      + by apply Forall_singleton. }
  rewrite <- Hline. clear Hline.
  induction t as [|h t IH]; [reflexivity|].
  change ((h :: t) ++ pad ++ pid ++ "."%char :: name ++ sp ++ tl)
    with (h :: (t ++ pad ++ pid ++ "."%char :: name ++ sp ++ tl)).
  rewrite findall_skip; [apply IH; by apply (plain_tail h)|].
  change (h :: (t ++ pad ++ pid ++ "."%char :: name ++ sp ++ tl))
    with ((h :: t) ++ pad ++ pid ++ "."%char :: name ++ sp ++ tl).
  destruct (decide (Forall (λ c, is_space c = true) (h :: t))) as [Hall|Hsome].
  - rewrite (app_assoc (h :: t) pad), E. apply screen_match_bad; try assumption.
    by apply Forall_app.
  - apply screen_plain_fails; [exact Ht| |].
    + right. apply not_Forall_Exists in Hsome; [|intros x; apply _].
      eapply Exists_impl; [exact Hsome|]. intros x Hx. simpl in Hx.
      by destruct (is_space x).
    + destruct pad as [|p pad]; [done|]. apply Forall_cons in Hd as [Hp1 _].
      simpl. split; [by apply space_no_digit|by apply space_no_dot].
Qed.

(** Every line of the session listing is read; the sessions whose names are
    words are found. *)
Lemma findall_session_lines (rows : list (Z * list ascii * list ascii)) :
  ∀ header footer,
  plain header = true → Forall session_row_ok rows → plain footer = true →
  findall screen_pattern
    (header ++ ["010"%char] ++ concat (session_line <$> rows) ++ footer) =
    (λ row, [decimal row.1.1; row.1.2]) <$>
      filter (λ row, is_name row.1.2 = true) rows.
Proof.
  induction rows as [|[[pid name] state] rows IH]; intros header footer Hh Hrows Hf.
  - simpl. apply findall_plain. apply plain_app; [exact Hh| |reflexivity].
    by apply plain_cons.
  - apply Forall_cons in Hrows as [(Hpid & Hname & Hst) Hrows].
    destruct (decimal_spec pid Hpid) as (Hd0 & Hd & _).
    rewrite fmap_cons, concat_cons.
    assert (header ++ ["010"%char] ++
              (session_line (pid, name, state) ++ concat (session_line <$> rows)) ++ footer =
            (header ++ ["010"%char]) ++ ["009"%char] ++ decimal pid ++ "."%char :: name ++
              ["009"%char] ++
              (("("%char :: state ++ [")"%char]) ++ ["010"%char] ++
               concat (session_line <$> rows) ++ footer)) as ->.
    { unfold session_line. rewrite <- !app_assoc. simpl. by rewrite <- !app_assoc. }
    assert (Hnext : plain ("("%char :: state ++ [")"%char]) = true).
    { apply plain_cons; [reflexivity|]. by apply plain_app. }
    assert (Hhead : plain (header ++ ["010"%char]) = true) by by apply plain_app.
    destruct (is_name name) eqn:Hgood.
    + rewrite filter_cons_True by exact Hgood. rewrite fmap_cons.
      destruct (is_name_spec name Hgood) as [Hn0 Hn].
      rewrite findall_session; try assumption; try done.
      * f_equal. by apply IH.
      * by apply Forall_singleton.
      * by apply Forall_singleton.
    + rewrite filter_cons_False by (simpl; congruence).
      rewrite findall_bad_session; try assumption; try done.
      * by apply IH.
      * by apply Forall_singleton.
      * by apply Forall_singleton.
Qed.

(** The matches of the session listing as [findall] returns them: pairs
    of texts. *)
Lemma session_matches_lines (header footer : list ascii)
    (rows : list (Z * list ascii * list ascii)) :
  plain header = true → Forall session_row_ok rows → plain footer = true →
  session_matches (header ++ ["010"%char] ++ concat (session_line <$> rows) ++ footer) =
    (λ row : Z * list ascii * list ascii,
       (String.string_of_list_ascii (decimal row.1.1),
        String.string_of_list_ascii row.1.2)) <$>
      filter (λ row, is_name row.1.2 = true) rows.
Proof.
  intros Hh Hrows Hf. unfold session_matches.
  rewrite findall_session_lines by assumption.
  induction (filter (λ row, is_name row.1.2 = true) rows) as [|row l IH]; [reflexivity|].
  rewrite !fmap_cons. simpl. f_equal. exact IH.
Qed.

(** ** The dictionary of the sessions *)

Lemma sessions_dict_snoc (order : list (string * string)) xy :
  sessions_dict (order ++ [xy]) = <[xy.2 := xy.1]> (sessions_dict order).
Proof. unfold sessions_dict. by rewrite foldl_app. Qed.

(** What the dictionary holds was matched. *)
Lemma sessions_dict_elem (order : list (string * string)) :
  ∀ name pid, sessions_dict order !! name = Some pid → (pid, name) ∈ order.
Proof.
  induction order as [|[p n] order IH] using rev_ind; intros name pid H.
  - unfold sessions_dict in H. simpl in H. by rewrite lookup_empty in H.
  - rewrite sessions_dict_snoc in H. simpl in H. apply elem_of_app.
    destruct (decide (n = name)) as [->|Hne].
    + rewrite lookup_insert_eq in H. injection H as ->. right. apply list_elem_of_here.
    + rewrite lookup_insert_ne in H by done. left. by apply IH.
Qed.

(** Every name matched is a key. *)
Lemma sessions_dict_key (order : list (string * string)) :
  ∀ name pid, (pid, name) ∈ order → is_Some (sessions_dict order !! name).
Proof.
  induction order as [|[p n] order IH] using rev_ind; intros name pid H.
  - by apply elem_of_nil in H.
  - rewrite sessions_dict_snoc. simpl.
    destruct (decide (n = name)) as [->|Hne].
    + rewrite lookup_insert_eq. by eexists.
    + rewrite lookup_insert_ne by done.
      apply elem_of_app in H as [H|H]; [by eapply IH|].
      apply list_elem_of_singleton in H. congruence.
Qed.

(** With one pid for each name the dictionary is the set of matches. *)
Lemma sessions_dict_unique (order : list (string * string)) :
  (∀ p1 p2 name, (p1, name) ∈ order → (p2, name) ∈ order → p1 = p2) →
  ∀ name pid, sessions_dict order !! name = Some pid ↔ (pid, name) ∈ order.
Proof.
  intros Hu name pid. split; [apply sessions_dict_elem|].
  intros H. destruct (sessions_dict_key order name pid H) as [p Hp].
  rewrite Hp. f_equal. apply (Hu p pid name); [by apply sessions_dict_elem|exact H].
Qed.

Lemma NoDup_fmap_elem {A B} (f : A → B) (l : list A) x y :
  NoDup (f <$> l) → x ∈ l → y ∈ l → f x = f y → x = y.
Proof.
  induction l as [|a l IH]; intros Hn Hx Hy E; [by apply elem_of_nil in Hx|].
  rewrite fmap_cons in Hn. apply NoDup_cons in Hn as [Ha Hn].
  apply elem_of_cons in Hx as [->|Hx], Hy as [->|Hy].
  - reflexivity.
  - exfalso. apply Ha. rewrite E. apply list_elem_of_fmap. by exists y.
  - exfalso. apply Ha. rewrite <- E. apply list_elem_of_fmap. by exists x.
  - by apply IH.
Qed.

End ParseFacts.

(** X15.  The listing of [ps] is read back: after any text without digits
    (the header line), lines that hold a parent id and a process id in
    decimal, padded and separated by blanks, give exactly the pairs of these
    numbers, in the order of the lines; and so they do as
    [subprocess.getoutput] hands them over, without the line feed of the
    last line.  Text without any digit gives no pair. *)
Theorem running_gid_pid_reads_the_table (header : list ascii)
    (rows : list (nat * Z * nat * Z)) :
  Forall (λ c, Parse.is_digit c = false) header →
  Forall (λ row : nat * Z * nat * Z, (0 ≤ row.1.1.2)%Z ∧ (0 ≤ row.2)%Z) rows →
  Parse.running_gid_pid
    (header ++
     concat ((λ row : nat * Z * nat * Z,
                Parse.ps_line (row.1.1.1, Parse.decimal row.1.1.2, row.1.2,
                               Parse.decimal row.2)) <$> rows)) =
    (λ row : nat * Z * nat * Z, (row.1.1.2, row.2)) <$> rows ∧
  Parse.running_gid_pid
    (Parse.getoutput
       (header ++
        concat ((λ row : nat * Z * nat * Z,
                   Parse.ps_line (row.1.1.1, Parse.decimal row.1.1.2, row.1.2,
                                  Parse.decimal row.2)) <$> rows))) =
    (λ row : nat * Z * nat * Z, (row.1.1.2, row.2)) <$> rows.
Proof.
  intros Hh Hrows.
  pose (texts := (λ row : nat * Z * nat * Z,
                    (row.1.1.1, Parse.decimal row.1.1.2, row.1.2, Parse.decimal row.2))
                 <$> rows).
  assert (Hspec : ∀ n : Z, (0 ≤ n)%Z →
            Parse.decimal n ≠ [] ∧ Forall (λ c, Parse.is_digit c = true) (Parse.decimal n) ∧
            Parse.int (Parse.decimal n) = n).
  { intros n Hn. apply digits_of_spec; lia. }
  replace ((λ row : nat * Z * nat * Z,
              Parse.ps_line (row.1.1.1, Parse.decimal row.1.1.2, row.1.2,
                             Parse.decimal row.2)) <$> rows)
    with (Parse.ps_line <$> texts) by (unfold texts; by rewrite <- list_fmap_compose).
  assert (Hok : Forall Parse.ps_row_ok texts).
  { unfold texts. apply Forall_fmap. eapply Forall_impl; [exact Hrows|].
    intros [[[pad1 a] pad2] b] [Ha Hb]. simpl in *.
    destruct (Hspec a Ha) as (? & ? & _), (Hspec b Hb) as (? & ? & _). done. }
  assert (Hread : (λ row : nat * list ascii * nat * list ascii,
                     (Parse.int row.1.1.2, Parse.int row.2)) <$> texts =
                  (λ row : nat * Z * nat * Z, (row.1.1.2, row.2)) <$> rows).
  { unfold texts. rewrite <- list_fmap_compose. apply list_fmap_ext.
    intros i [[[pad1 a] pad2] b] Hi. simpl.
    rewrite Forall_forall in Hrows.
    destruct (Hrows (pad1, a, pad2, b)) as [Ha Hb]; [by eapply list_elem_of_lookup_2|].
    simpl in *. destruct (Hspec a Ha) as (_ & _ & ->), (Hspec b Hb) as (_ & _ & ->). done. }
  split.
  - rewrite running_gid_pid_lines; [exact Hread|exact Hh|exact Hok].
  - rewrite running_gid_pid_lines_getoutput; [exact Hread|exact Hh|exact Hok].
Qed.

Lemma running_gid_pid_reads_the_table_witness :
  Parse.running_gid_pid
    (String.list_ascii_of_string "PPID PID" ++
     concat ((λ row : nat * Z * nat * Z,
                Parse.ps_line (row.1.1.1, Parse.decimal row.1.1.2, row.1.2,
                               Parse.decimal row.2))
             <$> [(3%nat, 0, 5%nat, 1); (0%nat, 1, 0%nat, 234)])) =
    (λ row : nat * Z * nat * Z, (row.1.1.2, row.2))
    <$> [(3%nat, 0, 5%nat, 1); (0%nat, 1, 0%nat, 234)] ∧
  Parse.running_gid_pid
    (Parse.getoutput
       (String.list_ascii_of_string "PPID PID" ++
        concat ((λ row : nat * Z * nat * Z,
                   Parse.ps_line (row.1.1.1, Parse.decimal row.1.1.2, row.1.2,
                                  Parse.decimal row.2))
                <$> [(3%nat, 0, 5%nat, 1); (0%nat, 1, 0%nat, 234)]))) =
    (λ row : nat * Z * nat * Z, (row.1.1.2, row.2))
    <$> [(3%nat, 0, 5%nat, 1); (0%nat, 1, 0%nat, 234)].
Proof.
  apply (running_gid_pid_reads_the_table (String.list_ascii_of_string "PPID PID")
           [(3%nat, 0, 5%nat, 1); (0%nat, 1, 0%nat, 234)]).
  - repeat constructor.
  - repeat constructor; simpl; lia.
Defined.

(** X16.  The matches of the session listing: after a first line, lines
    that hold a tab, a pid, a dot, a name without white space, a tab and a
    state in parentheses, and a last line, where no digit of the first line,
    of a state or of the last line stands before a dot.  The pattern finds
    the sessions whose names are words (letters, digits and the underscore,
    the letters and numerals of Latin-1 among them), in the order of the
    lines, and passes over the others. *)
Theorem session_matches_reads_the_listing (header footer : list ascii)
    (rows : list (Z * list ascii * list ascii)) :
  Parse.plain header = true →
  Forall Parse.session_row_ok rows →
  Parse.plain footer = true →
  Parse.session_matches
    (header ++ ["010"%char] ++ concat (Parse.session_line <$> rows) ++ footer) =
    (λ row : Z * list ascii * list ascii,
       (String.string_of_list_ascii (Parse.decimal row.1.1),
        String.string_of_list_ascii row.1.2)) <$>
      filter (λ row, Parse.is_name row.1.2 = true) rows.
Proof. apply session_matches_lines. Qed.

(** A listing of four sessions: [pts-0.host] is passed over, and the name
    that ends in the letter 233 of Latin-1 (e with acute accent) is
    found. *)
Lemma session_matches_reads_the_listing_witness :
  Parse.session_matches
    (String.list_ascii_of_string "There are screens on:" ++ ["010"%char] ++
     concat (Parse.session_line <$>
               [(1234, String.list_ascii_of_string "jupyter",
                 String.list_ascii_of_string "Detached");
                (77, String.list_ascii_of_string "pts-0.host",
                 String.list_ascii_of_string "Attached");
                (12, ["c"; "a"; "f"; "233"]%char,
                 String.list_ascii_of_string "Detached");
                (5, String.list_ascii_of_string "airflow_webserver",
                 String.list_ascii_of_string "11/04/26 10:00:00")]) ++
     String.list_ascii_of_string "4 Sockets in /run/screen/S-me.") =
    [("1234", "jupyter"); ("12", String.string_of_list_ascii ["c"; "a"; "f"; "233"]%char);
     ("5", "airflow_webserver")].
Proof.
  apply (session_matches_reads_the_listing
           (String.list_ascii_of_string "There are screens on:")
           (String.list_ascii_of_string "4 Sockets in /run/screen/S-me.")
           [(1234, String.list_ascii_of_string "jupyter",
             String.list_ascii_of_string "Detached");
            (77, String.list_ascii_of_string "pts-0.host",
             String.list_ascii_of_string "Attached");
            (12, ["c"; "a"; "f"; "233"]%char,
             String.list_ascii_of_string "Detached");
            (5, String.list_ascii_of_string "airflow_webserver",
             String.list_ascii_of_string "11/04/26 10:00:00")]).
  - reflexivity.
  - repeat (constructor; [split; [lia|split; [repeat constructor|reflexivity]]|]).
    constructor.
  - reflexivity.
Defined.

(** X17.  The dictionary built from the set of matches, whatever the order
    in which the set is walked: its keys are the names matched, each value
    is a pid matched with that name, and when every name was matched with
    one pid only, the dictionary holds exactly the matches. *)
Theorem sessions_dict_any_order (matches order : list (string * string)) :
  order ≡ₚ remove_dups matches →
  (∀ name, is_Some (Parse.sessions_dict order !! name) ↔ ∃ pid, (pid, name) ∈ matches) ∧
  (∀ name pid, Parse.sessions_dict order !! name = Some pid → (pid, name) ∈ matches) ∧
  ((∀ p1 p2 name, (p1, name) ∈ matches → (p2, name) ∈ matches → p1 = p2) →
   ∀ name pid, Parse.sessions_dict order !! name = Some pid ↔ (pid, name) ∈ matches).
Proof.
  intros Hperm.
  assert (Hin : ∀ xy, xy ∈ order ↔ xy ∈ matches).
  { intros xy. rewrite Hperm. apply elem_of_remove_dups. }
  split; [|split].
  - intros name. split.
    + intros [pid H]. exists pid. apply Hin. by apply sessions_dict_elem.
    + intros [pid H]. apply (sessions_dict_key order name pid). by apply Hin.
  - intros name pid H. apply Hin. by apply sessions_dict_elem.
  - intros Hu name pid. rewrite <- Hin. apply sessions_dict_unique.
    intros p1 p2 n H1 H2. apply (Hu p1 p2 n); by apply Hin.
Qed.

Lemma sessions_dict_any_order_witness :
  (∀ name, is_Some (Parse.sessions_dict [("7", "mongo"); ("12", "jupyter")] !! name) ↔
           ∃ pid, (pid, name) ∈ [("12", "jupyter"); ("7", "mongo"); ("12", "jupyter")]) ∧
  (∀ name pid, Parse.sessions_dict [("7", "mongo"); ("12", "jupyter")] !! name = Some pid →
               (pid, name) ∈ [("12", "jupyter"); ("7", "mongo"); ("12", "jupyter")]) ∧
  ((∀ p1 p2 name, (p1, name) ∈ [("12", "jupyter"); ("7", "mongo"); ("12", "jupyter")] →
                  (p2, name) ∈ [("12", "jupyter"); ("7", "mongo"); ("12", "jupyter")] →
                  p1 = p2) →
   ∀ name pid, Parse.sessions_dict [("7", "mongo"); ("12", "jupyter")] !! name = Some pid ↔
               (pid, name) ∈ [("12", "jupyter"); ("7", "mongo"); ("12", "jupyter")]).
Proof.
  apply (sessions_dict_any_order
           [("12", "jupyter"); ("7", "mongo"); ("12", "jupyter")]
           [("7", "mongo"); ("12", "jupyter")]).
  vm_compute. reflexivity.
Defined.

(** X18.  Two sessions of one name: the set of the two matches can be walked
    in either order, and the pid that the dictionary keeps for the name is
    the one walked last, so it depends on that order. *)
Theorem sessions_dict_same_name_depends_on_order (p1 p2 name : string) :
  p1 ≠ p2 →
  [(p1, name); (p2, name)] ≡ₚ remove_dups [(p1, name); (p2, name)] ∧
  [(p2, name); (p1, name)] ≡ₚ remove_dups [(p1, name); (p2, name)] ∧
  Parse.sessions_dict [(p1, name); (p2, name)] !! name = Some p2 ∧
  Parse.sessions_dict [(p2, name); (p1, name)] !! name = Some p1.
Proof.
  intros Hne.
  assert (Hperm : [(p1, name); (p2, name)] ≡ₚ remove_dups [(p1, name); (p2, name)]).
  { apply NoDup_Permutation; [|apply NoDup_remove_dups|].
    - apply NoDup_cons. split; [|apply NoDup_singleton].
      intros H. apply list_elem_of_singleton in H. congruence.
    - intros x. by rewrite elem_of_remove_dups. }
  split; [exact Hperm|]. split; [by rewrite <- Hperm; apply perm_swap|].
  unfold Parse.sessions_dict. simpl. by rewrite !lookup_insert_eq.
Qed.

Lemma sessions_dict_same_name_depends_on_order_witness :
  [("12", "jupyter"); ("40", "jupyter")] ≡ₚ
    remove_dups [("12", "jupyter"); ("40", "jupyter")] ∧
  [("40", "jupyter"); ("12", "jupyter")] ≡ₚ
    remove_dups [("12", "jupyter"); ("40", "jupyter")] ∧
  Parse.sessions_dict [("12", "jupyter"); ("40", "jupyter")] !! "jupyter" = Some "40" ∧
  Parse.sessions_dict [("40", "jupyter"); ("12", "jupyter")] !! "jupyter" = Some "12".
Proof. apply (sessions_dict_same_name_depends_on_order "12" "40" "jupyter"). discriminate. Defined.

(** X19.  From the text to the dictionary of [get_pid]: for a listing as
    above whose sessions have names of their own, and for every order in
    which the set of matches is walked, a name has the pid [pid] in the
    dictionary if and only if it is a word (in the sense of [\w+], Latin-1
    letters and numerals included) and a line of the listing shows it with
    that pid. *)
Theorem screen_sessions_reads_the_listing (header footer : list ascii)
    (rows : list (Z * list ascii * list ascii)) (order : list (string * string))
    (name : list ascii) (pid : Z) :
  Parse.plain header = true →
  Forall Parse.session_row_ok rows →
  Parse.plain footer = true →
  NoDup (rows.*1.*2) →
  order ≡ₚ remove_dups
             (Parse.session_matches
                (header ++ ["010"%char] ++ concat (Parse.session_line <$> rows) ++ footer)) →
  Parse.screen_sessions order !! String.string_of_list_ascii name = Some pid ↔
  Parse.is_name name = true ∧ ∃ state, (pid, name, state) ∈ rows.
Proof.
  intros Hh Hrows Hf Hnd Hperm.
  rewrite session_matches_lines in Hperm by assumption.
  set (G := λ row : Z * list ascii * list ascii,
              (String.string_of_list_ascii (Parse.decimal row.1.1),
               String.string_of_list_ascii row.1.2)) in *.
  assert (Hin : ∀ xy, xy ∈ order ↔
                  ∃ row, xy = G row ∧ Parse.is_name row.1.2 = true ∧ row ∈ rows).
  { intros xy. rewrite Hperm, elem_of_remove_dups, list_elem_of_fmap.
    split; intros (row & E & H); exists row; (split; [exact E|]).
    - by apply list_elem_of_filter in H.
    - by apply list_elem_of_filter. }
  assert (Hinj : ∀ a b, String.string_of_list_ascii a = String.string_of_list_ascii b → a = b).
  { intros a b E. apply (f_equal String.list_ascii_of_string) in E.
    by rewrite !String.list_ascii_of_string_of_list_ascii in E. }
  assert (Hu : ∀ p1 p2 n, (p1, n) ∈ order → (p2, n) ∈ order → p1 = p2).
  { intros p1 p2 n H1 H2.
    apply Hin in H1 as ([[q1 n1] s1] & E1 & _ & R1), H2 as ([[q2 n2] s2] & E2 & _ & R2).
    unfold G in E1, E2. simpl in E1, E2. injection E1 as -> ->. injection E2 as -> E2.
    apply Hinj in E2. subst n2.
    assert ((q1, n1, s1) = (q2, n1, s2)) as E.
    { apply (NoDup_fmap_elem (λ row : Z * list ascii * list ascii, row.1.2) rows);
        [|exact R1|exact R2|reflexivity].
      rewrite <- list_fmap_compose in Hnd. exact Hnd. }
    by injection E as -> _. }
  unfold Parse.screen_sessions. rewrite lookup_fmap, fmap_Some.
  rewrite Forall_forall in Hrows. split.
  - intros (ptxt & Hd & ->). apply sessions_dict_elem in Hd.
    apply Hin in Hd as ([[q n] st] & E & Hgood & R). unfold G in E. simpl in *.
    injection E as -> E. apply Hinj in E. subst n. split; [exact Hgood|].
    exists st. rewrite String.list_ascii_of_string_of_list_ascii.
    destruct (Hrows _ R) as [Hq _].
    destruct (decimal_spec q Hq) as (_ & _ & ->). exact R.
  - intros (Hgood & st & R). exists (String.string_of_list_ascii (Parse.decimal pid)).
    split.
    + apply sessions_dict_unique; [exact Hu|]. apply Hin. by exists (pid, name, st).
    + rewrite String.list_ascii_of_string_of_list_ascii.
      destruct (Hrows _ R) as [Hq _]. by destruct (decimal_spec pid Hq) as (_ & _ & ->).
Qed.

(** The session whose name ends in the letter 233 of Latin-1 has pid 12 in
    the dictionary. *)
Lemma screen_sessions_reads_the_listing_witness :
  Parse.screen_sessions
    [("12", String.string_of_list_ascii ["c"; "a"; "f"; "233"]%char);
     ("1234", "jupyter"); ("5", "airflow_webserver")]
    !! String.string_of_list_ascii ["c"; "a"; "f"; "233"]%char = Some 12 ↔
  Parse.is_name ["c"; "a"; "f"; "233"]%char = true ∧
  ∃ state,
    (12, ["c"; "a"; "f"; "233"]%char, state)
    ∈ [(1234, String.list_ascii_of_string "jupyter",
        String.list_ascii_of_string "Detached");
       (77, String.list_ascii_of_string "pts-0.host",
        String.list_ascii_of_string "Attached");
       (12, ["c"; "a"; "f"; "233"]%char,
        String.list_ascii_of_string "Detached");
       (5, String.list_ascii_of_string "airflow_webserver",
        String.list_ascii_of_string "11/04/26 10:00:00")].
Proof.
  apply (screen_sessions_reads_the_listing
           (String.list_ascii_of_string "There are screens on:")
           (String.list_ascii_of_string "4 Sockets in /run/screen/S-me.")).
  - reflexivity.
  - repeat (constructor; [split; [lia|split; [repeat constructor|reflexivity]]|]).
    constructor.
  - reflexivity.
  - apply (bool_decide_unpack _). vm_compute. exact I.
  - vm_compute. apply perm_swap.
Defined.


(** ** The answer at the prompt *)

Section PromptFacts.

Local Open Scope char_scope.

(** The only characters that [lower] turns into [y], [e] or [s] are these
    letters and their capitals. *)
Lemma lower_char_y (c : ascii) : lower_char c = "y" → c = "y" ∨ c = "Y".
Proof.
  destruct c as [[] [] [] [] [] [] [] []]; vm_compute; intros H;
    try discriminate; auto.
Qed.

Lemma lower_char_e (c : ascii) : lower_char c = "e" → c = "e" ∨ c = "E".
Proof.
  destruct c as [[] [] [] [] [] [] [] []]; vm_compute; intros H;
    try discriminate; auto.
Qed.

Lemma lower_char_s (c : ascii) : lower_char c = "s" → c = "s" ∨ c = "S".
Proof.
  destruct c as [[] [] [] [] [] [] [] []]; vm_compute; intros H;
    try discriminate; auto.
Qed.

End PromptFacts.

(** X20.  What counts as a yes at the prompt of [main]: the empty line, and
    [y] and [yes] in any mix of capitals and small letters.  The answer is not
    stripped, so every other line, also one with a blank before or after the
    word, declines. *)
Theorem confirms_exactly_yes (answer : string) :
  confirms answer = true ↔
  answer ∈ [""; "y"; "Y"; "yes"; "yeS"; "yEs"; "yES"; "Yes"; "YeS"; "YEs"; "YES"].
Proof.
  unfold confirms. rewrite bool_decide_eq_true. split.
  - intros H. apply elem_of_cons in H as [H|H]; [|apply elem_of_cons in H as [H|H];
      [|apply list_elem_of_singleton in H]].
    + destruct answer; [apply list_elem_of_here|discriminate].
    + destruct answer as [|c [|? ?]]; try discriminate.
      simpl in H. injection H as H.
      apply lower_char_y in H as [-> | ->];
        repeat first [apply list_elem_of_here | apply list_elem_of_further].
    + destruct answer as [|c1 [|c2 [|c3 [|? ?]]]]; try discriminate.
      simpl in H. injection H as H1 H2 H3.
      apply lower_char_y in H1 as [-> | ->]; apply lower_char_e in H2 as [-> | ->];
        apply lower_char_s in H3 as [-> | ->];
        repeat first [apply list_elem_of_here | apply list_elem_of_further].
  - intros H.
    repeat (apply elem_of_cons in H as [-> | H]);
      try (by apply elem_of_nil in H);
      vm_compute; repeat first [apply list_elem_of_here | apply list_elem_of_further].
Qed.
